(** * Climate dashboard: scenario pipeline, store and forecast engine

    A shallow embedding of the server (Express handlers, completion parsing,
    keyword generators, narrative route, SQLite seeding) and of the client
    (forecast interpolation, status of the cards, scenario list, narrative
    tab), followed by the properties established about them.

    Conventions of the embedding.
    - A JavaScript string is a [string]: the sequence of its bytes in UTF-8,
      a surrogate without its partner taking the three bytes the same
      scheme gives its number.  [trim] removes the white space of
      ECMAScript, ASCII or not; [length] and [substring] count UTF-16 code
      units.  [toLowerCase] acts on the ASCII range, which is where every
      keyword of the generators lies.
    - A JavaScript value that travels as JSON is a [json]; [undefined] is
      [None] of [option json].  The members of an object are kept in the
      order in which they were written.
    - A call that may throw returns an [outcome]: [Return v] or [Throw msg],
      [msg] being the message of the [Error].
    - Numbers that are parsed or serialised are exact decimals
      (mantissa and power of ten); the arithmetic of the forecast engine is
      carried out in [Q], with [None] standing for [NaN], and its
      properties are stated operation by operation.
    - The SQL driver works through callbacks.  A statement that is run
      without one, as in the handlers of the server, has no result the code
      can see: the call returns the Statement, and the table changes when
      the driver gets to the statement.  The table is the list of its rows.
    - The clock, the completion service, [Math.random] and the printing of
      numbers and dates in the locale of the host are arguments of the
      functions that use them. *)

From Stdlib Require Import String Ascii List ZArith QArith Qminmax Bool Lia Lqa.
From Stdlib Require Import Permutation.
Import ListNotations.

Local Open Scope string_scope.
Local Open Scope Z_scope.

(** ** Outcomes of calls that may throw *)

Inductive outcome (A : Type) : Type :=
| Return (a : A)
| Throw (msg : string).
Arguments Return {A} a.
Arguments Throw {A} msg.

Definition bind {A B : Type} (m : outcome A) (k : A -> outcome B) : outcome B :=
  match m with
  | Return a => k a
  | Throw e => Throw e
  end.

Notation "'let*' x ':=' m 'in' k" := (bind m (fun x => k))
  (at level 10, x name, m at level 100, k at level 200).

(** ** Strings *)

Module Str.

(** The double quote character and the one-character string holding it. *)
Definition dq : ascii := Ascii.ascii_of_nat 34.
Definition dqs : string := String dq EmptyString.

Definition is_upper (c : ascii) : bool :=
  let n := nat_of_ascii c in (65 <=? n)%nat && (n <=? 90)%nat.

Definition lower_char (c : ascii) : ascii :=
  if is_upper c then ascii_of_nat (nat_of_ascii c + 32) else c.

(** [String.prototype.toLowerCase] on the ASCII range. *)
Fixpoint toLowerCase (s : string) : string :=
  match s with
  | EmptyString => EmptyString
  | String c r => String (lower_char c) (toLowerCase r)
  end.

(** [hay.includes(needle)] *)
Fixpoint includes (hay needle : string) : bool :=
  if String.prefix needle hay then true
  else match hay with
       | EmptyString => false
       | String _ r => includes r needle
       end.

(** *** White space

    [trim] removes the white space and the line terminators of
    ECMAScript.  Six of them are ASCII: space, tab, line feed, vertical
    tab, form feed and carriage return. *)
Definition is_space (c : ascii) : bool :=
  let n := nat_of_ascii c in
  (n =? 32)%nat || ((9 <=? n)%nat && (n <=? 13)%nat).

(** U+00A0, the no-break space: bytes C2 A0. *)
Definition is_space2 (c d : ascii) : bool :=
  (nat_of_ascii c =? 194)%nat && (nat_of_ascii d =? 160)%nat.

(** The others take three bytes: U+1680 (E1 9A 80), U+2000 to U+200A
    (E2 80 80 to E2 80 8A), U+2028 and U+2029 (E2 80 A8, E2 80 A9), U+202F
    (E2 80 AF), U+205F (E2 81 9F), U+3000 (E3 80 80) and U+FEFF
    (EF BB BF). *)
Definition is_space3 (c d e : ascii) : bool :=
  let a := nat_of_ascii c in
  let b := nat_of_ascii d in
  let k := nat_of_ascii e in
  ((a =? 225) && (b =? 154) && (k =? 128))%nat
  || ((a =? 226) && (b =? 128)
      && (((128 <=? k) && (k <=? 138)) || (k =? 168) || (k =? 169) || (k =? 175)))%nat
  || ((a =? 226) && (b =? 129) && (k =? 159))%nat
  || ((a =? 227) && (b =? 128) && (k =? 128))%nat
  || ((a =? 239) && (b =? 187) && (k =? 191))%nat.

Fixpoint trimStart (s : string) : string :=
  match s with
  | EmptyString => EmptyString
  | String c r =>
      if is_space c then trimStart r
      else
        match r with
        | String d r2 =>
            if is_space2 c d then trimStart r2
            else
              match r2 with
              | String e r3 => if is_space3 c d e then trimStart r3 else s
              | EmptyString => s
              end
        | EmptyString => s
        end
  end.

(** A text that is white space throughout. *)
Definition blank (s : string) : bool :=
  match trimStart s with
  | EmptyString => true
  | String _ _ => false
  end.

(** The text up to its last character that is not white space. *)
Fixpoint trimEnd (s : string) : string :=
  match s with
  | EmptyString => EmptyString
  | String c r => if blank s then EmptyString else String c (trimEnd r)
  end.

(** [String.prototype.trim] *)
Definition trim (s : string) : string := trimEnd (trimStart s).

(** *** Code units

    [length] and [substring] count the UTF-16 code units of a string.  A
    character of one, two or three bytes is one unit; a character of four
    bytes is two, a high and a low surrogate.  A surrogate on its own,
    which a cut between the two leaves behind, is written as the three
    bytes that the same scheme gives its number (ED A0 80 to ED BF BF). *)

(** The number of the character with the four bytes [c d e f], less
    65536. *)
Definition supplementary (c d e f : ascii) : N :=
  ((N_of_ascii c mod 8) * 262144 + (N_of_ascii d mod 64) * 4096
   + (N_of_ascii e mod 64) * 64 + (N_of_ascii f mod 64) - 65536)%N.

(** The unit with the number [u], between 55296 and 57343, in three
    bytes. *)
Definition surrogate (u : N) : string :=
  String (ascii_of_nat 237)
    (String (ascii_of_N (128 + (u / 64) mod 64))
       (String (ascii_of_N (128 + u mod 64)) EmptyString)).

Definition high_surrogate (c d e f : ascii) : string :=
  surrogate (55296 + supplementary c d e f / 1024).

Definition low_surrogate (c d e f : ascii) : string :=
  surrogate (56320 + supplementary c d e f mod 1024).

(** How many bytes the character that starts with the byte [c] takes. *)
Definition width (c : ascii) : nat :=
  let n := nat_of_ascii c in
  if (n <? 192)%nat then 1
  else if (n <? 224)%nat then 2
  else if (n <? 240)%nat then 3
  else 4.

(** The code units of a string, each as a string of its own. *)
Fixpoint units (s : string) : list string :=
  match s with
  | EmptyString => []
  | String c r =>
      match width c, r with
      | 2%nat, String d r2 => String c (String d EmptyString) :: units r2
      | 3%nat, String d (String e r3) =>
          String c (String d (String e EmptyString)) :: units r3
      | 4%nat, String d (String e (String f r4)) =>
          high_surrogate c d e f :: low_surrogate c d e f :: units r4
      | _, _ => String c EmptyString :: units r
      end
  end.

(** [s.length] *)
Definition length (s : string) : nat := List.length (units s).

(** [s.substring(0, n)]: the first [n] code units of [s], all of [s] when
    it has no more. *)
Fixpoint prefix_of (n : nat) (s : string) : string :=
  match n with
  | O => EmptyString
  | S m =>
      match s with
      | EmptyString => EmptyString
      | String c r =>
          match width c, r with
          | 2%nat, String d r2 => String c (String d (prefix_of m r2))
          | 3%nat, String d (String e r3) =>
              String c (String d (String e (prefix_of m r3)))
          | 4%nat, String d (String e (String f r4)) =>
              match m with
              | O => high_surrogate c d e f
              | S m' =>
                  String c (String d (String e (String f (prefix_of m' r4))))
              end
          | _, _ => String c (prefix_of m r)
          end
      end
  end.

(** The suffix of [s] that starts at its first occurrence of [c]. *)
Fixpoint from_first (c : ascii) (s : string) : option string :=
  match s with
  | EmptyString => None
  | String d r => if Ascii.eqb d c then Some s else from_first c r
  end.

(** The longest prefix of [s] that ends with [c]. *)
Fixpoint upto_last (c : ascii) (s : string) : option string :=
  match s with
  | EmptyString => None
  | String d r =>
      match upto_last c r with
      | Some p => Some (String d p)
      | None => if Ascii.eqb d c then Some (String d EmptyString) else None
      end
  end.

(** [s.match(/\{[\s\S]*\}/)]: the leftmost match of an opening brace,
    then as many characters of any kind as possible, then a closing brace.
    The match starts at the first opening brace and, the star being greedy,
    runs to the last closing brace after it. *)
Definition match_braces (s : string) : option string :=
  match from_first "{"%char s with
  | Some (String o r) =>
      match upto_last "}"%char r with
      | Some p => Some (String o p)
      | None => None
      end
  | _ => None
  end.

(** Does [c] occur in [s]? *)
Fixpoint mem (c : ascii) (s : string) : bool :=
  match s with
  | EmptyString => false
  | String d r => Ascii.eqb d c || mem c r
  end.

Fixpoint all_space (s : string) : bool :=
  match s with
  | EmptyString => true
  | String c r => is_space c && all_space r
  end.

End Str.

(** ** JSON values *)

Module Json.

(** A number as an exact decimal: [mant * 10 ^ expo]. *)
Record num : Type := Num { mant : Z; expo : Z }.

Fixpoint strip10 (fuel : nat) (m e : Z) : num :=
  match fuel with
  | O => Num m e
  | S f =>
      if m =? 0 then Num 0 0
      else if m mod 10 =? 0 then strip10 f (m / 10) (e + 1)
      else Num m e
  end.

(** The canonical form: no trailing zero in the mantissa, and zero is
    [Num 0 0]. *)
Definition norm (m e : Z) : num :=
  strip10 (S (Z.to_nat (Z.log2 (Z.abs m)))) m e.

(** A whole number, such as [180000]. *)
Definition int (z : Z) : num := norm z 0.
(** A decimal written with [d] digits after the point: [1.8] is [dec 18 1]. *)
Definition dec (m : Z) (d : Z) : num := norm m (- d).
(** Scientific notation: [9.8e9] is [sci 98 1 9]. *)
Definition sci (m : Z) (d : Z) (e : Z) : num := norm m (e - d).

Definition num_eqb (a b : num) : bool :=
  (mant a =? mant b) && (expo a =? expo b).

#[warnings="-register-all"] Inductive json : Type :=
| JNull
| JBool (b : bool)
| JNum (n : num)
| JStr (s : string)
| JArr (l : list json)
| JObj (fields : list (string * json)).

(** Own properties of an object, in insertion order: a later write to a
    key already present replaces its value in place. *)
Fixpoint set_field (k : string) (v : json) (fs : list (string * json))
  : list (string * json) :=
  match fs with
  | [] => [(k, v)]
  | (k', v') :: r =>
      if String.eqb k' k then (k, v) :: r else (k', v') :: set_field k v r
  end.

Fixpoint lookup (k : string) (fs : list (string * json)) : option json :=
  match fs with
  | [] => None
  | (k', v) :: r => if String.eqb k' k then Some v else lookup k r
  end.

(** [base.k]: a [TypeError] on [undefined] and [null]; an object yields its
    own property; any other value has none of the names used here. *)
Definition get (base : option json) (k : string) : outcome (option json) :=
  match base with
  | None =>
      Throw ("Cannot read properties of undefined (reading '" ++ k ++ "')")
  | Some JNull =>
      Throw ("Cannot read properties of null (reading '" ++ k ++ "')")
  | Some (JObj fs) => Return (lookup k fs)
  | Some _ => Return None
  end.

(** Truthiness, as [||] and [if] see it. *)
Definition truthy (v : option json) : bool :=
  match v with
  | None => false
  | Some JNull => false
  | Some (JBool b) => b
  | Some (JNum n) => negb (mant n =? 0)
  | Some (JStr s) => negb (String.eqb s EmptyString)
  | Some _ => true
  end.

(** [a || b] *)
Definition or_else (a : option json) (b : json) : option json :=
  if truthy a then a else Some b.

End Json.

(** ** JSON text: [JSON.parse] and [JSON.stringify]

    The grammar is that of JSON.  A number denotes its exact decimal value
    and is printed as [Number.prototype.toString] prints a number with
    these digits; an escape [\uXXXX] stands for the UTF-8 bytes of that one
    code unit. *)

Module JsonText.
Import Json.

Definition is_digit (c : ascii) : bool :=
  let n := nat_of_ascii c in (48 <=? n)%nat && (n <=? 57)%nat.

(** JSON white space: space, tab, line feed, carriage return. *)
Definition is_ws (c : ascii) : bool :=
  let n := nat_of_ascii c in
  (n =? 32)%nat || (n =? 9)%nat || (n =? 10)%nat || (n =? 13)%nat.

Fixpoint skip_ws (s : string) : string :=
  match s with
  | EmptyString => EmptyString
  | String c r => if is_ws c then skip_ws r else s
  end.

(** The longest prefix of digits, and what follows it. *)
Fixpoint span_digits (s : string) : string * string :=
  match s with
  | EmptyString => (EmptyString, EmptyString)
  | String c r =>
      if is_digit c
      then let (ds, rest) := span_digits r in (String c ds, rest)
      else (EmptyString, s)
  end.

(** The value of a string of digits, read from the left. *)
Fixpoint digits_acc (acc : Z) (ds : string) : Z :=
  match ds with
  | EmptyString => acc
  | String c r => digits_acc (10 * acc + (Z.of_nat (nat_of_ascii c) - 48)) r
  end.

Definition digits_value (ds : string) : Z := digits_acc 0 ds.

Definition digit_char (d : Z) : ascii := ascii_of_nat (48 + Z.to_nat d).

(** The decimal digits of [n], written in front of [acc]. *)
Fixpoint digits_onto (fuel : nat) (n : Z) (acc : string) : string :=
  match fuel with
  | O => acc
  | S f =>
      let acc' := String (digit_char (n mod 10)) acc in
      if n <? 10 then acc' else digits_onto f (n / 10) acc'
  end.

(** The decimal digits of a natural number, without leading zero. *)
Definition digits_of (n : Z) : string :=
  digits_onto (S (Z.to_nat (Z.log2 n))) n EmptyString.

(** *** Numbers *)

(** The integer part: a single zero, or a digit from one to nine followed
    by digits. *)
Definition parse_int_part (s : string) : option (string * string) :=
  match s with
  | String c r =>
      if Ascii.eqb c "0"%char then Some (String c EmptyString, r)
      else if is_digit c then Some (span_digits s)
      else None
  | EmptyString => None
  end.

Definition parse_frac_part (s : string) : option (string * string) :=
  match s with
  | String c r =>
      if Ascii.eqb c "."%char then
        match span_digits r with
        | (EmptyString, _) => None
        | (fp, rest) => Some (fp, rest)
        end
      else Some (EmptyString, s)
  | EmptyString => Some (EmptyString, s)
  end.

Definition parse_exp_digits (neg : bool) (s : string) : option (Z * string) :=
  match span_digits s with
  | (EmptyString, _) => None
  | (ds, rest) =>
      Some (if neg then - digits_value ds else digits_value ds, rest)
  end.

Definition parse_exp_part (s : string) : option (Z * string) :=
  match s with
  | String c r =>
      if Ascii.eqb c "e"%char || Ascii.eqb c "E"%char then
        match r with
        | String sg r' =>
            if Ascii.eqb sg "-"%char then parse_exp_digits true r'
            else if Ascii.eqb sg "+"%char then parse_exp_digits false r'
            else parse_exp_digits false r
        | EmptyString => None
        end
      else Some (0, s)
  | EmptyString => Some (0, s)
  end.

Definition parse_unsigned (neg : bool) (s : string) : option (num * string) :=
  match parse_int_part s with
  | None => None
  | Some (ip, s1) =>
      match parse_frac_part s1 with
      | None => None
      | Some (fp, s2) =>
          match parse_exp_part s2 with
          | None => None
          | Some (e, s3) =>
              let m := digits_value (ip ++ fp) in
              Some (norm (if neg then - m else m)
                         (e - Z.of_nat (String.length fp)), s3)
          end
      end
  end.

Definition parse_number (s : string) : option (num * string) :=
  match s with
  | String c r =>
      if Ascii.eqb c "-"%char then parse_unsigned true r
      else parse_unsigned false s
  | EmptyString => None
  end.

Fixpoint zeros (n : nat) : string :=
  match n with
  | O => EmptyString
  | S k => String "0"%char (zeros k)
  end.

(** The digits [ds] of a number whose decimal point stands after the
    [n]-th digit, printed as [Number.prototype.toString] prints them. *)
Definition place_point (ds : string) (n : Z) : string :=
  let k := Z.of_nat (String.length ds) in
  if (k <=? n) && (n <=? 21) then
    ds ++ zeros (Z.to_nat (n - k))
  else if (0 <? n) && (n <=? 21) then
    String.substring 0 (Z.to_nat n) ds ++ "." ++
    String.substring (Z.to_nat n) (Z.to_nat (k - n)) ds
  else if (-6 <? n) && (n <=? 0) then
    "0." ++ zeros (Z.to_nat (- n)) ++ ds
  else
    let e := n - 1 in
    let m := match ds with
             | String d EmptyString => ds
             | String d r => String d ("." ++ r)
             | EmptyString => ds
             end in
    m ++ "e" ++ (if 0 <=? e then "+" else "-") ++ digits_of (Z.abs e).

Definition num_to_string (x : num) : string :=
  let c := norm (mant x) (expo x) in
  if mant c =? 0 then "0"
  else
    let ds := digits_of (Z.abs (mant c)) in
    let body := place_point ds (Z.of_nat (String.length ds) + expo c) in
    if mant c <? 0 then "-" ++ body else body.

(** *** Strings *)

Definition hex_digit (c : ascii) : option N :=
  let n := N_of_ascii c in
  if (48 <=? n)%N && (n <=? 57)%N then Some (n - 48)%N
  else if (65 <=? n)%N && (n <=? 70)%N then Some (n - 55)%N
  else if (97 <=? n)%N && (n <=? 102)%N then Some (n - 87)%N
  else None.

Definition hex4 (a b c d : ascii) : option N :=
  match hex_digit a, hex_digit b, hex_digit c, hex_digit d with
  | Some x, Some y, Some z, Some w => Some (((x * 16 + y) * 16 + z) * 16 + w)%N
  | _, _, _, _ => None
  end.

(** The UTF-8 bytes of a code unit below 65536. *)
Definition utf8 (u : N) : string :=
  if (u <? 128)%N then String (ascii_of_N u) EmptyString
  else if (u <? 2048)%N then
    String (ascii_of_N (192 + u / 64))
      (String (ascii_of_N (128 + u mod 64)) EmptyString)
  else
    String (ascii_of_N (224 + u / 4096))
      (String (ascii_of_N (128 + (u / 64) mod 64))
         (String (ascii_of_N (128 + u mod 64)) EmptyString)).

Definition unescape (c : ascii) : option ascii :=
  if Ascii.eqb c Str.dq then Some Str.dq
  else if Ascii.eqb c "\"%char then Some "\"%char
  else if Ascii.eqb c "/"%char then Some "/"%char
  else if Ascii.eqb c "b"%char then Some (ascii_of_nat 8)
  else if Ascii.eqb c "f"%char then Some (ascii_of_nat 12)
  else if Ascii.eqb c "n"%char then Some (ascii_of_nat 10)
  else if Ascii.eqb c "r"%char then Some (ascii_of_nat 13)
  else if Ascii.eqb c "t"%char then Some (ascii_of_nat 9)
  else None.

(** The characters of a string literal after its opening quote, up to the
    closing quote, and what follows it. *)
Fixpoint parse_chars (s : string) : option (string * string) :=
  match s with
  | EmptyString => None
  | String c r =>
      if Ascii.eqb c Str.dq then Some (EmptyString, r)
      else if Ascii.eqb c "\"%char then
        match r with
        | EmptyString => None
        | String e r1 =>
            if Ascii.eqb e "u"%char then
              match r1 with
              | String h1 (String h2 (String h3 (String h4 r2))) =>
                  match hex4 h1 h2 h3 h4 with
                  | None => None
                  | Some u =>
                      match parse_chars r2 with
                      | None => None
                      | Some (t, rest) => Some (utf8 u ++ t, rest)
                      end
                  end
              | _ => None
              end
            else
              match unescape e with
              | None => None
              | Some ch =>
                  match parse_chars r1 with
                  | None => None
                  | Some (t, rest) => Some (String ch t, rest)
                  end
              end
        end
      else if (nat_of_ascii c <? 32)%nat then None
      else
        match parse_chars r with
        | None => None
        | Some (t, rest) => Some (String c t, rest)
        end
  end.

Definition hex_char (n : nat) : ascii :=
  if (n <? 10)%nat then ascii_of_nat (48 + n) else ascii_of_nat (87 + n).

Definition escape_char (c : ascii) : string :=
  let n := nat_of_ascii c in
  if Ascii.eqb c Str.dq then String "\"%char Str.dqs
  else if Ascii.eqb c "\"%char then "\\"
  else if (n =? 8)%nat then "\b"
  else if (n =? 12)%nat then "\f"
  else if (n =? 10)%nat then "\n"
  else if (n =? 13)%nat then "\r"
  else if (n =? 9)%nat then "\t"
  else if (n <? 32)%nat then
    "\u00" ++ String (hex_char (n / 16)) (String (hex_char (n mod 16)) EmptyString)
  else String c EmptyString.

Fixpoint escape (s : string) : string :=
  match s with
  | EmptyString => EmptyString
  | String c r => escape_char c ++ escape r
  end.

Definition quote (s : string) : string := Str.dqs ++ escape s ++ Str.dqs.

(** *** Values *)

(** What follows [word] in [s], when [s] starts with it. *)
Fixpoint strip_prefix (word s : string) : option string :=
  match word with
  | EmptyString => Some s
  | String c word' =>
      match s with
      | String d s' => if Ascii.eqb c d then strip_prefix word' s' else None
      | EmptyString => None
      end
  end.

Definition literal (word : string) (v : json) (s : string)
  : option (json * string) :=
  match strip_prefix word s with
  | Some rest => Some (v, rest)
  | None => None
  end.

(** [parse_value] reads one value; [parse_elements] reads the elements of
    an array after the first one was read into [acc]; [parse_members] reads
    the members of an object from a key on.  [fuel] bounds the depth of the
    calls; two calls in a row consume a character at least. *)
Fixpoint parse_value (fuel : nat) (s : string) : option (json * string) :=
  match fuel with
  | O => None
  | S f =>
      match skip_ws s with
      | EmptyString => None
      | String c r =>
          if Ascii.eqb c "{"%char then
            match skip_ws r with
            | String c1 r1 =>
                if Ascii.eqb c1 "}"%char then Some (JObj [], r1)
                else parse_members f (String c1 r1) []
            | EmptyString => None
            end
          else if Ascii.eqb c "["%char then
            match skip_ws r with
            | String c1 r1 =>
                if Ascii.eqb c1 "]"%char then Some (JArr [], r1)
                else parse_elements f (String c1 r1) []
            | EmptyString => None
            end
          else if Ascii.eqb c Str.dq then
            match parse_chars r with
            | Some (t, rest) => Some (JStr t, rest)
            | None => None
            end
          else if Ascii.eqb c "t"%char then literal "true" (JBool true) (String c r)
          else if Ascii.eqb c "f"%char then literal "false" (JBool false) (String c r)
          else if Ascii.eqb c "n"%char then literal "null" JNull (String c r)
          else
            match parse_number (String c r) with
            | Some (n, rest) => Some (JNum n, rest)
            | None => None
            end
      end
  end

with parse_elements (fuel : nat) (s : string) (acc : list json)
  : option (json * string) :=
  match fuel with
  | O => None
  | S f =>
      match parse_value f s with
      | None => None
      | Some (v, s1) =>
          match skip_ws s1 with
          | String c r =>
              if Ascii.eqb c ","%char then parse_elements f r (acc ++ [v])
              else if Ascii.eqb c "]"%char then Some (JArr (acc ++ [v]), r)
              else None
          | EmptyString => None
          end
      end
  end

with parse_members (fuel : nat) (s : string) (acc : list (string * json))
  : option (json * string) :=
  match fuel with
  | O => None
  | S f =>
      match skip_ws s with
      | String q r =>
          if Ascii.eqb q Str.dq then
            match parse_chars r with
            | None => None
            | Some (k, s1) =>
                match skip_ws s1 with
                | String c s2 =>
                    if Ascii.eqb c ":"%char then
                      match parse_value f s2 with
                      | None => None
                      | Some (v, s3) =>
                          match skip_ws s3 with
                          | String d s4 =>
                              if Ascii.eqb d ","%char
                              then parse_members f s4 (set_field k v acc)
                              else if Ascii.eqb d "}"%char
                              then Some (JObj (set_field k v acc), s4)
                              else None
                          | EmptyString => None
                          end
                      end
                    else None
                | EmptyString => None
                end
            end
          else None
      | EmptyString => None
      end
  end.

(** [JSON.parse(s)]; [None] is the [SyntaxError].  The fuel is more than
    the calls can use on a text of this length. *)
Definition parse (s : string) : option json :=
  match parse_value (S (2 * String.length s)) s with
  | Some (v, rest) =>
      match skip_ws rest with
      | EmptyString => Some v
      | _ => None
      end
  | None => None
  end.

Fixpoint join (sep : string) (l : list string) : string :=
  match l with
  | [] => EmptyString
  | [x] => x
  | x :: r => x ++ sep ++ join sep r
  end.

(** [JSON.stringify(v)] of a value. *)
Fixpoint stringify (v : json) : string :=
  match v with
  | JNull => "null"
  | JBool true => "true"
  | JBool false => "false"
  | JNum n => num_to_string n
  | JStr s => quote s
  | JArr l => "[" ++ join "," (map stringify l) ++ "]"
  | JObj fs =>
      "{" ++ join "," (map (fun kv => quote (fst kv) ++ ":" ++ stringify (snd kv)) fs)
          ++ "}"
  end.

(** [JSON.stringify(v)] where [v] may be [undefined]. *)
Definition stringify_opt (v : option json) : option string :=
  match v with
  | None => None
  | Some j => Some (stringify j)
  end.

End JsonText.

(** ** The keyword generators of the server *)

Module Fallback.
Import Json.
Import Str.

(** *** The pre-authored narratives *)

Definition narrative_hero : string :=
  "When Superman first appeared in 2025, his intervention in the climate crisis was immediate and dramatic. Using his heat vision to melt polar ice caps strategically, he created new water channels that prevented catastrophic flooding while his super-breath generated wind patterns that stabilized extreme weather events. Within months, global temperatures began stabilizing, and the Man of Steel became humanity's greatest ally in the fight against climate change.

However, Superman's intervention created unexpected consequences that reshaped human society. His constant presence led to the emergence of " ++ dqs ++ "super-dependency syndrome" ++ dqs ++ " - a psychological condition where communities became overly reliant on his interventions rather than developing sustainable solutions. The " ++ dqs ++ "Superman Effect" ++ dqs ++ " also created new geopolitical tensions, as nations competed for his attention and protection. Some regions experienced " ++ dqs ++ "super-climate zones" ++ dqs ++ " where Superman's interventions created microclimates that were too perfect, leading to the evolution of new species that couldn't survive in natural conditions.

By 2100, humanity had learned to balance Superman's help with sustainable development. The " ++ dqs ++ "Superman Climate Institute" ++ dqs ++ " was established to coordinate his interventions with human efforts, while " ++ dqs ++ "super-farmers" ++ dqs ++ " learned to cultivate crops in the unique conditions created by his climate stabilization. The experience taught humanity that even the most powerful allies couldn't solve complex problems alone - cooperation between superhuman and human efforts was essential for long-term sustainability.".

Definition narrative_time_travel : string :=
  "The discovery of time travel technology in 2030 created an unprecedented opportunity to address climate change at its source. Teams of temporal engineers, equipped with quantum-stabilized chronometers, traveled back to key moments in history: 1985 (Chernobyl), 1992 (Rio Earth Summit), and 2008 (financial crisis). They implemented clean energy technologies decades before they were originally developed, creating a cascade of technological breakthroughs that rippled forward through time.

The immediate effects were dramatic - by 2040, global temperatures had stabilized at 1.5°C above pre-industrial levels, and carbon emissions plummeted by 60%. However, the temporal interventions created unforeseen consequences. The " ++ dqs ++ "temporal pollution" ++ dqs ++ " caused by multiple timeline alterations led to the emergence of " ++ dqs ++ "chrono-storms" ++ dqs ++ " - localized weather anomalies where past and present climate patterns collided. Some regions experienced unexpected climate patterns, with parts of the Sahara receiving monsoon rains while the Amazon experienced desertification.

By 2100, humanity had learned that while time travel could solve immediate problems, it created new challenges that required innovative solutions. The " ++ dqs ++ "Temporal Climate Institute" ++ dqs ++ " was established to monitor and manage chrono-storms, while " ++ dqs ++ "temporal farmers" ++ dqs ++ " learned to cultivate crops that thrived in the unique conditions created by timeline convergence. The experience taught humanity that the most sustainable solutions were those built in the present, not borrowed from the past.".

Definition narrative_alien : string :=
  "In 2027, the arrival of the Zephyrian Collective, a benevolent alien civilization from the Andromeda galaxy, marked the beginning of Earth's most dramatic climate transformation. The Zephyrians, having experienced their own climate crisis millennia ago, arrived with advanced atmospheric purification technology and a deep understanding of planetary climate systems. Their " ++ dqs ++ "atmospheric scrubbers" ++ dqs ++ " - massive orbital stations that filtered greenhouse gases while releasing oxygen - began working immediately, stabilizing global temperatures within months.

The Zephyrian intervention created unprecedented opportunities but also new challenges. Their " ++ dqs ++ "bio-synthetic terraforming" ++ dqs ++ " technology could restore degraded ecosystems, but it also introduced alien microorganisms that began evolving in Earth's environment. Some regions experienced " ++ dqs ++ "zephyrian blooms" ++ dqs ++ " - beautiful but potentially invasive alien plant species that could photosynthesize in extreme conditions. The technology transfer created new industries and economic opportunities, but also raised questions about Earth's technological dependency on alien assistance.

By 2100, Earth had become a model of climate restoration, with global temperatures stabilized at 1.2°C above pre-industrial levels. The " ++ dqs ++ "Zephyrian-Earth Climate Alliance" ++ dqs ++ " had been established, creating a new era of interplanetary cooperation. However, the experience had also taught humanity valuable lessons about maintaining technological independence while embracing beneficial external assistance. The alien intervention had saved Earth's climate, but it had also catalyzed a new era of human innovation and self-reliance.".

Definition narrative_fusion_revolution : string :=
  "The breakthrough in fusion energy technology in 2028, achieved by a collaborative effort between MIT, CERN, and private sector innovators, marked the beginning of Earth's energy revolution. The " ++ dqs ++ "Stellarator-7" ++ dqs ++ " fusion reactor, capable of producing unlimited clean energy with minimal waste, became operational in 2030, triggering a global energy transformation that would reshape civilization. Within five years, fusion power plants had replaced 80% of fossil fuel infrastructure, leading to a dramatic reduction in carbon emissions and global temperatures stabilizing at 1.9°C above pre-industrial levels.

However, the fusion revolution created unexpected consequences that reshaped human society. The abundance of cheap, clean energy led to the emergence of " ++ dqs ++ "energy-intensive industries" ++ dqs ++ " that consumed massive amounts of power for carbon capture, atmospheric purification, and even weather modification. The " ++ dqs ++ "Fusion Climate Control Network" ++ dqs ++ " could manipulate regional weather patterns, but this created new geopolitical tensions as nations competed for favorable climate conditions. Some regions experienced " ++ dqs ++ "fusion microclimates" ++ dqs ++ " where artificial weather systems created ideal growing conditions, leading to agricultural abundance but also new dependencies on energy infrastructure.

By 2100, Earth had achieved energy abundance, but the fusion revolution had also created new challenges. The " ++ dqs ++ "Global Fusion Energy Council" ++ dqs ++ " was established to manage energy distribution and prevent climate manipulation conflicts. While fusion energy had solved the immediate climate crisis, it had also taught humanity that technological solutions required careful governance and consideration of unintended consequences. The experience demonstrated that energy abundance, while beneficial, also required responsible management to ensure long-term sustainability.".

Definition narrative_fusion_renaissance : string :=
  "In this speculative future, humanity achieved what seemed impossible: commercial fusion energy became a reality. The breakthrough came not from massive government programs, but from a convergence of AI-assisted plasma physics, advanced materials science, and a desperate race against climate catastrophe.

The immediate effects were transformative. Within five years, fusion plants began replacing coal and gas facilities worldwide. Carbon emissions plummeted by 40% by 2030, buying humanity precious time to implement other climate solutions. The energy abundance sparked a new industrial revolution, with desalination plants proliferating along coastlines, turning arid regions into agricultural breadbaskets.

Yet the transition wasn't without its challenges. The fossil fuel industry's collapse created economic upheaval, while energy abundance led to new forms of consumption and waste. By 2100, global temperatures stabilized at 1.8°C above pre-industrial levels—still dangerous, but manageable. The fusion revolution had given humanity a fighting chance, though the deeper lesson was clear: technological breakthroughs alone couldn't solve the complex web of social, economic, and environmental challenges that climate change had woven.".

Definition narrative_decarbonization : string :=
  "The world witnessed an unprecedented mobilization of resources and political will as nations raced to achieve net-zero emissions. What began as ambitious targets in 2024 became reality through a combination of technological innovation, policy reform, and cultural transformation.

Renewable energy infrastructure expanded exponentially, with solar and wind power becoming the dominant energy sources by 2040. Electric vehicles replaced internal combustion engines, while sustainable urban planning created walkable, carbon-neutral cities. The transition required massive investment but created millions of new jobs in green technology sectors.

By 2100, global temperatures had stabilized at 2.2°C above pre-industrial levels—still above the 1.5°C target but far below the worst-case scenarios. The rapid decarbonization had prevented catastrophic climate impacts, though adaptation challenges remained. The experience demonstrated that humanity could achieve remarkable change when motivated by existential threats.".

Definition narrative_geoengineering : string :=
  "As traditional climate mitigation efforts proved insufficient, humanity turned to geoengineering as a last resort. Solar radiation management techniques, including stratospheric aerosol injection, became operational by 2040, creating a controversial but effective method of cooling the planet.

The immediate effects were dramatic—global temperatures began stabilizing within years of deployment. However, the technology brought new challenges: regional climate patterns shifted unpredictably, and the world faced difficult questions about who controlled the global thermostat. International governance frameworks struggled to keep pace with the technology's deployment.

By 2100, temperatures had stabilized at 1.9°C above pre-industrial levels, but the world had learned that geoengineering was a double-edged sword. While it had prevented catastrophic warming, it had also created new dependencies and governance challenges. The experience taught humanity that technological solutions to climate change required careful consideration of unintended consequences.".

Definition narrative_generic : string :=
  "This speculative future envisions a world where humanity successfully navigates the climate crisis through a combination of technological innovation, policy reform, and cultural adaptation. The breakthrough came in 2035 when a consortium of scientists, engineers, and indigenous knowledge keepers developed " ++ dqs ++ "bio-synthetic fusion" ++ dqs ++ " - a revolutionary energy system that combined nuclear fusion with genetically engineered algae that could convert atmospheric CO2 into oxygen while producing clean energy.

The immediate effects were transformative. By 2040, carbon emissions had plummeted by 70%, and the " ++ dqs ++ "Great Carbon Sequestration" ++ dqs ++ " began reversing centuries of atmospheric pollution. However, the rapid deployment of bio-synthetic fusion created unexpected consequences. The genetically modified algae began evolving independently, creating new ecosystems in previously uninhabitable regions. Some areas experienced " ++ dqs ++ "oxygen blooms" ++ dqs ++ " that made the air too rich for traditional agriculture, while others saw the emergence of " ++ dqs ++ "carbon forests" ++ dqs ++ " - dense groves of CO2-absorbing trees that grew at unprecedented rates.

By 2100, global temperatures had stabilized at 2.5°C above pre-industrial levels—still dangerous but manageable. The experience had fundamentally changed how humanity viewed its relationship with the natural world, leading to the emergence of " ++ dqs ++ "eco-cities" ++ dqs ++ " where human settlements were integrated with the new bio-synthetic ecosystems. While the climate crisis had been severe, it had also catalyzed a new era of human-nature symbiosis, though not without the challenges of managing an increasingly complex and interconnected planetary system.".


(** *** The pre-authored records *)

(** The record [createUniqueScenarioFromInput] returns for a hero. *)
Definition unique_hero : json :=
  JObj
    [ ("theme", JStr "A world where Superman's intervention creates both salvation and new challenges, leading to a complex human-superhero society");
      ("alt_forecasts", JObj
        [ ("global_temp_2100", JNum (dec 18 1));
          ("carbon_emissions_2100", JNum (dec 85 1));
          ("sea_level_rise_2100", JNum (dec 85 2));
          ("death_toll_annual", JNum (int 180000));
          ("refugees", JNum (int 12000000));
          ("arable_land_loss_percent", JNum (int 8));
          ("population", JNum (sci 93 1 9));
          ("biodiversity_loss_percent", JNum (int 25));
          ("gdp_loss_percent", JNum (int 4)) ]);
      ("narrative", JStr narrative_hero) ].

(** Its record for time travel. *)
Definition unique_time_travel : json :=
  JObj
    [ ("theme", JStr "A temporal paradox where past interventions reshape the climate timeline, creating both salvation and unforeseen chaos");
      ("alt_forecasts", JObj
        [ ("global_temp_2100", JNum (dec 15 1));
          ("carbon_emissions_2100", JNum (dec 62 1));
          ("sea_level_rise_2100", JNum (dec 72 2));
          ("death_toll_annual", JNum (int 150000));
          ("refugees", JNum (int 8000000));
          ("arable_land_loss_percent", JNum (int 6));
          ("population", JNum (sci 92 1 9));
          ("biodiversity_loss_percent", JNum (int 18));
          ("gdp_loss_percent", JNum (int 2)) ]);
      ("narrative", JStr narrative_time_travel) ].

(** Its record for aliens. *)
Definition unique_alien : json :=
  JObj
    [ ("theme", JStr "An alien intervention that transforms Earth's climate while creating new challenges of dependency and cultural integration");
      ("alt_forecasts", JObj
        [ ("global_temp_2100", JNum (dec 12 1));
          ("carbon_emissions_2100", JNum (dec 48 1));
          ("sea_level_rise_2100", JNum (dec 58 2));
          ("death_toll_annual", JNum (int 120000));
          ("refugees", JNum (int 6000000));
          ("arable_land_loss_percent", JNum (int 4));
          ("population", JNum (sci 98 1 9));
          ("biodiversity_loss_percent", JNum (int 15));
          ("gdp_loss_percent", JNum (int 3)) ]);
      ("narrative", JStr narrative_alien) ].

(** Its record for fusion, nuclear and energy. *)
Definition unique_energy : json :=
  JObj
    [ ("theme", JStr "A fusion energy revolution that transforms global energy systems while creating new environmental and social challenges");
      ("alt_forecasts", JObj
        [ ("global_temp_2100", JNum (dec 19 1));
          ("carbon_emissions_2100", JNum (dec 98 1));
          ("sea_level_rise_2100", JNum (dec 92 2));
          ("death_toll_annual", JNum (int 280000));
          ("refugees", JNum (int 15000000));
          ("arable_land_loss_percent", JNum (int 10));
          ("population", JNum (sci 91 1 9));
          ("biodiversity_loss_percent", JNum (int 28));
          ("gdp_loss_percent", JNum (int 5)) ]);
      ("narrative", JStr narrative_fusion_revolution) ].

(** The record [generateFallbackScenario] returns for fusion and energy. *)
Definition fallback_energy : json :=
  JObj
    [ ("theme", JStr "A fusion-powered renaissance reshaping civilization's energy landscape");
      ("alt_forecasts", JObj
        [ ("global_temp_2100", JNum (dec 18 1));
          ("death_toll_annual", JNum (int 180000));
          ("refugees", JNum (int 12000000));
          ("arable_land_loss_percent", JNum (int 8));
          ("population", JNum (sci 98 1 9));
          ("biodiversity_loss_percent", JNum (int 22));
          ("gdp_loss_percent", JNum (int 3)) ]);
      ("narrative", JStr narrative_fusion_renaissance) ].

(** Its record for net-zero, emissions and carbon. *)
Definition fallback_decarbonization : json :=
  JObj
    [ ("theme", JStr "A rapid decarbonization revolution transforming global infrastructure");
      ("alt_forecasts", JObj
        [ ("global_temp_2100", JNum (dec 22 1));
          ("death_toll_annual", JNum (int 250000));
          ("refugees", JNum (int 15000000));
          ("arable_land_loss_percent", JNum (int 12));
          ("population", JNum (sci 95 1 9));
          ("biodiversity_loss_percent", JNum (int 28));
          ("gdp_loss_percent", JNum (int 5)) ]);
      ("narrative", JStr narrative_decarbonization) ].

(** Its record for geoengineering. *)
Definition fallback_geoengineering : json :=
  JObj
    [ ("theme", JStr "A world where climate engineering becomes mainstream, for better or worse");
      ("alt_forecasts", JObj
        [ ("global_temp_2100", JNum (dec 19 1));
          ("death_toll_annual", JNum (int 200000));
          ("refugees", JNum (int 10000000));
          ("arable_land_loss_percent", JNum (int 10));
          ("population", JNum (sci 93 1 9));
          ("biodiversity_loss_percent", JNum (int 30));
          ("gdp_loss_percent", JNum (int 6)) ]);
      ("narrative", JStr narrative_geoengineering) ].

(** Its record for a hero. *)
Definition fallback_hero : json :=
  JObj
    [ ("theme", JStr "A world where Superman's intervention creates both salvation and new challenges, leading to a complex human-superhero society");
      ("alt_forecasts", JObj
        [ ("global_temp_2100", JNum (dec 18 1));
          ("death_toll_annual", JNum (int 180000));
          ("refugees", JNum (int 12000000));
          ("arable_land_loss_percent", JNum (int 8));
          ("population", JNum (sci 93 1 9));
          ("biodiversity_loss_percent", JNum (int 25));
          ("gdp_loss_percent", JNum (int 4)) ]);
      ("narrative", JStr narrative_hero) ].

(** Its record for time travel. *)
Definition fallback_time_travel : json :=
  JObj
    [ ("theme", JStr "A temporal paradox where past interventions reshape the climate timeline, creating both salvation and unforeseen chaos");
      ("alt_forecasts", JObj
        [ ("global_temp_2100", JNum (dec 15 1));
          ("death_toll_annual", JNum (int 150000));
          ("refugees", JNum (int 8000000));
          ("arable_land_loss_percent", JNum (int 6));
          ("population", JNum (sci 92 1 9));
          ("biodiversity_loss_percent", JNum (int 18));
          ("gdp_loss_percent", JNum (int 2)) ]);
      ("narrative", JStr narrative_time_travel) ].

(** Its generic record, returned when no keyword is found. *)
Definition fallback_generic : json :=
  JObj
    [ ("theme", JStr "A future where human ingenuity and cooperation overcome climate challenges, but not without unexpected consequences and new frontiers");
      ("alt_forecasts", JObj
        [ ("global_temp_2100", JNum (dec 25 1));
          ("death_toll_annual", JNum (int 350000));
          ("refugees", JNum (int 20000000));
          ("arable_land_loss_percent", JNum (int 15));
          ("population", JNum (sci 90 1 9));
          ("biodiversity_loss_percent", JNum (int 35));
          ("gdp_loss_percent", JNum (int 7)) ]);
      ("narrative", JStr narrative_generic) ].

(** *** createUniqueScenarioFromInput *)

Definition no_match_message (userInput : string) : string :=
  "Failed to generate AI scenario for: " ++ dqs ++ userInput ++ dqs ++
  ". The AI system is not working properly. Please try again or contact support.".

Definition createUniqueScenarioFromInput (userInput : string) : outcome json :=
  let inputLower := toLowerCase userInput in
  if includes inputLower "superman" || includes inputLower "hero"
     || includes inputLower "superhero" then
    Return unique_hero
  else if includes inputLower "time travel" || includes inputLower "time machine" then
    Return unique_time_travel
  else if includes inputLower "alien" || includes inputLower "extraterrestrial"
          || includes inputLower "ufo" then
    Return unique_alien
  else if includes inputLower "fusion" || includes inputLower "nuclear"
          || includes inputLower "energy" then
    Return unique_energy
  else
    Throw (no_match_message userInput).

(** *** generateFallbackScenario *)

Definition generateFallbackScenario (userInput : string) : outcome json :=
  let input := toLowerCase userInput in
  if includes input "fusion" || includes input "energy" then
    Return fallback_energy
  else if includes input "net-zero" || includes input "emissions"
          || includes input "carbon" then
    Return fallback_decarbonization
  else if includes input "geoengineering" || includes input "climate engineering" then
    Return fallback_geoengineering
  else if includes input "superman" || includes input "hero"
          || includes input "superhero" then
    Return fallback_hero
  else if includes input "time travel" || includes input "time machine" then
    Return fallback_time_travel
  else
    Return fallback_generic.

End Fallback.

(** ** Values inside a template literal *)

Module Template.
Import Json.

(** Does an object have a member [k] of its own?  Whatever JSON gives a
    member as its value cannot be called. *)
Definition has_own (k : string) (fs : list (string * json)) : bool :=
  match lookup k fs with
  | Some _ => true
  | None => false
  end.

(** The strings of the elements of an array, from the first to the last,
    as [convert] gives them; [null] gives the empty string. *)
Fixpoint elements (convert : json -> outcome string) (l : list json)
  : outcome (list string) :=
  match l with
  | [] => Return []
  | x :: r =>
      let* s := match x with
                | JNull => Return EmptyString
                | _ => convert x
                end in
      let* rest := elements convert r in
      Return (s :: rest)
  end.

(** The string a value turns into inside a template literal.  An array
    joins the strings of its elements with commas, [null] among them giving
    nothing.  An object answers through its method [toString]: the
    inherited one gives ["[object Object]"]; a member of its own in that
    place cannot be called, and the conversion is a [TypeError]. *)
Fixpoint to_string (v : json) : outcome string :=
  match v with
  | JNull => Return "null"
  | JBool true => Return "true"
  | JBool false => Return "false"
  | JNum n => Return (JsonText.num_to_string n)
  | JStr s => Return s
  | JArr l =>
      let* parts := elements to_string l in
      Return (JsonText.join "," parts)
  | JObj fs =>
      if has_own "toString" fs
      then Throw "Cannot convert object to primitive value"
      else Return "[object Object]"
  end.

(** [${v}] *)
Definition interpolate (v : option json) : outcome string :=
  match v with
  | None => Return "undefined"
  | Some j => to_string j
  end.

(** [v.toLocaleString()]; [locale] is what the host prints for a number.
    A string gives itself, a boolean its name; an array joins what the
    call gives on its elements; an object inherits a method that calls
    [toString] on it, unless a member of its own, which cannot be called,
    stands in the place of either. *)
Fixpoint to_locale_string (locale : num -> string) (v : json) : outcome string :=
  match v with
  | JNull => Throw "Cannot read properties of null (reading 'toLocaleString')"
  | JBool true => Return "true"
  | JBool false => Return "false"
  | JNum n => Return (locale n)
  | JStr s => Return s
  | JArr l =>
      let* parts := elements (to_locale_string locale) l in
      Return (JsonText.join "," parts)
  | JObj fs =>
      if has_own "toLocaleString" fs
      then Throw "toLocaleString is not a function"
      else if has_own "toString" fs
      then Throw "this.toString is not a function"
      else Return "[object Object]"
  end.

Definition toLocaleString (locale : num -> string) (v : option json) : outcome string :=
  match v with
  | None => Throw "Cannot read properties of undefined (reading 'toLocaleString')"
  | Some j => to_locale_string locale j
  end.

End Template.

(** ** The scenarios table *)

Module Store.
Import Json.

(** A row of [scenarios].  The four columns the code fills are [TEXT NOT
    NULL]; [created_at] is only ever given a string. *)
Record row : Type := Row {
  id : Z;
  user_input : string;
  theme : string;
  alt_forecasts : string;
  narrative : string;
  created_at : string
}.

(** The table, in insertion order, and the last identifier that
    [AUTOINCREMENT] handed out.  A database file that does not exist yet is
    [empty]: [CREATE TABLE IF NOT EXISTS] makes it so. *)
Record store : Type := Mk { rows : list row; last_id : Z }.

Definition empty : store := Mk [] 0.

(** What is bound to a parameter of a statement. *)
Inductive cell : Type :=
| Null
| Text (s : string).

(** The [NOT NULL] columns refuse SQL [NULL]. *)
Definition not_null (column : string) (c : cell) : outcome string :=
  match c with
  | Null =>
      Throw ("SQLITE_CONSTRAINT: NOT NULL constraint failed: scenarios." ++ column)
  | Text s => Return s
  end.

(** [INSERT INTO scenarios (user_input, theme, alt_forecasts, narrative,
    created_at) VALUES (?, ?, ?, ?, ?)]: the identifier of the new row and
    the new table, or the constraint that failed. *)
Definition insert (userInput theme alt narrative : cell) (createdAt : string)
    (db : store) : outcome (Z * store) :=
  let* u := not_null "user_input" userInput in
  let* t := not_null "theme" theme in
  let* a := not_null "alt_forecasts" alt in
  let* n := not_null "narrative" narrative in
  let i := last_id db + 1 in
  Return (i, Mk (rows db ++ [Row i u t a n createdAt]) i).

(** [SELECT COUNT( * ) FROM scenarios WHERE user_input = ?] *)
Definition count_user_input (s : string) (db : store) : nat :=
  List.length (filter (fun r => String.eqb (user_input r) s) (rows db)).

(** *** database.js *)

Definition narrative_seed : string :=
  "In 2025, humanity achieved what seemed impossible: commercial fusion energy became a reality. The breakthrough came not from massive government programs, but from a convergence of AI-assisted plasma physics, advanced materials science, and a desperate race against climate catastrophe.

The immediate effects were transformative. Within five years, fusion plants began replacing coal and gas facilities worldwide. Carbon emissions plummeted by 40% by 2030, buying humanity precious time to implement other climate solutions. The energy abundance sparked a new industrial revolution, with desalination plants proliferating along coastlines, turning arid regions into agricultural breadbaskets.

Yet the transition wasn't without its challenges. The fossil fuel industry's collapse created economic upheaval, while energy abundance led to new forms of consumption and waste. By 2100, global temperatures stabilized at 1.8°C above pre-industrial levels—still dangerous, but manageable. The fusion revolution had given humanity a fighting chance, though the deeper lesson was clear: technological breakthroughs alone couldn't solve the complex web of social, economic, and environmental challenges that climate change had woven.".


(** [seedScenario.alt_forecasts], before [JSON.stringify]. *)
Definition seed_alt_forecasts : json :=
  JObj
    [ ("global_temp_2100", JNum (dec 18 1));
      ("death_toll_annual", JNum (int 180000));
      ("refugees", JNum (int 12000000));
      ("arable_land_loss_percent", JNum (int 8));
      ("population", JNum (sci 98 1 9));
      ("biodiversity_loss_percent", JNum (int 22));
      ("gdp_loss_percent", JNum (int 3)) ].

Definition seed_theme : string :=
  "A fusion-powered renaissance reshaping civilization's energy landscape".

Definition seed_user_input : string :=
  "What if we master fusion energy before 2025?".

(** [initDatabase]: create the table if needed, then insert the seed
    scenario unless a row with its [user_input] is there already.  The
    count and the insert go through the callbacks of the driver, one after
    the other.  [now] is [CURRENT_TIMESTAMP], the default of
    [created_at]. *)
Definition initDatabase (now : string) (db : store) : store :=
  if (count_user_input seed_user_input db =? 0)%nat then
    let i := last_id db + 1 in
    Mk (rows db ++
          [Row i seed_user_input seed_theme
               (JsonText.stringify seed_alt_forecasts)
               narrative_seed now])
       i
  else db.

(** *** The insert of the server *)

(** The five values [POST /api/scenarios] passes to [stmt.run]. *)
Record insertion : Type := Insertion {
  bound_user_input : option json;
  bound_theme : option json;
  bound_alt_forecasts : option string;
  bound_narrative : option json;
  bound_created_at : string
}.



End Store.

(** ** The server *)

Module Server.
Import Json.

(** *** State and effects of a request *)

(** What the template of [generateScenario] interpolates. *)
Record prompt : Type := Prompt {
  p_userInput : option json;
  p_global_temp : option json;
  p_sea_level_rise : option json;
  p_death_toll_annual : json;
  p_refugees : json;
  p_gdp_loss_percent : option json
}.

(** The database, and the prompts sent to the completion service so far. *)
Record world : Type := World { db : Store.store; calls : list prompt }.

Definition M (A : Type) : Type := world -> outcome A * world.

Definition ret {A : Type} (a : A) : M A := fun w => (Return a, w).
Definition throw {A : Type} (e : string) : M A := fun w => (Throw e, w).
Definition lift {A : Type} (o : outcome A) : M A := fun w => (o, w).

Definition bindM {A B : Type} (m : M A) (k : A -> M B) : M B :=
  fun w =>
    match m w with
    | (Return a, w') => k a w'
    | (Throw e, w') => (Throw e, w')
    end.

Definition catch {A : Type} (m : M A) (handler : string -> M A) : M A :=
  fun w =>
    match m w with
    | (Return a, w') => (Return a, w')
    | (Throw e, w') => handler e w'
    end.

Notation "x <- m ;; k" := (bindM m (fun x => k))
  (at level 61, m at next level, right associativity).

(** The completion service: for a prompt, the text of the first choice, or
    the failure of the call. *)
Definition completion_service : Type := prompt -> outcome string.

(** [await openai.chat.completions.create(...)], then
    [completion.choices[0].message.content] *)
Definition create_completion (openai : completion_service) (p : prompt) : M string :=
  fun w => (openai p, World (db w) (calls w ++ [p])).

(** *** POST /api/scenarios *)

Definition default_baselineData : json :=
  JObj [ ("global_temp", JObj [("current", JNum (dec 11 1)); ("forecast", JArr [])]);
         ("carbon_emissions", JObj [("current", JNum (dec 385 1)); ("forecast", JArr [])]);
         ("sea_level_rise", JObj [("current", JNum (dec 22 2)); ("forecast", JArr [])]);
         ("forest_loss", JObj [("current", JNum (int 15)); ("forecast", JArr [])]) ].

Definition default_humanImpacts : json :=
  JObj [ ("death_toll_annual", JNum (int 500000));
         ("population", JNum (int 8100000000));
         ("arable_land_loss_percent", JNum (int 15));
         ("refugees", JNum (int 25000000));
         ("gdp_loss_percent", JNum (int 8));
         ("biodiversity_loss_percent", JNum (int 30)) ].

(** [v.toLocaleString()] as the prompt keeps it: the value, once the call
    has returned.  The text depends on the locale of the host; whether the
    call returns does not. *)
Definition toLocaleString_of (v : option json) : outcome json :=
  match v with
  | None => Throw "Cannot read properties of undefined (reading 'toLocaleString')"
  | Some j =>
      let* _ := Template.to_locale_string JsonText.num_to_string j in
      Return j
  end.

(** The template literal of [generateScenario]: the fixed text is left out;
    the interpolated values are read and turned into strings in the order
    of the template, and the first failure ends the evaluation.  The
    template quotes [userInput] two more times further down, where the
    conversion succeeds as it did the first time. *)
Definition build_prompt (userInput baselineData humanImpacts : option json)
  : outcome prompt :=
  let* _ := Template.interpolate userInput in
  let* gt := get baselineData "global_temp" in
  let* gtc := get gt "current" in
  let* _ := Template.interpolate gtc in
  let* sl := get baselineData "sea_level_rise" in
  let* slc := get sl "current" in
  let* _ := Template.interpolate slc in
  let* dt := get humanImpacts "death_toll_annual" in
  let* dts := toLocaleString_of dt in
  let* rf := get humanImpacts "refugees" in
  let* rfs := toLocaleString_of rf in
  let* gdp := get humanImpacts "gdp_loss_percent" in
  let* _ := Template.interpolate gdp in
  Return (Prompt userInput gtc slc dts rfs gdp).

(** The inner [try] of [generateScenario]: the text of the completion is
    trimmed and decoded, directly first, then through the brace pattern. *)
Definition parse_completion (content : string) : outcome json :=
  let response := Str.trim content in
  match JsonText.parse response with
  | Some parsed => Return parsed
  | None =>
      match Str.match_braces response with
      | Some jsonMatch =>
          match JsonText.parse jsonMatch with
          | Some extracted => Return extracted
          | None =>
              Throw ("AI generated invalid JSON. Response: "
                       ++ Str.prefix_of 200 response ++ "...")
          end
      | None =>
          Throw ("AI did not generate valid JSON. Response: "
                   ++ Str.prefix_of 200 response ++ "...")
      end
  end.

Definition generateScenario (openai : completion_service)
    (userInput baselineData humanImpacts : option json) : M json :=
  p <- lift (build_prompt userInput baselineData humanImpacts) ;;
  catch
    (content <- create_completion openai p ;;
     lift (parse_completion content))
    (fun message => throw ("OpenAI API error: " ++ message)).

Record response : Type := Response { status : Z; body : json }.

(** *** What the driver returns

    The [sqlite3] module that [database.js] loads hands rows, [lastID] and
    errors to a callback.  [stmt.run], [stmt.get] and [stmt.all] start the
    statement and return the Statement itself at once; the three handlers
    below pass no callback and go on with what is returned: an object that
    is no array and has no member [lastID] or [alt_forecasts]. *)
Definition statement : json := JObj [].

(** [Array.isArray(v)] *)
Definition isArray (v : json) : bool :=
  match v with
  | JArr _ => true
  | _ => false
  end.

(** [JSON.parse(v)]: the argument is turned into a string first. *)
Definition JSON_parse (v : option json) : outcome json :=
  let* text := Template.interpolate v in
  match JsonText.parse text with
  | Some parsed => Return parsed
  | None => Throw (text ++ " is not valid JSON")
  end.

(** *** The answer of POST /api/scenarios *)

(** The key of an index. *)
Definition index_key (i : nat) : string := JsonText.digits_of (Z.of_nat i).

Fixpoint indexed (i : nat) (l : list json) : list (string * json) :=
  match l with
  | [] => []
  | x :: r => (index_key i, x) :: indexed (S i) r
  end.

(** The own properties that [{...v}] copies: the members of an object, the
    elements of an array and the code units of a string under their
    indices, nothing of any other value. *)
Definition own_fields (v : json) : list (string * json) :=
  match v with
  | JObj fs => fs
  | JArr l => indexed 0 l
  | JStr s => indexed 0 (map JStr (Str.units s))
  | _ => []
  end.

(** An object literal while it is built: a member may hold [undefined].
    A write to a key already present replaces its value in place. *)
Fixpoint assign (k : string) (v : option json) (fs : list (string * option json))
  : list (string * option json) :=
  match fs with
  | [] => [(k, v)]
  | (k', v') :: r =>
      if String.eqb k' k then (k, v) :: r else (k', v') :: assign k v r
  end.

Definition spread (fs : list (string * json)) (into : list (string * option json))
  : list (string * option json) :=
  fold_left (fun acc kv => assign (fst kv) (Some (snd kv)) acc) fs into.

(** [res.json(object)]: a member whose value is [undefined] is left out
    of the JSON sent. *)
Fixpoint sent (fs : list (string * option json)) : list (string * json) :=
  match fs with
  | [] => []
  | (k, Some v) :: r => (k, v) :: sent r
  | (_, None) :: r => sent r
  end.

(** The arguments the handler passes to [generateScenario]: the user input
    as received, and the overrides or the defaults in their place. *)
Definition generation_arguments (reqBody : json)
  : outcome (option json * option json * option json) :=
  let* userInput := get (Some reqBody) "userInput" in
  let* baseline := get (Some reqBody) "baselineData" in
  let* impacts := get (Some reqBody) "humanImpacts" in
  Return (userInput,
          or_else baseline default_baselineData,
          or_else impacts default_humanImpacts).

(** [app.post('/api/scenarios', ...)]; [now] is [new Date().toISOString()].
    With the answer comes the insert the handler has passed to [stmt.run],
    if it got that far: the driver runs it after the handler is done, and
    [result], the Statement, has no [lastID] when the answer is built. *)
Definition create_scenario (openai : completion_service) (now : string)
    (reqBody : json) : M (response * option Store.insertion) :=
  catch
    (args <- lift (generation_arguments reqBody) ;;
     let '(userInput, baselineData, humanImpacts) := args in
     aiResponse <- generateScenario openai userInput baselineData humanImpacts ;;
     theme <- lift (get (Some aiResponse) "theme") ;;
     alt <- lift (get (Some aiResponse) "alt_forecasts") ;;
     narrative <- lift (get (Some aiResponse) "narrative") ;;
     let result := statement in
     lastID <- lift (get (Some result) "lastID") ;;
     ret (Response 200
            (JObj (sent (assign "userInput" userInput
                           (spread (own_fields aiResponse) [("id", lastID)])))),
          Some (Store.Insertion userInput theme (JsonText.stringify_opt alt)
                  narrative now)))
    (fun _ =>
       ret (Response 500 (JObj [("error", JStr "Failed to create scenario")]),
            None)).

(** The answer of the handler. *)
Definition post_scenarios (openai : completion_service) (now : string)
    (reqBody : json) : M response :=
  answered <- create_scenario openai now reqBody ;;
  ret (fst answered).

(** *** GET /api/scenarios *)

Definition get_scenarios : M response :=
  fun w =>
    let scenarios := statement in
    if negb (truthy (Some scenarios)) || negb (isArray scenarios)
    then (Return (Response 200 (JArr [])), w)
    else (Return (Response 200 scenarios), w).

(** *** GET /api/scenarios/:id *)

(** [id] is [req.params.id].  The handler has no [try]: what it throws is
    left to the framework, which answers 500. *)
Definition get_scenario (id : string) : M response :=
  fun w =>
    let scenario := statement in
    if truthy (Some scenario) then
      match (let* text := get (Some scenario) "alt_forecasts" in JSON_parse text) with
      | Return forecasts =>
          (Return (Response 200
                     (JObj (set_field "alt_forecasts" forecasts
                              (own_fields scenario)))), w)
      | Throw e => (Throw e, w)
      end
    else
      (Return (Response 404 (JObj [("error", JStr "Scenario not found")])), w).

End Server.

(** ** The client: Dashboard.tsx *)

Module Client.
Import Json.

(** *** Sending a scenario request *)

(** The state of [WhatIfMode] that [generateScenario] reads. *)
Record state : Type := State {
  userInput : string;
  climateData : option json;
  humanImpacts : option json
}.

(** The client's [generateScenario]: the body it posts to [/api/scenarios],
    or [None] when it returns before any request. *)
Definition generateScenario (st : state) : option json :=
  match climateData st, humanImpacts st with
  | Some c, Some h =>
      if String.eqb (Str.trim (userInput st)) EmptyString then None
      else Some (JObj [ ("userInput", JStr (userInput st));
                        ("baselineData", c);
                        ("humanImpacts", h) ])
  | _, _ => None
  end.

(** *** generateSpeculativeForecast *)

Local Open Scope Q_scope.

Record point : Type := Point { year : Z; value : Q }.

Record series : Type := Series { current : Q; forecast : list point }.

Record climate : Type := Climate {
  global_temp : series;
  carbon_emissions : series;
  sea_level_rise : series
}.

(** The fields of [scenario.alt_forecasts] the forecast reads; [None] is a
    field the record does not have. *)
Record targets : Type := Targets {
  global_temp_2100 : option Q;
  carbon_emissions_2100 : option Q;
  sea_level_rise_2100 : option Q
}.

(** A number of the computation: [None] is [NaN]. *)
Definition number : Type := option Q.

Record sample : Type := Sample {
  s_year : Z;
  baseline : Q;
  speculative : number
}.

Definition lift2 (f : Q -> Q -> Q) (a b : number) : number :=
  match a, b with
  | Some x, Some y => Some (f x y)
  | _, _ => None
  end.

Definition add : number -> number -> number := lift2 Qplus.
Definition sub : number -> number -> number := lift2 Qminus.
Definition mul : number -> number -> number := lift2 Qmult.

(** [Math.max(a, b)]; an [undefined] argument gives [NaN]. *)
Definition math_max : number -> number -> number := lift2 Qmax.
Definition math_min : number -> number -> number := lift2 Qmin.

(** [a < b], false when [a] is [undefined]. *)
Definition less_than (a : option Q) (b : Q) : bool :=
  match a with
  | Some x => negb (Qle_bool b x)
  | None => false
  end.

Definition endYear : Z := 2100.

(** [for (let year = currentYear; year <= endYear; year += 10)] *)
Fixpoint years_from (fuel : nat) (y : Z) : list Z :=
  match fuel with
  | O => []
  | S f => if (y <=? endYear)%Z then y :: years_from f (y + 10)%Z else []
  end.

Definition years (currentYear : Z) : list Z :=
  years_from (S (Z.to_nat (endYear - currentYear))) currentYear.

(** [(year - currentYear) / (endYear - currentYear)].  The years of the loop
    lie between [currentYear] and [endYear], so the divisor is zero only
    when the dividend is: the quotient is then [NaN]. *)
Definition progress_of (y currentYear : Z) : number :=
  if (endYear - currentYear =? 0)%Z then None
  else Some (inject_Z (y - currentYear) / inject_Z (endYear - currentYear)).

(** [forecast[index]?.value || current] *)
Definition baseline_at (s : series) (index : nat) : Q :=
  match nth_error (forecast s) index with
  | Some p => if Qeq_bool (value p) 0 then current s else value p
  | None => current s
  end.

(** [years.map((year, index) => ...)] *)
Fixpoint mapi_from {A B : Type} (f : A -> nat -> B) (i : nat) (l : list A) : list B :=
  match l with
  | [] => []
  | x :: r => f x i :: mapi_from f (S i) r
  end.

Definition mapi {A B : Type} (f : A -> nat -> B) (l : list A) : list B :=
  mapi_from f 0 l.

(** The element of [tempForecast] for [year] at [index]; [draw] is the value
    [Math.random()] returns there. *)
Definition temp_sample (data : climate) (alt : targets) (currentYear : Z)
    (draw : Q) (y : Z) (index : nat) : sample :=
  let baselineTemp := baseline_at (global_temp data) index in
  let progress := progress_of y currentYear in
  let targetTemp := global_temp_2100 alt in
  let currentTemp := current (global_temp data) in
  let committedWarming := 15 # 10 in
  let minPossibleTemp := currentTemp + committedWarming in
  let constrainedTargetTemp := math_max targetTemp (Some minPossibleTemp) in
  let tippingPointEffect := draw * (3 # 10) in
  let speculativeTemp :=
    add (add (Some currentTemp)
             (mul (sub constrainedTargetTemp (Some currentTemp)) progress))
        (Some tippingPointEffect) in
  Sample y baselineTemp speculativeTemp.

(** The element of [emissionsForecast] for [year] at [index]. *)
Definition emissions_sample (data : climate) (alt : targets) (currentYear : Z)
    (y : Z) (index : nat) : sample :=
  let baselineEmissions := baseline_at (carbon_emissions data) index in
  let progress := progress_of y currentYear in
  let currentEmissions := current (carbon_emissions data) in
  let aiTargetEmissions := carbon_emissions_2100 alt in
  match aiTargetEmissions with
  | Some target =>
      let speculativeEmissions :=
        add (Some currentEmissions)
            (mul (Some (target - currentEmissions)) progress) in
      Sample y baselineEmissions speculativeEmissions
  | None =>
      let minEmissions := currentEmissions * (15 # 100) in
      let targetEmissions :=
        Qmax (if less_than (global_temp_2100 alt) 2
              then minEmissions else minEmissions * 2)
             minEmissions in
      let deploymentDelay := Qmax 0 (inject_Z (y - currentYear) / 20) in
      let speculativeEmissions :=
        add (Some currentEmissions)
            (mul (Some (targetEmissions - currentEmissions))
                 (math_min (add progress (Some deploymentDelay)) (Some 1))) in
      Sample y baselineEmissions speculativeEmissions
  end.

(** The element of [seaLevelForecast] for [year] at [index]. *)
Definition sea_level_sample (data : climate) (alt : targets) (currentYear : Z)
    (draw : Q) (y : Z) (index : nat) : sample :=
  let baselineSeaLevel := baseline_at (sea_level_rise data) index in
  let progress := progress_of y currentYear in
  let currentSeaLevel := current (sea_level_rise data) in
  let aiTargetSeaLevel := sea_level_rise_2100 alt in
  match aiTargetSeaLevel with
  | Some target =>
      let speculativeRise :=
        add (Some currentSeaLevel)
            (mul (Some (target - currentSeaLevel)) progress) in
      Sample y baselineSeaLevel speculativeRise
  | None =>
      let committedRise := 3 # 10 in
      let minPossibleRise := currentSeaLevel + committedRise in
      let constrainedTargetRise :=
        Qmax (if less_than (global_temp_2100 alt) 2
              then minPossibleRise * (12 # 10) else minPossibleRise * (18 # 10))
             minPossibleRise in
      let iceSheetEffect := draw * (1 # 10) in
      let speculativeRise :=
        add (add (Some currentSeaLevel)
                 (mul (Some (constrainedTargetRise - currentSeaLevel)) progress))
            (Some iceSheetEffect) in
      Sample y baselineSeaLevel speculativeRise
  end.

Record speculative_forecast : Type := Forecast {
  temperature : list sample;
  emissions : list sample;
  seaLevel : list sample
}.

(** [generateSpeculativeForecast(baselineData, scenario)].  [currentYear] is
    [new Date().getFullYear()]; [random n] is what the [n]-th call of
    [Math.random()] returns, the temperature samples drawing first and the
    sea-level samples after them. *)
Definition generateSpeculativeForecast (currentYear : Z) (random : nat -> Q)
    (baselineData : option climate) (scenario : option targets)
  : option speculative_forecast :=
  match scenario, baselineData with
  | Some alt, Some data =>
      let ys := years currentYear in
      let tempForecast :=
        mapi (fun y index => temp_sample data alt currentYear (random index) y index) ys in
      let emissionsForecast :=
        mapi (fun y index => emissions_sample data alt currentYear y index) ys in
      let seaLevelForecast :=
        mapi (fun y index =>
                sea_level_sample data alt currentYear
                  (random (List.length ys + index)%nat) y index) ys in
      Some (Forecast tempForecast emissionsForecast seaLevelForecast)
  | _, _ => None
  end.

End Client.

(** ** Notions used in the statements *)

Module Spec.
Import Json.
Import Str.

(** *** Parsing *)

(** [m] is the part of [s] from its first opening brace to its last closing
    brace. *)
Definition brace_span (s m : string) : Prop :=
  exists pre mid post,
    s = pre ++ String "{" (mid ++ String "}" post)
    /\ m = String "{" (mid ++ String "}" EmptyString)
    /\ mem "{" pre = false /\ mem "}" post = false.

(** A value that [JSON.parse] reads back from its own [JSON.stringify]. *)
Definition round_trips (r : json) : Prop :=
  JsonText.parse (JsonText.stringify r) = Some r.

Fixpoint all_digits (s : string) : bool :=
  match s with
  | EmptyString => true
  | String c r => JsonText.is_digit c && all_digits r
  end.

(** What may follow a number: nothing, or a character that does not
    continue it. *)
Definition ends_number (rest : string) : bool :=
  match rest with
  | EmptyString => true
  | String c _ =>
      negb (JsonText.is_digit c || Ascii.eqb c "." || Ascii.eqb c "e"
            || Ascii.eqb c "E")
  end.

Definition not_digit_start (s : string) : Prop :=
  match s with
  | EmptyString => True
  | String c _ => JsonText.is_digit c = false
  end.

(** What may follow a value inside an array or an object, or at the end. *)
Definition ends_value (rest : string) : bool :=
  match rest with
  | EmptyString => true
  | String c _ => Ascii.eqb c "," || Ascii.eqb c "]" || Ascii.eqb c "}"
  end.

(** The text of a member of an object. *)
Definition member_text (kv : string * json) : string :=
  JsonText.quote (fst kv) ++ ":" ++ JsonText.stringify (snd kv).

(** A decimal in canonical form. *)
Definition canonical_num (x : num) : bool :=
  num_eqb (norm (mant x) (expo x)) x.

(** A value in canonical form: its numbers are canonical and no object has
    two members with the same key. *)
Fixpoint distinct (keys : list string) : bool :=
  match keys with
  | [] => true
  | k :: r => negb (existsb (String.eqb k) r) && distinct r
  end.

Fixpoint canonical (v : json) : bool :=
  match v with
  | JNum n => canonical_num n
  | JArr l => forallb canonical l
  | JObj fs =>
      distinct (map fst fs) && forallb (fun kv => canonical (snd kv)) fs
  | _ => true
  end.

(** The fuel that reading [v] back uses at most. *)
Fixpoint cost (v : json) : nat :=
  match v with
  | JArr l => S (fold_right (fun x n => S (cost x + n)) O l)
  | JObj fs => S (fold_right (fun kv n => S (cost (snd kv) + n)) O fs)
  | _ => 1
  end.

(** With fuel for its cost, [v] is read back from its text, whatever
    follows that may follow a value. *)
Definition reads_back (v : json) : Prop :=
  forall (fuel : nat) (rest : string),
    (cost v <= fuel)%nat ->
    ends_value rest = true ->
    JsonText.parse_value fuel (JsonText.stringify v ++ rest) = Some (v, rest).

(** The fuel the elements of an array and the members of an object use. *)
Definition elements_cost (l : list json) : nat :=
  fold_right (fun x n => S (cost x + n)) O l.

Definition members_cost (fs : list (string * json)) : nat :=
  fold_right (fun kv n => S (cost (snd kv) + n)) O fs.

(** *** The parser in the words of the specification *)

(** What follows an opening brace, up to the brace that closes it: [depth]
    counts the braces opened since and not yet closed. *)
Fixpoint closing (depth : nat) (s : string) : option string :=
  match s with
  | EmptyString => None
  | String c r =>
      if Ascii.eqb c "{" then option_map (String c) (closing (S depth) r)
      else if Ascii.eqb c "}" then
        match depth with
        | O => Some (String c EmptyString)
        | S d => option_map (String c) (closing d r)
        end
      else option_map (String c) (closing depth r)
  end.

(** "The first substring bounded by the outermost matching brace pair":
    from the first opening brace to the brace that closes it. *)
Definition first_bounded (s : string) : option string :=
  match from_first "{" s with
  | Some (String o r) => option_map (String o) (closing 0 r)
  | _ => None
  end.

(** The three phases as the specification has them: the trimmed text as a
    whole, then the first bounded substring alone, then the failure. *)
Definition specified_parse (content : string) : option json :=
  let response := trim content in
  match JsonText.parse response with
  | Some parsed => Some parsed
  | None =>
      match first_bounded response with
      | Some bounded => JsonText.parse bounded
      | None => None
      end
  end.

(** *** Keyword classes as ordered tables *)

(** The first entry of [table], in its order, one of whose keywords occurs
    in [input]. *)
Definition first_match (table : list (list string * json)) (input : string)
  : option json :=
  option_map snd (find (fun entry => existsb (includes input) (fst entry)) table).

Definition fallback_classes : list (list string * json) :=
  [ (["fusion"; "energy"], Fallback.fallback_energy);
    (["net-zero"; "emissions"; "carbon"], Fallback.fallback_decarbonization);
    (["geoengineering"; "climate engineering"], Fallback.fallback_geoengineering);
    (["superman"; "hero"; "superhero"], Fallback.fallback_hero);
    (["time travel"; "time machine"], Fallback.fallback_time_travel) ].

Definition unique_classes : list (list string * json) :=
  [ (["superman"; "hero"; "superhero"], Fallback.unique_hero);
    (["time travel"; "time machine"], Fallback.unique_time_travel);
    (["alien"; "extraterrestrial"; "ufo"], Fallback.unique_alien);
    (["fusion"; "nuclear"; "energy"], Fallback.unique_energy) ].

(** Every keyword of either generator. *)
Definition all_keywords : list string :=
  flat_map fst fallback_classes ++ flat_map fst unique_classes.

Definition matches_no_class (userInput : string) : bool :=
  negb (existsb (includes (toLowerCase userInput)) all_keywords).

(** *** Shape of a baseline *)

Definition is_number (v : option json) : bool :=
  match v with
  | Some (JNum _) => true
  | _ => false
  end.

Definition point_shaped (p : json) : bool :=
  match p with
  | JObj fs => is_number (lookup "year" fs) && is_number (lookup "value" fs)
  | _ => false
  end.

(** [{ current: number, forecast: [{year, value}, ...] }] *)
Definition series_shaped (v : option json) : bool :=
  match v with
  | Some (JObj fs) =>
      is_number (lookup "current" fs)
      && match lookup "forecast" fs with
         | Some (JArr l) => forallb point_shaped l
         | _ => false
         end
  | _ => false
  end.

(** All four indicator series are there, each of the shape above. *)
Definition baseline_shaped (v : option json) : bool :=
  match v with
  | Some (JObj fs) =>
      series_shaped (lookup "global_temp" fs)
      && series_shaped (lookup "carbon_emissions" fs)
      && series_shaped (lookup "sea_level_rise" fs)
      && series_shaped (lookup "forest_loss" fs)
  | _ => false
  end.

(** *** Requests and stores *)


(** The prompt built from the defaults of the handler. *)
Definition default_prompt (userInput : option json) : Server.prompt :=
  Server.Prompt userInput (Some (JNum (dec 11 1))) (Some (JNum (dec 22 2)))
                (JNum (int 500000)) (JNum (int 25000000)) (Some (JNum (int 8))).

Definition failure_response : Server.response :=
  Server.Response 500 (JObj [("error", JStr "Failed to create scenario")]).

(** The row [initDatabase] inserts. *)
Definition seed_row (i : Z) (now : string) : Store.row :=
  Store.Row i Store.seed_user_input Store.seed_theme
            (JsonText.stringify Store.seed_alt_forecasts)
            Store.narrative_seed now.

(** A row that carries the seed's input and whose stored forecasts decode to
    an object with [global_temp_2100] equal to 1.8. *)
Definition is_seed (r : Store.row) : Prop :=
  Store.user_input r = Store.seed_user_input
  /\ exists v, JsonText.parse (Store.alt_forecasts r) = Some v
               /\ get (Some v) "global_temp_2100" = Return (Some (JNum (dec 18 1))).

(** What happens to the table: initialisation at start, and an insert that
    the driver has run to its end. *)
Inductive step : Store.store -> Store.store -> Prop :=
| step_init (now : string) (db : Store.store) :
    step db (Store.initDatabase now db)
| step_insert (u t a n : Store.cell) (c : string) (db db' : Store.store) (i : Z) :
    Store.insert u t a n c db = Return (i, db') -> step db db'.

(** The stores of a deployment: the server starts on a file that does not
    exist, and every later state comes from a step. *)
Inductive reachable : Store.store -> Prop :=
| reachable_start (now : string) :
    reachable (Store.initDatabase now Store.empty)
| reachable_step (db db' : Store.store) :
    reachable db -> step db db' -> reachable db'.

End Spec.

(** ** Inputs of the examples *)

Module Examples.
Import Json.
Import Str.

Definition fusion_input : string := "What if we master fusion energy before 2025?".

Definition fusion_request : json := JObj [("userInput", JStr fusion_input)].



(** Human impacts whose count of refugees is an object with a member
    [toLocaleString], and a request that carries them. *)
Definition unprintable_refugees : json :=
  JObj [ ("death_toll_annual", JNum (int 500000));
         ("refugees", JObj [("toLocaleString", JStr "25,000,000")]);
         ("gdp_loss_percent", JNum (int 8)) ].

Definition unprintable_refugees_request : json :=
  JObj [("userInput", JStr fusion_input); ("humanImpacts", unprintable_refugees)].

(** An input of white space only: two spaces around a no-break space. *)
Definition blank_input : string :=
  " " ++ String (ascii_of_nat 194) (String (ascii_of_nat 160) " ").

(** A completion that answers with two objects. *)
Definition two_objects : string :=
  "Note: {" ++ dqs ++ "a" ++ dqs ++ ":1} and {" ++ dqs ++ "b" ++ dqs ++ ":2}.".

(** A completion in prose, of more than 200 code units, and its first 200:
    three of its characters take more than one byte, so that the cut
    falls after 204 bytes. *)
Definition rambling : string :=
  "Désolé — I can only describe this scenario in prose today. Imagine a coast where every harbour has been rebuilt on stilts, where the ferries run on tides, and where the old motorways have become orchards. None of it fits into a record, so I will not try.".

Definition rambling_200 : string :=
  "Désolé — I can only describe this scenario in prose today. Imagine a coast where every harbour has been rebuilt on stilts, where the ferries run on tides, and where the old motorways have become orcha".

(** A completion of the shape the prompt asks for. *)
Definition plain_completion : string :=
  "{" ++ dqs ++ "theme" ++ dqs ++ ": " ++ dqs ++ "Cities afloat" ++ dqs ++ ", "
      ++ dqs ++ "alt_forecasts" ++ dqs ++ ": {" ++ dqs ++ "global_temp_2100" ++ dqs
      ++ ": 2.1}, " ++ dqs ++ "narrative" ++ dqs ++ ": " ++ dqs ++ "The sea rose."
      ++ dqs ++ "}".

(** A baseline override that has one series only. *)
Definition partial_baseline : json :=
  JObj [("global_temp", JObj [("current", JNum (dec 11 1)); ("forecast", JArr [])])].

Definition partial_baseline_request : json :=
  JObj [("userInput", JStr fusion_input); ("baselineData", partial_baseline)].

Definition unavailable : Server.completion_service :=
  fun _ => Throw "connect ECONNREFUSED".

Definition answers (text : string) : Server.completion_service :=
  fun _ => Return text.

Definition fresh_world : Server.world :=
  Server.World (Store.initDatabase "2025-01-01 00:00:00" Store.empty) [].

(** What the handler passes to the driver for [fusion_request] when the
    completion is [plain_completion]. *)
Definition fusion_insertion : Store.insertion :=
  Store.Insertion (Some (JStr fusion_input)) (Some (JStr "Cities afloat"))
    (Some (JsonText.stringify (JObj [("global_temp_2100", JNum (dec 21 1))])))
    (Some (JStr "The sea rose.")) "2025-06-01T12:00:00.000Z".

(** A table whose one row is the scenario of a user, the seventh row the
    table has had. *)
Definition table_of_a_user : Store.store :=
  Store.Mk [Store.Row 7 "What if cities float?" "Cities afloat"
                      (JsonText.stringify (JObj [("global_temp_2100", JNum (dec 21 1))]))
                      "The sea rose." "2025-02-01T09:30:00.000Z"] 7.

(** The baseline the server serves for the three charted indicators. *)
Definition served_climate : Client.climate :=
  Client.Climate
    (Client.Series (11 # 10)
       [ Client.Point 2024 (11 # 10); Client.Point 2030 (13 # 10);
         Client.Point 2040 (16 # 10); Client.Point 2050 (20 # 10);
         Client.Point 2060 (24 # 10); Client.Point 2070 (28 # 10);
         Client.Point 2080 (32 # 10); Client.Point 2090 (35 # 10);
         Client.Point 2100 (38 # 10) ])
    (Client.Series (368 # 10)
       [ Client.Point 2024 (368 # 10); Client.Point 2030 (382 # 10);
         Client.Point 2040 (395 # 10); Client.Point 2050 (401 # 10);
         Client.Point 2060 (398 # 10); Client.Point 2070 (385 # 10);
         Client.Point 2080 (362 # 10); Client.Point 2090 (331 # 10);
         Client.Point 2100 (295 # 10) ])
    (Client.Series (22 # 100)
       [ Client.Point 2024 (22 # 100); Client.Point 2030 (28 # 100);
         Client.Point 2040 (38 # 100); Client.Point 2050 (52 # 100);
         Client.Point 2060 (71 # 100); Client.Point 2070 (95 # 100);
         Client.Point 2080 (124 # 100); Client.Point 2090 (158 # 100);
         Client.Point 2100 (195 # 100) ]).

(** Targets with all three endpoint fields, and targets with the
    temperature only. *)
Definition full_targets : Client.targets :=
  Client.Targets (Some (18 # 10)) (Some (85 # 10)) (Some (85 # 100)).


(** A source of random numbers that always draws one half. *)
Definition one_half : nat -> Q := fun _ => 1 # 2.

End Examples.

(** ** The baseline endpoints and the narrative route *)

Module Api.
Import Json.
Import Template.

(** *** The baseline the server serves *)

Definition points (l : list (Z * num)) : json :=
  JArr (map (fun p => JObj [("year", JNum (int (fst p))); ("value", JNum (snd p))]) l).

Definition baselineData : json :=
  JObj
    [ ("global_temp",
       JObj [ ("current", JNum (dec 11 1));
              ("forecast",
               points [ (2024, dec 11 1); (2030, dec 13 1); (2040, dec 16 1);
                        (2050, dec 20 1); (2060, dec 24 1); (2070, dec 28 1);
                        (2080, dec 32 1); (2090, dec 35 1); (2100, dec 38 1) ]) ]);
      ("carbon_emissions",
       JObj [ ("current", JNum (dec 368 1));
              ("forecast",
               points [ (2024, dec 368 1); (2030, dec 382 1); (2040, dec 395 1);
                        (2050, dec 401 1); (2060, dec 398 1); (2070, dec 385 1);
                        (2080, dec 362 1); (2090, dec 331 1); (2100, dec 295 1) ]) ]);
      ("sea_level_rise",
       JObj [ ("current", JNum (dec 22 2));
              ("forecast",
               points [ (2024, dec 22 2); (2030, dec 28 2); (2040, dec 38 2);
                        (2050, dec 52 2); (2060, dec 71 2); (2070, dec 95 2);
                        (2080, dec 124 2); (2090, dec 158 2); (2100, dec 195 2) ]) ]);
      ("forest_loss",
       JObj [ ("current", JNum (dec 101 1));
              ("forecast",
               points [ (2024, dec 101 1); (2030, dec 123 1); (2040, dec 151 1);
                        (2050, dec 182 1); (2060, dec 208 1); (2070, dec 225 1);
                        (2080, dec 238 1); (2090, dec 245 1); (2100, dec 250 1) ]) ]) ].

Definition humanImpacts : json :=
  JObj [ ("death_toll_annual", JNum (int 500000));
         ("population", JNum (sci 81 1 9));
         ("arable_land_loss_percent", JNum (int 15));
         ("refugees", JNum (int 25000000));
         ("gdp_loss_percent", JNum (int 8));
         ("biodiversity_loss_percent", JNum (int 35));
         ("conflict_index", JNum (dec 7 1)) ].

(** [app.get('/api/climate/baseline')] and [app.get('/api/impacts/baseline')] *)
Definition get_climate_baseline : Server.response := Server.Response 200 baselineData.
Definition get_impacts_baseline : Server.response := Server.Response 200 humanImpacts.

(** *** The four templates *)

Definition question_prompt_text (q gtc slc dts rfs gdp : string) : string :=
  "Answer this question about climate data: " ++ Str.dqs ++ q ++ Str.dqs ++ "
      
      Use this data: Global temperature: " ++ gtc ++ "°C above pre-industrial, 
      Sea level rise: " ++ slc ++ "m, 
      Annual climate deaths: " ++ dts ++ ", 
      Climate refugees: " ++ rfs ++ ", 
      GDP at risk: " ++ gdp ++ "%. 
      
      Provide a thoughtful, data-informed response in 2-3 paragraphs.".

Definition bulletin_prompt_text (gtc slc dts rfs gdp : string) : string :=
  "Generate a climate bulletin summarizing current climate status and human impacts. 
      Use this data: Global temperature: " ++ gtc ++ "°C above pre-industrial, 
      Sea level rise: " ++ slc ++ "m, 
      Annual climate deaths: " ++ dts ++ ", 
      Climate refugees: " ++ rfs ++ ", 
      GDP at risk: " ++ gdp ++ "%. 
      Write 2-3 paragraphs in a professional but engaging tone.".

Definition question_fallback_text (q gtc slc dts rfs : string) : string :=
  "Based on current climate data, here's what I can tell you about " ++ Str.dqs ++ q ++ Str.dqs ++ ":

The question you've asked is complex and requires careful analysis of multiple climate indicators. Current data shows global temperatures at " ++ gtc ++ "°C above pre-industrial levels, with sea levels rising by " ++ slc ++ "m. These changes are contributing to the " ++ dts ++ " annual climate-related deaths and " ++ rfs ++ " climate refugees we're seeing today.

For a more detailed analysis, I'd recommend consulting the specific data visualizations in the Dashboard and Human Futures tabs, or asking a more specific question about particular climate indicators.".

Definition bulletin_fallback_text (today gtc slc dts rfs gdp : string) : string :=
  "Climate Bulletin - " ++ today ++ "

The Earth's climate system continues to show concerning trends. Global temperatures have risen to " ++ gtc ++ "°C above pre-industrial levels, with sea levels rising by " ++ slc ++ "m since 1900. These changes are already having profound human impacts, with " ++ dts ++ " annual deaths attributed to climate-related causes and " ++ rfs ++ " people displaced as climate refugees.

The economic toll is equally stark, with " ++ gdp ++ "% of global GDP at risk from climate change. Projections suggest these impacts will intensify through 2100, requiring immediate and coordinated global action to mitigate the worst outcomes.".


(** *** POST /api/narrative/generate *)

(** The prompt of the question branch: the values it quotes are read and
    turned into strings in the order of the template, and the first
    failure ends the evaluation. *)
Definition question_prompt (locale : num -> string) (question : option json)
    (baselineData humanImpacts : option json) : outcome string :=
  let* q := interpolate question in
  let* gt := get baselineData "global_temp" in
  let* gtc := get gt "current" in
  let* gtcs := interpolate gtc in
  let* sl := get baselineData "sea_level_rise" in
  let* slc := get sl "current" in
  let* slcs := interpolate slc in
  let* dt := get humanImpacts "death_toll_annual" in
  let* dts := toLocaleString locale dt in
  let* rf := get humanImpacts "refugees" in
  let* rfs := toLocaleString locale rf in
  let* gdp := get humanImpacts "gdp_loss_percent" in
  let* gdps := interpolate gdp in
  Return (question_prompt_text q gtcs slcs dts rfs gdps).

(** The prompt of the bulletin branch. *)
Definition bulletin_prompt (locale : num -> string)
    (baselineData humanImpacts : option json) : outcome string :=
  let* gt := get baselineData "global_temp" in
  let* gtc := get gt "current" in
  let* gtcs := interpolate gtc in
  let* sl := get baselineData "sea_level_rise" in
  let* slc := get sl "current" in
  let* slcs := interpolate slc in
  let* dt := get humanImpacts "death_toll_annual" in
  let* dts := toLocaleString locale dt in
  let* rf := get humanImpacts "refugees" in
  let* rfs := toLocaleString locale rf in
  let* gdp := get humanImpacts "gdp_loss_percent" in
  let* gdps := interpolate gdp in
  Return (bulletin_prompt_text gtcs slcs dts rfs gdps).

(** [generateFallbackNarrative(baselineData, humanImpacts, question)];
    [question] is [None] when the argument is left out, which the default
    of the parameter turns into [null].  [today] is
    [new Date().toLocaleDateString()]. *)
Definition generateFallbackNarrative (locale : num -> string) (today : string)
    (baselineData humanImpacts question : option json) : outcome string :=
  if truthy question then
    let* q := interpolate question in
    let* gt := get baselineData "global_temp" in
    let* gtc := get gt "current" in
    let* gtcs := interpolate gtc in
    let* sl := get baselineData "sea_level_rise" in
    let* slc := get sl "current" in
    let* slcs := interpolate slc in
    let* dt := get humanImpacts "death_toll_annual" in
    let* dts := toLocaleString locale dt in
    let* rf := get humanImpacts "refugees" in
    let* rfs := toLocaleString locale rf in
    Return (question_fallback_text q gtcs slcs dts rfs)
  else
    let* gt := get baselineData "global_temp" in
    let* gtc := get gt "current" in
    let* gtcs := interpolate gtc in
    let* sl := get baselineData "sea_level_rise" in
    let* slc := get sl "current" in
    let* slcs := interpolate slc in
    let* dt := get humanImpacts "death_toll_annual" in
    let* dts := toLocaleString locale dt in
    let* rf := get humanImpacts "refugees" in
    let* rfs := toLocaleString locale rf in
    let* gdp := get humanImpacts "gdp_loss_percent" in
    let* gdps := interpolate gdp in
    Return (bulletin_fallback_text today gtcs slcs dts rfs gdps).

(** The completion service of this route: for the text of a prompt, the
    text of the first choice, or the failure of the call. *)
Definition narrative_service : Type := string -> outcome string.

Definition narrative_response (text : string) : Server.response :=
  Server.Response 200 (JObj [("narrative", JStr text)]).

Definition narrative_failure : Server.response :=
  Server.Response 500 (JObj [("error", JStr "Failed to generate narrative")]).

(** What the handler destructures from the body of the request. *)
Definition narrative_arguments (reqBody : json)
  : outcome (option json * option json * option json) :=
  let* baselineData := get (Some reqBody) "baselineData" in
  let* humanImpacts := get (Some reqBody) "humanImpacts" in
  let* question := get (Some reqBody) "question" in
  Return (baselineData, humanImpacts, question).

(** Either branch of the handler once its prompt is evaluated: the inner
    [try] covers the call alone, whose failure is answered with the
    fallback text; a failure before the call, or inside the fallback,
    reaches the outer [catch].  The answer comes with the prompts sent. *)
Definition complete (openai : narrative_service) (prompt fallback : outcome string)
  : Server.response * list string :=
  match prompt with
  | Throw _ => (narrative_failure, [])
  | Return p =>
      (match openai p with
       | Return content => narrative_response content
       | Throw _ =>
           match fallback with
           | Return text => narrative_response text
           | Throw _ => narrative_failure
           end
       end, [p])
  end.

(** [app.post('/api/narrative/generate', ...)] *)
Definition post_narrative (openai : narrative_service) (locale : num -> string)
    (today : string) (reqBody : json) : Server.response * list string :=
  match narrative_arguments reqBody with
  | Throw _ => (narrative_failure, [])
  | Return (baselineData, humanImpacts, question) =>
      if truthy question then
        complete openai
          (question_prompt locale question baselineData humanImpacts)
          (generateFallbackNarrative locale today baselineData humanImpacts question)
      else
        complete openai
          (bulletin_prompt locale baselineData humanImpacts)
          (generateFallbackNarrative locale today baselineData humanImpacts None)
  end.

End Api.

(** ** The client: cards, scenario list and narrative tab of Dashboard.tsx *)

Module Dashboard.
Import Json.
Import Template.

(** *** Status of a card *)

Local Open Scope Q_scope.

(** [value <= limit]; false when [value] is not a number. *)
Definition at_most (value : Client.number) (limit : Q) : bool :=
  match value with
  | Some v => Qle_bool v limit
  | None => false
  end.

Definition getStatusColor (metric : string) (value : Client.number) : string :=
  if String.eqb metric "global_temp" then
    if at_most value (15 # 10) then "text-green-600"
    else if at_most value 2 then "text-yellow-600"
    else "text-red-600"
  else if String.eqb metric "sea_level_rise" then
    if at_most value (5 # 10) then "text-green-600"
    else if at_most value 1 then "text-yellow-600"
    else "text-red-600"
  else if String.eqb metric "carbon_emissions" then
    if at_most value 30 then "text-green-600"
    else if at_most value 40 then "text-yellow-600"
    else "text-red-600"
  else if String.eqb metric "forest_loss" then
    if at_most value 15 then "text-green-600"
    else if at_most value 25 then "text-yellow-600"
    else "text-red-600"
  else "text-gray-600".

Definition getStatusIcon (metric : string) (value : Client.number) : string :=
  if String.eqb metric "global_temp" then
    if at_most value (15 # 10) then "check"
    else if at_most value 2 then "alert"
    else "x"
  else if String.eqb metric "sea_level_rise" then
    if at_most value (5 # 10) then "check"
    else if at_most value 1 then "alert"
    else "x"
  else if String.eqb metric "carbon_emissions" then
    if at_most value 30 then "check"
    else if at_most value 40 then "alert"
    else "x"
  else if String.eqb metric "forest_loss" then
    if at_most value 15 then "check"
    else if at_most value 25 then "alert"
    else "x"
  else "activity".

(** *** The scenario list of the What-If tab *)

(** The state of [WhatIfMode]: the form that [Client.generateScenario]
    reads, the list of scenarios and the scenario on display. *)
Record what_if : Type := WhatIf {
  form : Client.state;
  scenarios : list json;
  currentScenario : option json
}.

(** [response.ok] *)
Definition ok (r : Server.response) : bool :=
  (200 <=? Server.status r)%Z && (Server.status r <=? 299)%Z.


(** What [generateScenario] does with the answer to its request. *)
Definition receive_scenario (fetched : option Server.response) (st : what_if) : what_if :=
  match fetched with
  | Some r =>
      if ok r then
        let newScenario := Server.body r in
        match get (Some newScenario) "error" with
        | Return e =>
            if truthy e then st
            else WhatIf (Client.State EmptyString
                           (Client.climateData (form st))
                           (Client.humanImpacts (form st)))
                        (newScenario :: scenarios st)
                        (Some newScenario)
        | Throw _ => st
        end
      else st
  | None => st
  end.

(** [generateScenario] as a whole: [server] answers the request, if one is
    sent. *)
Definition generateScenario (server : json -> option Server.response) (st : what_if)
  : what_if :=
  match Client.generateScenario (form st) with
  | Some body => receive_scenario (server body) st
  | None => st
  end.

(** [selectScenario] *)
Definition selectScenario (scenario : json) (st : what_if) : what_if :=
  WhatIf (form st) (scenarios st) (Some scenario).

(** *** What the forecast reads from a scenario *)

(** The number a decimal stands for. *)
Definition num_value (n : num) : Q := inject_Z (mant n) * 10 ^ expo n.

(** A field of [alt_forecasts] as the forecast uses it: left out, or a
    number.  [None] is any other value, which the arithmetic of the
    forecast, as embedded in [Client], does not cover. *)
Definition target (alt : option json) (k : string) : outcome (option (option Q)) :=
  let* v := get alt k in
  Return match v with
         | None => Some None
         | Some (JNum n) => Some (Some (num_value n))
         | Some _ => None
         end.

(** [scenario.alt_forecasts.global_temp_2100] and the two other endpoints,
    read as the samples read them. *)
Definition targets_of (scenario : json) : outcome (option Client.targets) :=
  let* alt := get (Some scenario) "alt_forecasts" in
  let* t := target alt "global_temp_2100" in
  let* e := target alt "carbon_emissions_2100" in
  let* s := target alt "sea_level_rise_2100" in
  Return match t, e, s with
         | Some t', Some e', Some s' => Some (Client.Targets t' e' s')
         | _, _, _ => None
         end.

(** *** The narrative tab *)

Definition bulletin_fallback_text (today gtc slc dts rfs gdp : string) : string :=
  "Climate Bulletin - " ++ today ++ "

The Earth's climate system continues to show concerning trends. Global temperatures have risen to " ++ gtc ++ "°C above pre-industrial levels, with sea levels rising by " ++ slc ++ "m since 1900. These changes are already having profound human impacts, with " ++ dts ++ " annual deaths attributed to climate-related causes and " ++ rfs ++ " people displaced as climate refugees.

The economic toll is equally stark, with " ++ gdp ++ "% of global GDP at risk from climate change. Projections suggest these impacts will intensify through 2100, requiring immediate and coordinated global action to mitigate the worst outcomes.".

Definition question_fallback_text (q gtc slc dts rfs : string) : string :=
  "Based on current climate data, here's what I can tell you about " ++ Str.dqs ++ q ++ Str.dqs ++ ":

The question you've asked is complex and requires careful analysis of multiple climate indicators. Current data shows global temperatures at " ++ gtc ++ "°C above pre-industrial levels, with sea levels rising by " ++ slc ++ "m. These changes are contributing to the " ++ dts ++ " annual climate-related deaths and " ++ rfs ++ " climate refugees we're seeing today.

For a more detailed analysis, I'd recommend consulting the specific data visualizations in the Dashboard and Human Futures tabs, or asking a more specific question about particular climate indicators.".


(** The state of [NarrativeMode] that its requests read and write. *)
Record narrative_tab : Type := NarrativeTab {
  climateData : option json;
  humanImpacts : option json;
  narrative : option json;
  question : string;
  answer : option json
}.

(** The text [generateNarrative] shows when its request fails. *)
Definition bulletin_fallback (locale : num -> string) (today : string)
    (climate impacts : option json) : outcome string :=
  let* gt := get climate "global_temp" in
  let* gtc := get gt "current" in
  let* gtcs := interpolate gtc in
  let* sl := get climate "sea_level_rise" in
  let* slc := get sl "current" in
  let* slcs := interpolate slc in
  let* dt := get impacts "death_toll_annual" in
  let* dts := toLocaleString locale dt in
  let* rf := get impacts "refugees" in
  let* rfs := toLocaleString locale rf in
  let* gdp := get impacts "gdp_loss_percent" in
  let* gdps := interpolate gdp in
  Return (bulletin_fallback_text today gtcs slcs dts rfs gdps).

(** The text [askQuestion] shows when its request fails. *)
Definition question_fallback (locale : num -> string) (asked : string)
    (climate impacts : option json) : outcome string :=
  let* gt := get climate "global_temp" in
  let* gtc := get gt "current" in
  let* gtcs := interpolate gtc in
  let* sl := get climate "sea_level_rise" in
  let* slc := get sl "current" in
  let* slcs := interpolate slc in
  let* dt := get impacts "death_toll_annual" in
  let* dts := toLocaleString locale dt in
  let* rf := get impacts "refugees" in
  let* rfs := toLocaleString locale rf in
  Return (question_fallback_text asked gtcs slcs dts rfs).

(** The body [generateNarrative(climate, impacts)] posts. *)
Definition generateNarrative_request (climate impacts : json) : json :=
  JObj [("baselineData", climate); ("humanImpacts", impacts)].

(** [generateNarrative(climate, impacts)]; [server] answers the request, or
    gives [None] when the request or the decoding of its answer fails.  A
    failure inside the [catch] leaves the function by an exception. *)
Definition generateNarrative (server : json -> option Server.response)
    (locale : num -> string) (today : string) (climate impacts : json)
    (st : narrative_tab) : outcome narrative_tab :=
  let show text :=
    NarrativeTab (climateData st) (humanImpacts st) text (question st) (answer st) in
  let fallback :=
    let* text := bulletin_fallback locale today (Some climate) (Some impacts) in
    Return (show (Some (JStr text))) in
  match server (generateNarrative_request climate impacts) with
  | Some r =>
      match get (Some (Server.body r)) "narrative" with
      | Return text => Return (show text)
      | Throw _ => fallback
      end
  | None => fallback
  end.

(** The body [askQuestion] posts, or [None] when it returns before any
    request. *)
Definition askQuestion_request (st : narrative_tab) : option json :=
  if String.eqb (Str.trim (question st)) EmptyString then None
  else
    match climateData st, humanImpacts st with
    | Some c, Some h =>
        if truthy (Some c) && truthy (Some h) then
          Some (JObj [ ("baselineData", c); ("humanImpacts", h);
                       ("question", JStr (question st)) ])
        else None
    | _, _ => None
    end.

(** [askQuestion] *)
Definition askQuestion (server : json -> option Server.response)
    (locale : num -> string) (st : narrative_tab) : outcome narrative_tab :=
  let show text :=
    NarrativeTab (climateData st) (humanImpacts st) (narrative st) (question st) text in
  let fallback :=
    let* text := question_fallback locale (question st) (climateData st)
                   (humanImpacts st) in
    Return (show (Some (JStr text))) in
  match askQuestion_request st with
  | None => Return st
  | Some body =>
      match server body with
      | Some r =>
          match get (Some (Server.body r)) "narrative" with
          | Return text => Return (show text)
          | Throw _ => fallback
          end
      | None => fallback
      end
  end.

(** [refreshNarrative] *)
Definition refreshNarrative (server : json -> option Server.response)
    (locale : num -> string) (today : string) (st : narrative_tab)
  : outcome narrative_tab :=
  match climateData st, humanImpacts st with
  | Some c, Some h =>
      if truthy (Some c) && truthy (Some h)
      then generateNarrative server locale today c h st
      else Return st
  | _, _ => Return st
  end.

End Dashboard.

(** ** Further notions used in the statements *)

Module Notions.
Import Json.
Import Template.

(** *** Requests *)

(** A value that has properties to read: neither [undefined] nor [null]. *)
Definition readable (v : option json) : bool :=
  match v with
  | None | Some JNull => false
  | Some _ => true
  end.

(** [base.k] of a value that may not be there to read from. *)
Definition member (base : option json) (k : string) : option json :=
  match base with
  | Some (JObj fs) => lookup k fs
  | _ => None
  end.

(** A value a template can quote: its conversion to a string does not
    fail.  An object fails it when a member of its own stands in the place
    of [toString], an array when one of its elements does. *)
Fixpoint printable_value (v : json) : bool :=
  match v with
  | JObj fs => negb (has_own "toString" fs)
  | JArr l => forallb printable_value l
  | _ => true
  end.

Definition printable (v : option json) : bool :=
  match v with
  | Some j => printable_value j
  | None => true
  end.

(** A value on which [toLocaleString()] can be called and returns. *)
Fixpoint localizable_value (v : json) : bool :=
  match v with
  | JNull => false
  | JObj fs => negb (has_own "toLocaleString" fs) && negb (has_own "toString" fs)
  | JArr l =>
      forallb (fun x => match x with
                        | JNull => true
                        | _ => localizable_value x
                        end) l
  | _ => true
  end.

Definition localizable (v : option json) : bool :=
  match v with
  | Some j => localizable_value j
  | None => false
  end.

(** What the templates need of the baseline and of the human impacts: the
    two series, whose current values they quote, the two counts they
    format, and the share of GDP they quote. *)
Definition promptable (baselineData humanImpacts : option json) : bool :=
  readable baselineData
  && readable (member baselineData "global_temp")
  && printable (member (member baselineData "global_temp") "current")
  && readable (member baselineData "sea_level_rise")
  && printable (member (member baselineData "sea_level_rise") "current")
  && readable humanImpacts
  && localizable (member humanImpacts "death_toll_annual")
  && localizable (member humanImpacts "refugees")
  && printable (member humanImpacts "gdp_loss_percent").


(** *** The narrative route *)

(** The five figures the templates of the narrative route quote. *)
Record figures : Type := Figures {
  temperature : string;
  sea_level : string;
  deaths : string;
  refugees : string;
  gdp : string
}.

(** The text of a conversion that has not failed. *)
Definition text_of (o : outcome string) : string :=
  match o with
  | Return s => s
  | Throw _ => EmptyString
  end.

Definition quoted (v : option json) : string := text_of (interpolate v).

Definition localized (locale : num -> string) (v : option json) : string :=
  text_of (toLocaleString locale v).

Definition figures_of (locale : num -> string) (baselineData humanImpacts : option json)
  : figures :=
  Figures (quoted (member (member baselineData "global_temp") "current"))
          (quoted (member (member baselineData "sea_level_rise") "current"))
          (localized locale (member humanImpacts "death_toll_annual"))
          (localized locale (member humanImpacts "refugees"))
          (quoted (member humanImpacts "gdp_loss_percent")).

(** The prompt of a scenario for the data of a request. *)
Definition value_of (v : option json) : json :=
  match v with
  | Some j => j
  | None => JNull
  end.

Definition prompt_of (userInput baselineData humanImpacts : option json)
  : Server.prompt :=
  Server.Prompt userInput
    (member (member baselineData "global_temp") "current")
    (member (member baselineData "sea_level_rise") "current")
    (value_of (member humanImpacts "death_toll_annual"))
    (value_of (member humanImpacts "refugees"))
    (member humanImpacts "gdp_loss_percent").

(** What [POST /api/scenarios] answers and what it passes to the driver
    once the completion has been decoded to [aiResponse]. *)
Definition created (userInput : option json) (aiResponse : json) : json :=
  JObj (Server.sent
          (Server.assign "userInput" userInput
             (Server.spread (Server.own_fields aiResponse) [("id", None)]))).

Definition handed_over (userInput : option json) (aiResponse : json) (now : string)
  : Store.insertion :=
  Store.Insertion userInput
    (member (Some aiResponse) "theme")
    (JsonText.stringify_opt (member (Some aiResponse) "alt_forecasts"))
    (member (Some aiResponse) "narrative")
    now.

(** The prompt for a request: about its question when it has one that is
    truthy, for a bulletin otherwise. *)
Definition prompt_text (question : option json) (f : figures) : string :=
  if truthy question
  then Api.question_prompt_text (quoted question) (temperature f) (sea_level f)
         (deaths f) (refugees f) (gdp f)
  else Api.bulletin_prompt_text (temperature f) (sea_level f) (deaths f) (refugees f)
         (gdp f).

(** The text served in place of a completion. *)
Definition fallback_text (today : string) (question : option json) (f : figures)
  : string :=
  if truthy question
  then Api.question_fallback_text (quoted question) (temperature f) (sea_level f)
         (deaths f) (refugees f)
  else Api.bulletin_fallback_text today (temperature f) (sea_level f) (deaths f)
         (refugees f) (gdp f).

(** *** Completions *)

(** A character no JSON value starts with, white space apart. *)
Definition no_value_start (c : ascii) : bool :=
  negb (Ascii.eqb c "{" || Ascii.eqb c "[" || Ascii.eqb c Str.dq
        || Ascii.eqb c "t" || Ascii.eqb c "f" || Ascii.eqb c "n"
        || Ascii.eqb c "-" || JsonText.is_digit c || JsonText.is_ws c).

(** A text that starts with such a character. *)
Definition starts_prose (s : string) : bool :=
  match s with
  | String c _ => no_value_start c
  | EmptyString => false
  end.

(** The records of the two keyword generators. *)
Definition fallback_records : list json :=
  [ Fallback.fallback_energy; Fallback.fallback_decarbonization;
    Fallback.fallback_geoengineering; Fallback.fallback_hero;
    Fallback.fallback_time_travel; Fallback.fallback_generic ].

Definition unique_records : list json :=
  [ Fallback.unique_hero; Fallback.unique_time_travel; Fallback.unique_alien;
    Fallback.unique_energy ].

(** *** Cards *)

(** The icon that goes with a colour, and how alarming a colour is. *)
Definition icon_of (colour : string) : string :=
  if String.eqb colour "text-green-600" then "check"
  else if String.eqb colour "text-yellow-600" then "alert"
  else if String.eqb colour "text-red-600" then "x"
  else "activity".

Definition severity (colour : string) : nat :=
  if String.eqb colour "text-green-600" then 0
  else if String.eqb colour "text-yellow-600" then 1
  else 2.

Definition charted (metric : string) : bool :=
  String.eqb metric "global_temp" || String.eqb metric "sea_level_rise"
  || String.eqb metric "carbon_emissions" || String.eqb metric "forest_loss".

End Notions.

(** * Properties *)

Import Json.

(** Unfolding of the handler's monad, leaving its steps folded. *)
Ltac run_handler :=
  unfold Server.post_scenarios, Server.create_scenario, Server.generateScenario,
    Server.catch, Server.bindM, Server.lift, Server.create_completion,
    Server.throw, Server.ret.
Ltac step_handler :=
  cbn -[get Server.parse_completion Server.build_prompt Str.trim Str.prefix_of
        Server.generation_arguments JsonText.stringify_opt Server.own_fields
        Server.spread Server.assign Server.sent].




(** ** Strings *)

Section StringFacts.

Lemma append_assoc (a b c : string) : (a ++ b) ++ c = a ++ (b ++ c).
Proof. induction a as [|x a IH]; simpl; [reflexivity | now rewrite IH]. Qed.

Lemma append_nil_r (a : string) : a ++ EmptyString = a.
Proof. induction a as [|x a IH]; simpl; [reflexivity | now rewrite IH]. Qed.

Lemma upto_last_absent (c : ascii) (s : string) :
  Str.mem c s = false -> Str.upto_last c s = None.
Proof.
  induction s as [|d s IH]; simpl; [reflexivity|].
  intros H. apply orb_false_iff in H as [Hd Hs].
  rewrite (IH Hs), Hd. reflexivity.
Qed.

Lemma upto_last_app (c : ascii) (mid post : string) :
  Str.mem c post = false ->
  Str.upto_last c (mid ++ String c post) = Some (mid ++ String c EmptyString).
Proof.
  intros Hpost. induction mid as [|d mid IH]; simpl.
  - rewrite (upto_last_absent _ _ Hpost), Ascii.eqb_refl. reflexivity.
  - rewrite IH. reflexivity.
Qed.

Lemma from_first_app (c : ascii) (pre rest : string) :
  Str.mem c pre = false ->
  Str.from_first c (pre ++ String c rest) = Some (String c rest).
Proof.
  induction pre as [|d pre IH]; simpl.
  - intros _. rewrite Ascii.eqb_refl. reflexivity.
  - intros H. apply orb_false_iff in H as [Hd Hs]. rewrite Hd. auto.
Qed.

(** The brace pattern picks the text from the first opening brace to the
    last closing brace. *)
Lemma match_braces_span (pre mid post : string) :
  Str.mem "{" pre = false ->
  Str.mem "}" post = false ->
  Str.match_braces (pre ++ String "{" (mid ++ String "}" post))
  = Some (String "{" (mid ++ String "}" EmptyString)).
Proof.
  intros Hpre Hpost. unfold Str.match_braces.
  rewrite (from_first_app _ _ _ Hpre), (upto_last_app _ _ _ Hpost).
  reflexivity.
Qed.

Lemma from_first_split (c : ascii) (s t : string) :
  Str.from_first c s = Some t ->
  exists pre rest, s = pre ++ String c rest /\ t = String c rest
                   /\ Str.mem c pre = false.
Proof.
  induction s as [|d s IH]; simpl; [discriminate|].
  destruct (Ascii.eqb d c) eqn:E.
  - intros [= <-]. apply Ascii.eqb_eq in E. subst d.
    exists EmptyString, s. auto.
  - intros H. destruct (IH H) as (pre & rest & -> & -> & Hm).
    exists (String d pre), rest. simpl. rewrite E. auto.
Qed.

Lemma upto_last_split (c : ascii) (s p : string) :
  Str.upto_last c s = Some p ->
  exists mid post, s = mid ++ String c post /\ p = mid ++ String c EmptyString
                   /\ Str.mem c post = false.
Proof.
  revert p. induction s as [|d s IH]; simpl; [discriminate|].
  intros p. destruct (Str.upto_last c s) as [q|] eqn:E.
  - intros [= <-]. destruct (IH q eq_refl) as (mid & post & -> & -> & Hm).
    exists (String d mid), post. auto.
  - destruct (Ascii.eqb d c) eqn:Ed; [|discriminate].
    intros [= <-]. apply Ascii.eqb_eq in Ed. subst d.
    exists EmptyString, s. simpl. repeat split.
    clear IH. induction s as [|x s IHs]; simpl in *; [reflexivity|].
    destruct (Str.upto_last c s); [discriminate|].
    destruct (Ascii.eqb x c); [discriminate|]. simpl. auto.
Qed.

(** Conversely, a match of the brace pattern is such a span. *)
Lemma match_braces_inv (s m : string) :
  Str.match_braces s = Some m ->
  exists pre mid post,
    s = pre ++ String "{" (mid ++ String "}" post)
    /\ m = String "{" (mid ++ String "}" EmptyString)
    /\ Str.mem "{" pre = false /\ Str.mem "}" post = false.
Proof.
  unfold Str.match_braces.
  destruct (Str.from_first "{" s) as [t|] eqn:F; [|discriminate].
  destruct (from_first_split _ _ _ F) as (pre & rest & -> & -> & Hpre).
  destruct (Str.upto_last "}" rest) as [p|] eqn:U; [|discriminate].
  intros [= <-].
  destruct (upto_last_split _ _ _ U) as (mid & post & -> & -> & Hpost).
  exists pre, mid, post. auto.
Qed.

End StringFacts.

Section TrimFacts.

(** No byte of a white space character beyond ASCII is an ASCII byte. *)
Lemma is_space2_inv (c d : ascii) :
  Str.is_space2 c d = true ->
  (128 <= nat_of_ascii c)%nat /\ (128 <= nat_of_ascii d)%nat.
Proof.
  unfold Str.is_space2. intros H. apply andb_true_iff in H as [H1 H2].
  apply Nat.eqb_eq in H1, H2. lia.
Qed.

Lemma is_space3_inv (c d e : ascii) :
  Str.is_space3 c d e = true ->
  (128 <= nat_of_ascii c)%nat /\ (128 <= nat_of_ascii d)%nat
  /\ (128 <= nat_of_ascii e)%nat.
Proof.
  unfold Str.is_space3. cbv zeta. intros H.
  repeat (apply orb_true_iff in H as [H|H]);
    repeat (apply andb_true_iff in H as [H ?]);
    repeat match goal with
           | E : (_ =? _)%nat = true |- _ => apply Nat.eqb_eq in E
           | E : (_ <=? _)%nat = true |- _ => apply Nat.leb_le in E
           | E : (_ || _) = true |- _ => apply orb_true_iff in E as [E|E]
           | E : (_ && _) = true |- _ => apply andb_true_iff in E as [E ?]
           end; lia.
Qed.

Lemma is_space2_ascii_l (c d : ascii) :
  (nat_of_ascii c < 128)%nat -> Str.is_space2 c d = false.
Proof.
  intros H. destruct (Str.is_space2 c d) eqn:E; [|reflexivity].
  apply is_space2_inv in E. lia.
Qed.

Lemma is_space2_ascii_r (c d : ascii) :
  (nat_of_ascii d < 128)%nat -> Str.is_space2 c d = false.
Proof.
  intros H. destruct (Str.is_space2 c d) eqn:E; [|reflexivity].
  apply is_space2_inv in E. lia.
Qed.

Lemma is_space3_ascii (c d e : ascii) :
  (nat_of_ascii c < 128)%nat \/ (nat_of_ascii d < 128)%nat
  \/ (nat_of_ascii e < 128)%nat ->
  Str.is_space3 c d e = false.
Proof.
  intros H. destruct (Str.is_space3 c d e) eqn:E; [|reflexivity].
  apply is_space3_inv in E. lia.
Qed.

(** One step of [trimStart]. *)
Lemma trimStart_step (c : ascii) (r : string) :
  Str.trimStart (String c r)
  = if Str.is_space c then Str.trimStart r
    else match r with
         | String d r2 =>
             if Str.is_space2 c d then Str.trimStart r2
             else match r2 with
                  | String e r3 =>
                      if Str.is_space3 c d e then Str.trimStart r3 else String c r
                  | EmptyString => String c r
                  end
         | EmptyString => String c r
         end.
Proof. reflexivity. Qed.

(** An ASCII character that is not white space stops [trimStart]. *)
Lemma trimStart_stops (c : ascii) (rest : string) :
  (nat_of_ascii c < 128)%nat -> Str.is_space c = false ->
  Str.trimStart (String c rest) = String c rest.
Proof.
  intros Hc Hs. rewrite trimStart_step, Hs.
  destruct rest as [|d [|e r]]; [reflexivity| |].
  - now rewrite is_space2_ascii_l.
  - rewrite is_space2_ascii_l by assumption.
    rewrite is_space3_ascii by auto. reflexivity.
Qed.

Lemma trimStart_app_upto (n : nat) (pre rest : string) (c : ascii) :
  (String.length pre <= n)%nat ->
  (nat_of_ascii c < 128)%nat -> Str.is_space c = false ->
  Str.trimStart (pre ++ String c rest) = Str.trimStart pre ++ String c rest.
Proof.
  intros Hn Hc Hs. revert pre Hn.
  induction n as [|n IH]; intros pre Hn.
  - destruct pre; [|cbn in Hn; lia]. now apply trimStart_stops.
  - destruct pre as [|x pre]; [now apply trimStart_stops|].
    cbn [append]. rewrite !trimStart_step.
    destruct (Str.is_space x); [apply IH; cbn in Hn; lia|].
    destruct pre as [|y pre]; cbn [append].
    { rewrite is_space2_ascii_r by assumption.
      destruct rest; [reflexivity|].
      rewrite is_space3_ascii by auto. reflexivity. }
    destruct (Str.is_space2 x y); [apply IH; cbn in Hn; lia|].
    destruct pre as [|z pre]; cbn [append].
    { rewrite is_space3_ascii by auto. reflexivity. }
    destruct (Str.is_space3 x y z); [apply IH; cbn in Hn; lia|reflexivity].
Qed.

Lemma trimStart_app (pre rest : string) (c : ascii) :
  (nat_of_ascii c < 128)%nat -> Str.is_space c = false ->
  Str.trimStart (pre ++ String c rest) = Str.trimStart pre ++ String c rest.
Proof. now apply trimStart_app_upto with (String.length pre). Qed.

(** [trimStart] leaves a suffix of the text. *)
Lemma trimStart_suffix_upto (n : nat) (s : string) :
  (String.length s <= n)%nat -> exists p, s = p ++ Str.trimStart s.
Proof.
  revert s. induction n as [|n IH]; intros s Hn.
  - destruct s; [|cbn in Hn; lia]. now exists EmptyString.
  - destruct s as [|x s]; [now exists EmptyString|].
    rewrite trimStart_step.
    destruct (Str.is_space x).
    { destruct (IH s) as [p Hp]; [cbn in Hn; lia|].
      exists (String x p). cbn [append]. now rewrite <- Hp. }
    destruct s as [|y s]; [now exists EmptyString|].
    destruct (Str.is_space2 x y).
    { destruct (IH s) as [p Hp]; [cbn in Hn; lia|].
      exists (String x (String y p)). cbn [append]. now rewrite <- Hp. }
    destruct s as [|z s]; [now exists EmptyString|].
    destruct (Str.is_space3 x y z); [|now exists EmptyString].
    destruct (IH s) as [p Hp]; [cbn in Hn; lia|].
    exists (String x (String y (String z p))). cbn [append]. now rewrite <- Hp.
Qed.

Lemma trimStart_suffix (s : string) : exists p, s = p ++ Str.trimStart s.
Proof. now apply trimStart_suffix_upto with (String.length s). Qed.

Lemma mem_app (c : ascii) (a b : string) :
  Str.mem c (a ++ b) = Str.mem c a || Str.mem c b.
Proof.
  induction a as [|d a IH]; cbn [append Str.mem]; [reflexivity|].
  now rewrite IH, orb_assoc.
Qed.

Lemma mem_trimStart (c : ascii) (s : string) :
  Str.mem c s = false -> Str.mem c (Str.trimStart s) = false.
Proof.
  destruct (trimStart_suffix s) as [p Hp]. intros H.
  rewrite Hp, mem_app in H. now apply orb_false_iff in H.
Qed.

(** [trimEnd] leaves a prefix of the text. *)
Lemma trimEnd_prefix (s : string) : exists q, s = Str.trimEnd s ++ q.
Proof.
  induction s as [|d s [q IH]].
  - now exists EmptyString.
  - cbn [Str.trimEnd]. destruct (Str.blank (String d s)).
    + now exists (String d s).
    + exists q. cbn [append]. now rewrite <- IH.
Qed.

Lemma mem_trimEnd (c : ascii) (s : string) :
  Str.mem c s = false -> Str.mem c (Str.trimEnd s) = false.
Proof.
  destruct (trimEnd_prefix s) as [q Hq]. intros H.
  rewrite Hq, mem_app in H. now apply orb_false_iff in H.
Qed.

(** A text that holds an ASCII character other than white space is not
    blank. *)
Lemma blank_app (a rest : string) (c : ascii) :
  (nat_of_ascii c < 128)%nat -> Str.is_space c = false ->
  Str.blank (a ++ String c rest) = false.
Proof.
  intros Hc Hs. unfold Str.blank. rewrite trimStart_app by assumption.
  now destruct (Str.trimStart a).
Qed.

Lemma trimEnd_app (a post : string) (c : ascii) :
  (nat_of_ascii c < 128)%nat -> Str.is_space c = false ->
  Str.trimEnd (a ++ String c post) = a ++ String c (Str.trimEnd post).
Proof.
  intros Hc Hs. induction a as [|d a IH].
  - pose proof (blank_app EmptyString post c Hc Hs) as B.
    cbn [append] in *. cbn [Str.trimEnd]. now rewrite B.
  - pose proof (blank_app (String d a) post c Hc Hs) as B.
    cbn [append] in *. cbn [Str.trimEnd]. now rewrite B, IH.
Qed.

Lemma trimStart_all_space (s : string) :
  Str.all_space s = true -> Str.trimStart s = EmptyString.
Proof.
  induction s as [|d s IH]; [reflexivity|]. cbn [Str.all_space].
  intros H. apply andb_true_iff in H as [Hd Hs]. rewrite trimStart_step, Hd. auto.
Qed.

Lemma trimEnd_all_space (s : string) :
  Str.all_space s = true -> Str.trimEnd s = EmptyString.
Proof.
  intros H. destruct s as [|d s]; [reflexivity|]. cbn [Str.trimEnd].
  unfold Str.blank. now rewrite (trimStart_all_space _ H).
Qed.

(** Trimming a text that holds a brace-delimited part trims the prose
    around it and leaves the part alone. *)
Lemma trim_around_braces (pre mid post : string) :
  Str.trim (pre ++ String "{" (mid ++ String "}" post))
  = Str.trimStart pre ++ String "{" (mid ++ String "}" (Str.trimEnd post)).
Proof.
  unfold Str.trim. rewrite trimStart_app by (cbn; (lia || reflexivity)).
  replace (Str.trimStart pre ++ String "{" (mid ++ String "}" post))
    with ((Str.trimStart pre ++ String "{" mid) ++ String "}" post).
  - rewrite trimEnd_app by (cbn; (lia || reflexivity)).
    rewrite append_assoc. reflexivity.
  - rewrite append_assoc. reflexivity.
Qed.

End TrimFacts.


(** ** Code units *)

Section CodeUnits.


Lemma units_step (c : ascii) (r : string) :
  Str.units (String c r)
  = match Str.width c, r with
    | 2%nat, String d r2 => String c (String d EmptyString) :: Str.units r2
    | 3%nat, String d (String e r3) =>
        String c (String d (String e EmptyString)) :: Str.units r3
    | 4%nat, String d (String e (String f r4)) =>
        Str.high_surrogate c d e f :: Str.low_surrogate c d e f :: Str.units r4
    | _, _ => String c EmptyString :: Str.units r
    end.
Proof. reflexivity. Qed.

Lemma prefix_of_step (m : nat) (c : ascii) (r : string) :
  Str.prefix_of (S m) (String c r)
  = match Str.width c, r with
    | 2%nat, String d r2 => String c (String d (Str.prefix_of m r2))
    | 3%nat, String d (String e r3) =>
        String c (String d (String e (Str.prefix_of m r3)))
    | 4%nat, String d (String e (String f r4)) =>
        match m with
        | O => Str.high_surrogate c d e f
        | S m' =>
            String c (String d (String e (String f (Str.prefix_of m' r4))))
        end
    | _, _ => String c (Str.prefix_of m r)
    end.
Proof. reflexivity. Qed.

(** A cut never makes the text longer in bytes. *)
Lemma prefix_of_bytes (n : nat) (s : string) :
  (String.length (Str.prefix_of n s) <= String.length s)%nat.
Proof.
  revert s. induction n as [n IH] using lt_wf_ind. intros s.
  destruct n as [|m]; [cbn; lia|].
  destruct s as [|c r]; [cbn; lia|].
  rewrite prefix_of_step.
  assert (Hone : (String.length (String c (Str.prefix_of m r))
                  <= String.length (String c r))%nat).
  { cbn [String.length]. specialize (IH m (Nat.lt_succ_diag_r m) r). lia. }
  destruct (Str.width c) as [|[|[|[|[|w]]]]]; try exact Hone.
  - destruct r as [|d r2]; [exact Hone|].
    cbn [String.length]. specialize (IH m (Nat.lt_succ_diag_r m) r2). lia.
  - destruct r as [|d [|e r3]]; try exact Hone.
    cbn [String.length]. specialize (IH m (Nat.lt_succ_diag_r m) r3). lia.
  - destruct r as [|d [|e [|f r4]]]; try exact Hone.
    destruct m as [|m'].
    + cbn. lia.
    + cbn [String.length]. assert (Hlt : (m' < S (S m'))%nat) by lia.
      specialize (IH m' Hlt r4). lia.
Qed.

(** A first byte that is not followed by the bytes its character needs is
    a unit of its own. *)
Lemma units_short (c : ascii) (x : string) :
  (String.length x < Str.width c - 1)%nat ->
  Str.units (String c x) = String c EmptyString :: Str.units x.
Proof.
  intros H. rewrite units_step.
  destruct (Str.width c) as [|[|[|[|[|w]]]]]; try reflexivity;
    destruct x as [|d [|e [|f x]]]; try reflexivity; cbn in H; lia.
Qed.

Lemma units_single (c : ascii) (x : string) :
  (Str.width c <> 2 /\ Str.width c <> 3 /\ Str.width c <> 4)%nat ->
  Str.units (String c x) = String c EmptyString :: Str.units x.
Proof.
  intros (H2 & H3 & H4). rewrite units_step.
  destruct (Str.width c) as [|[|[|[|[|w]]]]]; try reflexivity; lia.
Qed.

Lemma units_surrogate (u : N) :
  Str.units (Str.surrogate u) = [Str.surrogate u].
Proof. reflexivity. Qed.

(** [substring(0, n)] keeps the first [n] code units. *)
Lemma units_prefix_of (n : nat) (s : string) :
  Str.units (Str.prefix_of n s) = firstn n (Str.units s).
Proof.
  revert s. induction n as [n IH] using lt_wf_ind. intros s.
  destruct n as [|m]; [reflexivity|].
  destruct s as [|c r]; [reflexivity|].
  assert (Hm : (m < S m)%nat) by lia.
  assert (Hshort : (String.length r < Str.width c - 1)%nat ->
                   Str.units (Str.prefix_of (S m) (String c r))
                   = firstn (S m) (Str.units (String c r))).
  { intros H.
    assert (E : Str.prefix_of (S m) (String c r) = String c (Str.prefix_of m r)).
    { rewrite prefix_of_step.
      destruct (Str.width c) as [|[|[|[|[|w]]]]]; try reflexivity;
        destruct r as [|d [|e [|f r]]]; try reflexivity; cbn in H; lia. }
    rewrite E, (units_short c r H), units_short.
    - cbn [firstn]. now rewrite IH.
    - pose proof (prefix_of_bytes m r). lia. }
  assert (Hsingle : (Str.width c <> 2 /\ Str.width c <> 3 /\ Str.width c <> 4)%nat ->
                    Str.units (Str.prefix_of (S m) (String c r))
                    = firstn (S m) (Str.units (String c r))).
  { intros H.
    assert (E : Str.prefix_of (S m) (String c r) = String c (Str.prefix_of m r)).
    { rewrite prefix_of_step. destruct H as (H2 & H3 & H4).
      destruct (Str.width c) as [|[|[|[|[|w]]]]]; try reflexivity; lia. }
    rewrite E, !units_single by assumption. cbn [firstn]. now rewrite IH. }
  destruct (Str.width c) as [|[|[|[|[|w]]]]] eqn:W;
    try (apply Hsingle; repeat split; discriminate).
  - destruct r as [|d r2]; [apply Hshort; cbn; lia|].
    rewrite prefix_of_step, W. rewrite !units_step, W. cbn [firstn].
    now rewrite IH.
  - destruct r as [|d [|e r3]]; try (apply Hshort; cbn; lia).
    rewrite prefix_of_step, W. rewrite !units_step, W. cbn [firstn].
    now rewrite IH.
  - destruct r as [|d [|e [|f r4]]]; try (apply Hshort; cbn; lia).
    rewrite prefix_of_step, W. rewrite (units_step c), W.
    destruct m as [|m'].
    + apply units_surrogate.
    + rewrite units_step, W. cbn [firstn]. rewrite IH by lia. reflexivity.
Qed.

(** In particular a cut text has at most [n] code units, and a text of at
    most [n] is left as it is. *)
Lemma length_prefix_of (n : nat) (s : string) :
  Str.length (Str.prefix_of n s) = Nat.min n (Str.length s).
Proof. unfold Str.length. rewrite units_prefix_of. apply length_firstn. Qed.

End CodeUnits.


(** ** The response parser *)

Section Parser.

Lemma match_braces_spec (s m : string) :
  Str.match_braces s = Some m <-> Spec.brace_span s m.
Proof.
  split.
  - apply match_braces_inv.
  - intros (pre & mid & post & -> & -> & Hpre & Hpost).
    now apply match_braces_span.
Qed.

(** The text of a well-formed object embedded in prose is recovered when the
    prose before it has no opening brace and the prose after it no closing
    one, unless the whole text decodes by itself. *)
Lemma parse_completion_embedded (pre mid post : string) (v : json) :
  let s := String "{" (mid ++ String "}" EmptyString) in
  JsonText.parse s = Some v ->
  Str.mem "{" pre = false ->
  Str.mem "}" post = false ->
  JsonText.parse (Str.trim (pre ++ s ++ post)) = None
  \/ (Str.all_space pre = true /\ Str.all_space post = true) ->
  Server.parse_completion (pre ++ s ++ post) = Return v.
Proof.
  intros s Hs Hpre Hpost Hstrict.
  assert (E : pre ++ s ++ post = pre ++ String "{" (mid ++ String "}" post)).
  { unfold s. cbn [append]. now rewrite append_assoc. }
  unfold Server.parse_completion. rewrite E in *. rewrite trim_around_braces in *.
  destruct Hstrict as [Hnone | [Ha Hb]].
  - rewrite Hnone.
    rewrite match_braces_span
      by (auto using mem_trimStart, mem_trimEnd).
    fold s. now rewrite Hs.
  - rewrite (trimStart_all_space _ Ha), (trimEnd_all_space _ Hb).
    cbn [append]. fold s. now rewrite Hs.
Qed.

End Parser.

(** ** JSON text *)

Section ParserFuel.

Import JsonText.

Local Abbreviation len := String.length.

Lemma skip_ws_length (s : string) : (len (skip_ws s) <= len s)%nat.
Proof.
  induction s as [|c s IH]; simpl; [lia|].
  destruct (is_ws c); simpl; lia.
Qed.

Lemma span_digits_length (s ds rest : string) :
  span_digits s = (ds, rest) -> (len s = len ds + len rest)%nat.
Proof.
  revert ds rest. induction s as [|c s IH]; simpl; intros ds rest.
  - intros [= <- <-]. reflexivity.
  - destruct (is_digit c).
    + destruct (span_digits s) as [d r]. intros [= <- <-].
      simpl. rewrite (IH d r eq_refl). reflexivity.
    + intros [= <- <-]. reflexivity.
Qed.

Lemma strip_prefix_length (word s rest : string) :
  strip_prefix word s = Some rest -> (len s = len word + len rest)%nat.
Proof.
  revert s. induction word as [|c w IH]; simpl; intros s.
  - intros [= <-]. reflexivity.
  - destruct s as [|d s]; [discriminate|].
    destruct (Ascii.eqb c d); [|discriminate].
    intros H. simpl. rewrite (IH _ H). reflexivity.
Qed.

Lemma parse_chars_length (s t rest : string) :
  parse_chars s = Some (t, rest) -> (len rest < len s)%nat.
Proof.
  remember (len s) as n eqn:Hn. revert s t rest Hn.
  induction n as [n IH] using lt_wf_ind. intros s t rest -> H.
  destruct s as [|c r]; simpl in H; [discriminate|].
  destruct (Ascii.eqb c Str.dq).
  { injection H as <- <-. simpl. lia. }
  destruct (Ascii.eqb c "\").
  - destruct r as [|e r1]; [discriminate|].
    destruct (Ascii.eqb e "u").
    + destruct r1 as [|h1 [|h2 [|h3 [|h4 r2]]]]; try discriminate.
      destruct (hex4 h1 h2 h3 h4); [|discriminate].
      destruct (parse_chars r2) as [[t' rest']|] eqn:E; [|discriminate].
      injection H as <- <-.
      assert (len rest' < len r2)%nat by (eapply (IH (len r2)); simpl; eauto; lia).
      simpl. lia.
    + destruct (unescape e); [|discriminate].
      destruct (parse_chars r1) as [[t' rest']|] eqn:E; [|discriminate].
      injection H as <- <-.
      assert (len rest' < len r1)%nat by (eapply (IH (len r1)); simpl; eauto; lia).
      simpl. lia.
  - destruct (nat_of_ascii c <? 32)%nat; [discriminate|].
    destruct (parse_chars r) as [[t' rest']|] eqn:E; [|discriminate].
    injection H as <- <-.
    assert (len rest' < len r)%nat by (eapply (IH (len r)); simpl; eauto; lia).
    simpl. lia.
Qed.

Lemma parse_exp_digits_length (neg : bool) (s : string) (e : Z) (rest : string) :
  parse_exp_digits neg s = Some (e, rest) -> (len rest <= len s)%nat.
Proof.
  unfold parse_exp_digits. destruct (span_digits s) as [ds r] eqn:E.
  apply span_digits_length in E. destruct ds; [discriminate|].
  intros [= <- <-]. lia.
Qed.

Lemma parse_unsigned_length (neg : bool) (s : string) (n : num) (rest : string) :
  parse_unsigned neg s = Some (n, rest) -> (len rest < len s)%nat.
Proof.
  unfold parse_unsigned.
  destruct (parse_int_part s) as [[ip s1]|] eqn:Ei; [|discriminate].
  assert (H1 : (len s1 < len s)%nat).
  { unfold parse_int_part in Ei. destruct s as [|c r]; [discriminate|].
    destruct (Ascii.eqb c "0").
    - injection Ei as <- <-. simpl. lia.
    - destruct (is_digit c) eqn:D; [|discriminate].
      injection Ei as Ei. simpl in Ei. rewrite D in Ei.
      destruct (span_digits r) as [d r'] eqn:Er. injection Ei as <- <-.
      apply span_digits_length in Er. simpl. lia. }
  destruct (parse_frac_part s1) as [[fp s2]|] eqn:Ef; [|discriminate].
  assert (H2 : (len s2 <= len s1)%nat).
  { unfold parse_frac_part in Ef. destruct s1 as [|c r].
    - injection Ef as <- <-. lia.
    - destruct (Ascii.eqb c ".").
      + destruct (span_digits r) as [d r'] eqn:Er.
        apply span_digits_length in Er.
        destruct d; [discriminate|]. injection Ef as <- <-. simpl. lia.
      + injection Ef as <- <-. lia. }
  destruct (parse_exp_part s2) as [[e s3]|] eqn:Ee; [|discriminate].
  assert (H3 : (len s3 <= len s2)%nat).
  { unfold parse_exp_part in Ee. destruct s2 as [|c r].
    - injection Ee as <- <-. lia.
    - destruct (Ascii.eqb c "e" || Ascii.eqb c "E").
      + destruct r as [|sg r']; [discriminate|].
        destruct (Ascii.eqb sg "-");
          [apply parse_exp_digits_length in Ee; simpl in *; lia|].
        destruct (Ascii.eqb sg "+");
          apply parse_exp_digits_length in Ee; simpl in *; lia.
      + injection Ee as <- <-. lia. }
  intros [= <- <-]. lia.
Qed.

Lemma parse_number_length (s : string) (n : num) (rest : string) :
  parse_number s = Some (n, rest) -> (len rest < len s)%nat.
Proof.
  unfold parse_number. destruct s as [|c r]; [discriminate|].
  destruct (Ascii.eqb c "-"); intros H; apply parse_unsigned_length in H;
    simpl in *; lia.
Qed.

Lemma literal_length (word : string) (v v' : json) (s rest : string) :
  literal word v s = Some (v', rest) -> (len s = len word + len rest)%nat.
Proof.
  unfold literal. destruct (strip_prefix word s) eqn:E; [|discriminate].
  intros [= <- <-]. now apply strip_prefix_length.
Qed.

Local Arguments parse_number : simpl never.
Local Arguments parse_chars : simpl never.

(** Each of the three readers consumes what it reads. *)
Lemma parse_consumes (fuel : nat) :
  (forall s v rest, parse_value fuel s = Some (v, rest) -> (len rest < len s)%nat)
  /\ (forall s acc v rest,
         parse_elements fuel s acc = Some (v, rest) -> (len rest < len s)%nat)
  /\ (forall s acc v rest,
         parse_members fuel s acc = Some (v, rest) -> (len rest < len s)%nat).
Proof.
  induction fuel as [|f (IHv & IHe & IHm)]; [repeat split; discriminate|].
  repeat split.
  - intros s v rest. simpl.
    pose proof (skip_ws_length s) as Hs.
    destruct (skip_ws s) as [|c r]; [discriminate|]. simpl in Hs.
    destruct (Ascii.eqb c "{").
    { pose proof (skip_ws_length r) as Hr.
      destruct (skip_ws r) as [|c1 r1]; [discriminate|]. simpl in Hr.
      destruct (Ascii.eqb c1 "}").
      - intros [= <- <-]. lia.
      - intros H. apply IHm in H. simpl in H. lia. }
    destruct (Ascii.eqb c "[").
    { pose proof (skip_ws_length r) as Hr.
      destruct (skip_ws r) as [|c1 r1]; [discriminate|]. simpl in Hr.
      destruct (Ascii.eqb c1 "]").
      - intros [= <- <-]. lia.
      - intros H. apply IHe in H. simpl in H. lia. }
    destruct (Ascii.eqb c Str.dq).
    { destruct (parse_chars r) as [[t rest']|] eqn:E; [|discriminate].
      apply parse_chars_length in E. intros [= <- <-]. lia. }
    destruct (Ascii.eqb c "t").
    { intros H. apply literal_length in H. simpl in H. lia. }
    destruct (Ascii.eqb c "f").
    { intros H. apply literal_length in H. simpl in H. lia. }
    destruct (Ascii.eqb c "n").
    { intros H. apply literal_length in H. simpl in H. lia. }
    destruct (parse_number (String c r)) as [[n rest']|] eqn:E; [|discriminate].
    apply parse_number_length in E. simpl in E. intros [= <- <-]. lia.
  - intros s acc v rest. simpl.
    destruct (parse_value f s) as [[v1 s1]|] eqn:E; [|discriminate].
    apply IHv in E. pose proof (skip_ws_length s1) as Hs.
    destruct (skip_ws s1) as [|c r]; [discriminate|]. simpl in Hs.
    destruct (Ascii.eqb c ",").
    + intros H. apply IHe in H. lia.
    + destruct (Ascii.eqb c "]"); [|discriminate]. intros [= <- <-]. lia.
  - intros s acc v rest. simpl.
    pose proof (skip_ws_length s) as Hs.
    destruct (skip_ws s) as [|q r]; [discriminate|]. simpl in Hs.
    destruct (Ascii.eqb q Str.dq); [|discriminate].
    destruct (parse_chars r) as [[k s1]|] eqn:Ek; [|discriminate].
    apply parse_chars_length in Ek. pose proof (skip_ws_length s1) as Hs1.
    destruct (skip_ws s1) as [|c s2]; [discriminate|]. simpl in Hs1.
    destruct (Ascii.eqb c ":"); [|discriminate].
    destruct (parse_value f s2) as [[v1 s3]|] eqn:Ev; [|discriminate].
    apply IHv in Ev. pose proof (skip_ws_length s3) as Hs3.
    destruct (skip_ws s3) as [|d s4]; [discriminate|]. simpl in Hs3.
    destruct (Ascii.eqb d ",").
    + intros H. apply IHm in H. lia.
    + destruct (Ascii.eqb d "}"); [|discriminate]. intros [= <- <-]. lia.
Qed.

(** With fuel above twice the length of the text, more fuel changes
    nothing: no answer of the readers is due to the fuel. *)
Lemma parse_fuel_irrelevant (n : nat) :
  (forall f1 f2 s, (2 * len s + 1 <= n)%nat -> (n <= f1)%nat -> (n <= f2)%nat ->
                   parse_value f1 s = parse_value f2 s)
  /\ (forall f1 f2 s acc, (2 * len s + 2 <= n)%nat -> (n <= f1)%nat -> (n <= f2)%nat ->
                          parse_elements f1 s acc = parse_elements f2 s acc)
  /\ (forall f1 f2 s acc, (2 * len s + 2 <= n)%nat -> (n <= f1)%nat -> (n <= f2)%nat ->
                          parse_members f1 s acc = parse_members f2 s acc).
Proof.
  induction n as [n IH] using lt_wf_ind.
  assert (IHv : forall f1 f2 s, (2 * len s + 1 < n)%nat -> (n - 1 <= f1)%nat ->
                  (n - 1 <= f2)%nat -> parse_value f1 s = parse_value f2 s).
  { intros f1 f2 s Hs H1 H2.
    apply (proj1 (IH (2 * len s + 1)%nat Hs)); lia. }
  assert (IHe : forall f1 f2 s acc, (2 * len s + 2 < n)%nat -> (n - 1 <= f1)%nat ->
                  (n - 1 <= f2)%nat -> parse_elements f1 s acc = parse_elements f2 s acc).
  { intros f1 f2 s acc Hs H1 H2.
    apply (proj1 (proj2 (IH (2 * len s + 2)%nat Hs))); lia. }
  assert (IHm : forall f1 f2 s acc, (2 * len s + 2 < n)%nat -> (n - 1 <= f1)%nat ->
                  (n - 1 <= f2)%nat -> parse_members f1 s acc = parse_members f2 s acc).
  { intros f1 f2 s acc Hs H1 H2.
    apply (proj2 (proj2 (IH (2 * len s + 2)%nat Hs))); lia. }
  clear IH. repeat split.
  - intros f1 f2 s Hs H1 H2.
    destruct f1 as [|f1]; [lia|]. destruct f2 as [|f2]; [lia|]. simpl.
    pose proof (skip_ws_length s) as Hw.
    destruct (skip_ws s) as [|c r]; [reflexivity|]. simpl in Hw.
    destruct (Ascii.eqb c "{").
    { pose proof (skip_ws_length r) as Hr.
      destruct (skip_ws r) as [|c1 r1]; [reflexivity|]. simpl in Hr.
      destruct (Ascii.eqb c1 "}"); [reflexivity|].
      apply IHm; simpl; lia. }
    destruct (Ascii.eqb c "[").
    { pose proof (skip_ws_length r) as Hr.
      destruct (skip_ws r) as [|c1 r1]; [reflexivity|]. simpl in Hr.
      destruct (Ascii.eqb c1 "]"); [reflexivity|].
      apply IHe; simpl; lia. }
    reflexivity.
  - intros f1 f2 s acc Hs H1 H2.
    destruct f1 as [|f1]; [lia|]. destruct f2 as [|f2]; [lia|]. simpl.
    rewrite (IHv f1 f2 s) by lia.
    destruct (parse_value f2 s) as [[v s1]|] eqn:E; [|reflexivity].
    apply (proj1 (parse_consumes f2)) in E.
    pose proof (skip_ws_length s1) as Hw.
    destruct (skip_ws s1) as [|c r]; [reflexivity|]. simpl in Hw.
    destruct (Ascii.eqb c ","); [|reflexivity].
    apply IHe; lia.
  - intros f1 f2 s acc Hs H1 H2.
    destruct f1 as [|f1]; [lia|]. destruct f2 as [|f2]; [lia|]. simpl.
    pose proof (skip_ws_length s) as Hw.
    destruct (skip_ws s) as [|q r]; [reflexivity|]. simpl in Hw.
    destruct (Ascii.eqb q Str.dq); [|reflexivity].
    destruct (parse_chars r) as [[k s1]|] eqn:Ek; [|reflexivity].
    apply parse_chars_length in Ek. pose proof (skip_ws_length s1) as Hs1.
    destruct (skip_ws s1) as [|c s2]; [reflexivity|]. simpl in Hs1.
    destruct (Ascii.eqb c ":"); [|reflexivity].
    rewrite (IHv f1 f2 s2) by lia.
    destruct (parse_value f2 s2) as [[v s3]|] eqn:Ev; [|reflexivity].
    apply (proj1 (parse_consumes f2)) in Ev.
    pose proof (skip_ws_length s3) as Hs3.
    destruct (skip_ws s3) as [|d s4]; [reflexivity|]. simpl in Hs3.
    destruct (Ascii.eqb d ","); [|reflexivity].
    apply IHm; lia.
Qed.

(** [JSON.parse] with any larger fuel gives the same answer. *)
Lemma parse_fuel_enough (s : string) (more : nat) :
  parse_value (S (2 * len s) + more) s = parse_value (S (2 * len s)) s.
Proof.
  apply (proj1 (parse_fuel_irrelevant (2 * len s + 1))); lia.
Qed.

End ParserFuel.

(** ** Numbers as text *)

Section DigitFacts.

Import JsonText.
Local Open Scope Z_scope.

Local Abbreviation len := String.length.

Lemma digits_acc_app (acc : Z) (a b : string) :
  digits_acc acc (a ++ b) = digits_acc (digits_acc acc a) b.
Proof.
  revert acc. induction a as [|c a IH]; intros acc; simpl; [reflexivity|].
  apply IH.
Qed.

Lemma digits_acc_shift (acc : Z) (s : string) :
  digits_acc acc s = acc * 10 ^ Z.of_nat (len s) + digits_acc 0 s.
Proof.
  revert acc. induction s as [|c s IH]; intros acc.
  - simpl. lia.
  - cbn [digits_acc len]. rewrite IH, (IH (10 * 0 + _)).
    rewrite Nat2Z.inj_succ, Z.pow_succ_r by lia. ring.
Qed.

Lemma digits_acc_zeros (acc : Z) (k : nat) :
  digits_acc acc (zeros k) = acc * 10 ^ Z.of_nat k.
Proof.
  revert acc. induction k as [|k IH]; intros acc.
  - simpl. lia.
  - cbn [zeros digits_acc]. rewrite IH.
    rewrite Nat2Z.inj_succ, Z.pow_succ_r by lia.
    change (Z.of_nat (nat_of_ascii "0") - 48) with 0. ring.
Qed.

Lemma all_digits_zeros (k : nat) : Spec.all_digits (zeros k) = true.
Proof. induction k as [|k IH]; simpl; [reflexivity | exact IH]. Qed.

Lemma len_zeros (k : nat) : len (zeros k) = k.
Proof. induction k as [|k IH]; simpl; [reflexivity | now rewrite IH]. Qed.

Lemma all_digits_app (a b : string) :
  Spec.all_digits (a ++ b) = Spec.all_digits a && Spec.all_digits b.
Proof.
  induction a as [|c a IH]; simpl; [reflexivity|].
  rewrite IH. now rewrite andb_assoc.
Qed.

Lemma len_app (a b : string) : len (a ++ b) = (len a + len b)%nat.
Proof. induction a as [|c a IH]; simpl; [reflexivity | now rewrite IH]. Qed.

Lemma digit_char_spec (d : Z) :
  0 <= d <= 9 ->
  is_digit (digit_char d) = true
  /\ Z.of_nat (nat_of_ascii (digit_char d)) - 48 = d
  /\ (d <> 0 -> Ascii.eqb (digit_char d) "0" = false).
Proof.
  intros H.
  assert (E : d = 0 \/ d = 1 \/ d = 2 \/ d = 3 \/ d = 4 \/ d = 5 \/ d = 6
              \/ d = 7 \/ d = 8 \/ d = 9) by lia.
  repeat (destruct E as [-> | E]; [repeat split; (reflexivity || congruence)|]).
  subst d. repeat split; reflexivity || congruence.
Qed.

(** What [digits_onto] writes: digits whose value is [n], without a leading
    zero, put in front of what was there. *)
Lemma digits_onto_spec (fuel : nat) :
  forall n, (0 < fuel)%nat -> 0 <= n < 2 ^ Z.of_nat fuel ->
  exists c ds,
    (forall acc, digits_onto fuel n acc = String c ds ++ acc)
    /\ Spec.all_digits (String c ds) = true
    /\ digits_acc 0 (String c ds) = n
    /\ (0 < n -> Ascii.eqb c "0" = false).
Proof.
  induction fuel as [|f IH]; intros n Hfuel Hn.
  - lia.
  - cbn [digits_onto].
    assert (Hmod : 0 <= n mod 10 <= 9) by (pose proof (Z.mod_pos_bound n 10); lia).
    destruct (digit_char_spec _ Hmod) as (Hd & Hv & Hz).
    destruct (n <? 10) eqn:E.
    + apply Z.ltb_lt in E. rewrite Z.mod_small in * by lia.
      exists (digit_char n), EmptyString. repeat split.
      * cbn [Spec.all_digits]. now rewrite Hd.
      * cbn [digits_acc]. lia.
      * intros Hpos. apply Hz. lia.
    + apply Z.ltb_ge in E.
      assert (Hq : 0 <= n / 10 < 2 ^ Z.of_nat f).
      { split; [apply Z.div_pos; lia|].
        apply Z.div_lt_upper_bound; [lia|].
        rewrite Nat2Z.inj_succ, Z.pow_succ_r in Hn by lia. lia. }
      assert (Hf : (0 < f)%nat).
      { destruct f; [|lia]. simpl in Hq.
        assert (1 <= n / 10) by (apply Z.div_le_lower_bound; lia). lia. }
      destruct (IH _ Hf Hq) as (c & ds & Hon & Hall & Hval & Hfirst).
      exists c, (ds ++ String (digit_char (n mod 10)) EmptyString).
      repeat split.
      * intros acc. rewrite Hon. simpl. now rewrite append_assoc.
      * change (Spec.all_digits
                  (String c ds ++ String (digit_char (n mod 10)) EmptyString) = true).
        rewrite all_digits_app, Hall. cbn [Spec.all_digits]. now rewrite Hd.
      * change (digits_acc 0 (String c ds ++ String (digit_char (n mod 10)) EmptyString)
                = n).
        rewrite digits_acc_app, Hval. cbn [digits_acc]. rewrite Hv.
        pose proof (Z.div_mod n 10). lia.
      * intros _. apply Hfirst. apply Z.div_str_pos. lia.
Qed.

(** The digits of a natural number. *)
Lemma digits_of_spec (n : Z) :
  0 <= n ->
  exists c ds,
    digits_of n = String c ds
    /\ Spec.all_digits (String c ds) = true
    /\ digits_value (String c ds) = n
    /\ (0 < n -> Ascii.eqb c "0" = false).
Proof.
  intros Hn. unfold digits_of.
  assert (Hf : 0 <= n < 2 ^ Z.of_nat (S (Z.to_nat (Z.log2 n)))).
  { split; [exact Hn|]. rewrite Nat2Z.inj_succ, Z2Nat.id by apply Z.log2_nonneg.
    destruct (Z.eq_dec n 0) as [-> | Hz]; [reflexivity|].
    apply Z.log2_spec. lia. }
  destruct (digits_onto_spec _ _ (Nat.lt_0_succ _) Hf)
    as (c & ds & Hon & Hall & Hval & Hfirst).
  exists c, ds. rewrite Hon, append_nil_r. auto.
Qed.

Lemma span_digits_app (ds rest : string) :
  Spec.all_digits ds = true ->
  Spec.not_digit_start rest ->
  span_digits (ds ++ rest) = (ds, rest).
Proof.
  intros Hall Hrest. induction ds as [|c ds IH]; simpl.
  - destruct rest as [|c r]; [reflexivity|]. simpl. now rewrite Hrest.
  - simpl in Hall. apply andb_true_iff in Hall as [Hc Hds].
    rewrite Hc, (IH Hds). reflexivity.
Qed.

End DigitFacts.

Section NumberText.

Import JsonText.
Local Open Scope Z_scope.

Local Abbreviation len := String.length.

(** *** Canonical decimals *)

Lemma strip10_fixed (f : nat) (m e : Z) :
  m <> 0 -> m mod 10 <> 0 -> strip10 (S f) m e = Num m e.
Proof.
  intros Hm Hmod. simpl.
  destruct (Z.eqb_spec m 0); [contradiction|].
  destruct (Z.eqb_spec (m mod 10) 0); [contradiction | reflexivity].
Qed.

Lemma strip10_pow (m : Z) :
  m <> 0 -> m mod 10 <> 0 ->
  forall (k f : nat) (e : Z),
    (k < f)%nat -> strip10 f (m * 10 ^ Z.of_nat k) e = Num m (e + Z.of_nat k).
Proof.
  intros Hm Hmod. induction k as [|k IH]; intros f e Hk.
  - destruct f as [|f]; [lia|].
    rewrite Z.pow_0_r, Z.mul_1_r, Z.add_0_r. now apply strip10_fixed.
  - destruct f as [|f]; [lia|].
    rewrite Nat2Z.inj_succ, Z.pow_succ_r by lia.
    replace (m * (10 * 10 ^ Z.of_nat k)) with ((m * 10 ^ Z.of_nat k) * 10) by ring.
    cbn [strip10].
    assert (Hp : 0 < 10 ^ Z.of_nat k) by (apply Z.pow_pos_nonneg; lia).
    destruct (Z.eqb_spec (m * 10 ^ Z.of_nat k * 10) 0) as [E|_]; [nia|].
    rewrite Z.mod_mul by lia. cbn [Z.eqb].
    rewrite Z.div_mul by lia. rewrite IH by lia. f_equal. lia.
Qed.

Lemma norm_pow (m e : Z) (k : nat) :
  m <> 0 -> m mod 10 <> 0 -> norm (m * 10 ^ Z.of_nat k) e = Num m (e + Z.of_nat k).
Proof.
  intros Hm Hmod. unfold norm. apply strip10_pow; [assumption..|].
  assert (Hp : 2 ^ Z.of_nat k <= Z.abs (m * 10 ^ Z.of_nat k)).
  { rewrite Z.abs_mul.
    assert (2 ^ Z.of_nat k <= 10 ^ Z.of_nat k)
      by (apply Z.pow_le_mono_l; lia).
    assert (0 < 2 ^ Z.of_nat k) by (apply Z.pow_pos_nonneg; lia).
    rewrite (Z.abs_eq (10 ^ _)) by lia. nia. }
  apply Z.log2_le_mono in Hp. rewrite Z.log2_pow2 in Hp by lia. lia.
Qed.

Lemma norm_fixed (m e : Z) : m <> 0 -> m mod 10 <> 0 -> norm m e = Num m e.
Proof. intros. unfold norm. now apply strip10_fixed. Qed.

Lemma strip10_expo (f : nat) :
  forall m e, m <> 0 -> e <= expo (strip10 f m e).
Proof.
  induction f as [|f IH]; intros m e Hm; simpl; [lia|].
  destruct (Z.eqb_spec m 0); [contradiction|].
  destruct (Z.eqb_spec (m mod 10) 0) as [E|_]; [|simpl; lia].
  assert (m / 10 <> 0).
  { intros H. pose proof (Z.div_mod m 10). lia. }
  specialize (IH (m / 10) (e + 1) H). lia.
Qed.

(** A canonical decimal is zero, written [Num 0 0], or has a mantissa that
    ten does not divide. *)
Lemma canonical_num_cases (x : num) :
  Spec.canonical_num x = true ->
  x = Num 0 0 \/ (mant x <> 0 /\ mant x mod 10 <> 0).
Proof.
  destruct x as [m e]. unfold Spec.canonical_num, num_eqb. cbn [mant expo].
  intros H. apply andb_true_iff in H as [Hm He].
  apply Z.eqb_eq in Hm, He.
  destruct (Z.eq_dec m 0) as [-> | Hnz].
  - left. f_equal. now rewrite <- He.
  - right. split; [exact Hnz|]. intros Hmod.
    unfold norm in He. cbn [strip10] in He.
    destruct (Z.eqb_spec m 0); [contradiction|].
    rewrite Hmod in He. cbn [Z.eqb] in He.
    assert (m / 10 <> 0).
    { intros H. pose proof (Z.div_mod m 10). lia. }
    pose proof (strip10_expo (Z.to_nat (Z.log2 (Z.abs m))) (m / 10) (e + 1) H).
    lia.
Qed.

(** *** The parts of a number *)

Lemma ends_number_not_digit (rest : string) :
  Spec.ends_number rest = true -> Spec.not_digit_start rest.
Proof.
  destruct rest as [|c r]; simpl; [trivial|].
  intros H. apply negb_true_iff in H.
  repeat (apply orb_false_iff in H as [H ?]). exact H.
Qed.

Lemma parse_frac_part_none (rest : string) :
  Spec.ends_number rest = true -> parse_frac_part rest = Some (EmptyString, rest).
Proof.
  destruct rest as [|c r]; simpl; [reflexivity|].
  intros H. apply negb_true_iff in H.
  repeat (apply orb_false_iff in H as [H ?]).
  unfold parse_frac_part.
  match goal with E : Ascii.eqb c "." = false |- _ => now rewrite E end.
Qed.

Lemma parse_exp_part_none (rest : string) :
  Spec.ends_number rest = true -> parse_exp_part rest = Some (0, rest).
Proof.
  destruct rest as [|c r]; simpl; [reflexivity|].
  intros H. apply negb_true_iff in H.
  repeat (apply orb_false_iff in H as [H ?]).
  unfold parse_exp_part.
  repeat match goal with E : Ascii.eqb c _ = false |- _ => rewrite E; clear E end.
  reflexivity.
Qed.

Lemma parse_int_part_digits (c : ascii) (ds tail : string) :
  Spec.all_digits (String c ds) = true ->
  Ascii.eqb c "0" = false ->
  Spec.not_digit_start tail ->
  parse_int_part (String c ds ++ tail) = Some (String c ds, tail).
Proof.
  intros Hall Hc Ht. unfold parse_int_part.
  cbn [append]. rewrite Hc. pose proof Hall as Hall'.
  cbn [Spec.all_digits] in Hall'.
  apply andb_true_iff in Hall' as [Hd _]. rewrite Hd.
  change (String c (ds ++ tail)) with (String c ds ++ tail).
  now rewrite span_digits_app.
Qed.

Lemma parse_frac_part_digits (fp tail : string) :
  fp <> EmptyString ->
  Spec.all_digits fp = true ->
  Spec.not_digit_start tail ->
  parse_frac_part (String "." (fp ++ tail)) = Some (fp, tail).
Proof.
  intros Hne Hall Ht. unfold parse_frac_part. cbn [Ascii.eqb Bool.eqb].
  rewrite span_digits_app by assumption. now destruct fp.
Qed.

Lemma substring_all (s : string) : String.substring 0 (len s) s = s.
Proof. induction s as [|c s IH]; simpl; [reflexivity | now rewrite IH]. Qed.

(** Cutting a string at a position within it. *)
Lemma substring_split (s : string) :
  forall p, (p <= len s)%nat ->
    String.substring 0 p s ++ String.substring p (len s - p) s = s
    /\ len (String.substring 0 p s) = p.
Proof.
  induction s as [|c s IH]; intros p Hp.
  - destruct p; [split; reflexivity | simpl in Hp; lia].
  - destruct p as [|p].
    + cbn [String.substring len Nat.sub append]. split; [|reflexivity].
      now rewrite substring_all.
    + simpl in Hp. destruct (IH p ltac:(lia)) as [E L].
      cbn [String.substring len Nat.sub append]. rewrite E, L. auto.
Qed.

Lemma parse_exp_digits_of (neg : bool) (n : Z) (tail : string) :
  0 <= n -> Spec.not_digit_start tail ->
  parse_exp_digits neg (digits_of n ++ tail)
  = Some (if neg then - n else n, tail).
Proof.
  intros Hn Ht. destruct (digits_of_spec n Hn) as (c & ds & -> & Hall & Hval & _).
  unfold parse_exp_digits. rewrite span_digits_app by assumption.
  now rewrite Hval.
Qed.

(** *** Reading a number back *)

Lemma opp_mod10 (a : Z) : a mod 10 <> 0 -> (- a) mod 10 <> 0.
Proof.
  intros H E. apply H.
  pose proof (Z.div_mod a 10 ltac:(lia)). pose proof (Z.div_mod (- a) 10 ltac:(lia)).
  pose proof (Z.mod_pos_bound a 10 ltac:(lia)). lia.
Qed.

Lemma all_digits_split (a b : string) :
  Spec.all_digits (a ++ b) = true ->
  Spec.all_digits a = true /\ Spec.all_digits b = true.
Proof. rewrite all_digits_app. apply andb_true_iff. Qed.

Lemma parse_int_part_zero (tail : string) :
  parse_int_part (String "0" tail) = Some (String "0" EmptyString, tail).
Proof. reflexivity. Qed.

Lemma parse_exp_part_signed (ex : Z) (tail : string) :
  Spec.not_digit_start tail ->
  parse_exp_part
    (String "e" ((if 0 <=? ex then "+" else "-") ++ digits_of (Z.abs ex) ++ tail))
  = Some (ex, tail).
Proof.
  intros Ht. unfold parse_exp_part. cbn [Ascii.eqb Bool.eqb orb].
  destruct (0 <=? ex) eqn:E; cbn [append Ascii.eqb Bool.eqb].
  - apply Z.leb_le in E. rewrite parse_exp_digits_of by (assumption || lia).
    now rewrite Z.abs_eq by lia.
  - apply Z.leb_gt in E. rewrite parse_exp_digits_of by (assumption || lia).
    f_equal. f_equal. lia.
Qed.

(** The digits of [a] with the decimal point placed as for the exponent [e]
    are read back as [a * 10 ^ e], with its sign. *)
Lemma parse_unsigned_place_point (neg : bool) (a e : Z) (rest : string) :
  0 < a -> a mod 10 <> 0 ->
  Spec.ends_number rest = true ->
  let ds := digits_of a in
  parse_unsigned neg (place_point ds (Z.of_nat (len ds) + e) ++ rest)
  = Some (Num (if neg then - a else a) e, rest).
Proof.
  intros Ha Hmod Hrest ds.
  destruct (digits_of_spec a ltac:(lia)) as (c & ds' & Hds & Hall & Hval & Hc).
  specialize (Hc Ha). subst ds. rewrite Hds.
  set (k := Z.of_nat (len (String c ds'))).
  set (sgn := if neg then - a else a).
  assert (Hsgn : sgn <> 0 /\ sgn mod 10 <> 0).
  { unfold sgn. destruct neg; split; try lia. now apply opp_mod10. }
  destruct Hsgn as [Hs0 Hs10].
  assert (Hsign : forall v, (if neg then - v else v) = (if neg then -1 else 1) * v).
  { intros v. destruct neg; ring. }
  pose proof (ends_number_not_digit _ Hrest) as Hnd.
  pose proof (parse_frac_part_none _ Hrest) as Hfrac.
  pose proof (parse_exp_part_none _ Hrest) as Hexp.
  unfold place_point. fold k.
  destruct ((k <=? k + e) && (k + e <=? 21)) eqn:CA.
  { (* digits followed by zeros *)
    apply andb_true_iff in CA as [C1 C2]. apply Z.leb_le in C1, C2.
    replace (k + e - k) with e by lia.
    unfold parse_unsigned. rewrite append_assoc.
    rewrite <- (append_assoc (String c ds')).
    assert (Hall' : Spec.all_digits (String c ds' ++ zeros (Z.to_nat e)) = true)
      by (rewrite all_digits_app, Hall, all_digits_zeros; reflexivity).
    change (String c ds' ++ zeros (Z.to_nat e))
      with (String c (ds' ++ zeros (Z.to_nat e))) in *.
    rewrite (parse_int_part_digits c _ rest Hall' Hc Hnd).
    rewrite Hfrac, Hexp. rewrite append_nil_r.
    unfold digits_value.
    change (String c (ds' ++ zeros (Z.to_nat e)))
      with (String c ds' ++ zeros (Z.to_nat e)).
    rewrite digits_acc_app, digits_acc_zeros. fold (digits_value (String c ds')).
    rewrite Hval. cbn [len]. rewrite Z.sub_0_r.
    rewrite Hsign, Z.mul_assoc, <- Hsign. fold sgn.
    rewrite norm_pow by assumption. do 3 f_equal. lia. }
  destruct ((0 <? k + e) && (k + e <=? 21)) eqn:CB.
  { (* the point inside the digits *)
    apply andb_true_iff in CB as [C1 C2]. apply Z.ltb_lt in C1. apply Z.leb_le in C2.
    apply andb_false_iff in CA. rewrite Z.leb_gt, Z.leb_gt in CA.
    assert (Hlt : k + e < k) by lia.
    assert (Hk : k = Z.of_nat (len (String c ds'))) by reflexivity.
    clearbody k.
    assert (Hle : (Z.to_nat (k + e) <= len (String c ds'))%nat) by lia.
    destruct (substring_split (String c ds') (Z.to_nat (k + e)) Hle)
      as [Hsplit Hlen].
    replace (Z.to_nat (k - (k + e)))
      with (len (String c ds') - Z.to_nat (k + e))%nat by lia.
    set (ip := String.substring 0 (Z.to_nat (k + e)) (String c ds')) in *.
    set (fp := String.substring (Z.to_nat (k + e))
                 (len (String c ds') - Z.to_nat (k + e)) (String c ds')) in *.
    assert (Hfp : len fp = Z.to_nat (- e)).
    { pose proof (f_equal len Hsplit) as L. rewrite len_app, Hlen in L.
      lia. }
    rewrite <- Hsplit in Hall, Hval.
    apply all_digits_split in Hall as [Hip Hfpd].
    assert (Hipc : exists ip', ip = String c ip').
    { destruct ip as [|c0 ip'] eqn:Eip; [simpl in Hlen; lia|].
      injection Hsplit as -> _. now exists ip'. }
    destruct Hipc as [ip' Eip]. rewrite Eip in *.
    assert (Hfpne : fp <> EmptyString) by (intros E; rewrite E in Hfp; simpl in Hfp; lia).
    unfold parse_unsigned. rewrite !append_assoc. cbn [append].
    change (String c (ip' ++ String "." (fp ++ rest)))
      with (String c ip' ++ String "." (fp ++ rest)).
    rewrite (parse_int_part_digits c ip' _ Hip Hc) by reflexivity.
    rewrite (parse_frac_part_digits fp rest Hfpne Hfpd Hnd).
    rewrite Hexp, Hval. fold sgn. rewrite Hfp.
    rewrite norm_fixed by assumption. do 3 f_equal. lia. }
  destruct ((-6 <? k + e) && (k + e <=? 0)) eqn:CC.
  { (* zeros between the point and the digits *)
    apply andb_true_iff in CC as [C1 C2]. apply Z.ltb_lt in C1. apply Z.leb_le in C2.
    set (j := Z.to_nat (- (k + e))).
    unfold parse_unsigned. rewrite !append_assoc.
    rewrite <- (append_assoc (zeros j)). cbn [append].
    rewrite parse_int_part_zero.
    assert (Hfpd : Spec.all_digits (zeros j ++ String c ds') = true)
      by (rewrite all_digits_app, all_digits_zeros, Hall; reflexivity).
    assert (Hfpne : zeros j ++ String c ds' <> EmptyString)
      by (destruct j; discriminate).
    rewrite (parse_frac_part_digits _ rest Hfpne Hfpd Hnd), Hexp.
    unfold digits_value. cbn [append digits_acc].
    change (10 * 0 + (Z.of_nat (nat_of_ascii "0") - 48)) with 0.
    rewrite digits_acc_app, digits_acc_zeros, Z.mul_0_l.
    fold (digits_value (String c ds')). rewrite Hval. fold sgn.
    rewrite len_app, len_zeros.
    rewrite norm_fixed by assumption. do 3 f_equal. unfold j, k. lia. }
  (* a mantissa and an exponent *)
  apply andb_false_iff in CA, CB, CC.
  rewrite !Z.leb_gt in CA, CB, CC. rewrite Z.ltb_ge in CB, CC.
  assert (Hone : Spec.all_digits (String c EmptyString) = true).
  { cbn [Spec.all_digits] in *. apply andb_true_iff in Hall as [-> _]. reflexivity. }
  unfold parse_unsigned. destruct ds' as [|c2 r].
  - rewrite !append_assoc.
    change (String c EmptyString ++ ?x) with (String c EmptyString ++ x).
    cbn [append].
    change (String c (String "e" ?x)) with (String c EmptyString ++ String "e" x).
    rewrite (parse_int_part_digits c EmptyString _ Hone Hc) by reflexivity.
    change (parse_frac_part (String "e" ?x)) with (Some (EmptyString, String "e" x)).
    cbv beta iota. rewrite (parse_exp_part_signed _ rest Hnd).
    rewrite append_nil_r, Hval. fold sgn. cbn [len].
    rewrite norm_fixed by assumption. do 3 f_equal. unfold k. cbn [len]. lia.
  - rewrite !append_assoc. cbn [append].
    change (String c (String "." (String c2 (r ++ String "e" ?x))))
      with (String c EmptyString ++ String "." (String c2 r ++ String "e" x)).
    rewrite (parse_int_part_digits c EmptyString _ Hone Hc) by reflexivity.
    assert (Hfpd : Spec.all_digits (String c2 r) = true).
    { cbn [Spec.all_digits] in Hall. apply andb_true_iff in Hall as [_ H]. exact H. }
    rewrite (parse_frac_part_digits (String c2 r) _ ltac:(discriminate) Hfpd)
      by reflexivity.
    rewrite (parse_exp_part_signed _ rest Hnd).
    cbn [append]. rewrite Hval. fold sgn.
    rewrite norm_fixed by assumption. do 3 f_equal. unfold k. cbn [len]. lia.
Qed.


Lemma parse_number_unsigned (s : string) (r : num * string) :
  parse_unsigned false s = Some r -> parse_number s = Some r.
Proof.
  destruct s as [|c s]; [discriminate|]. unfold parse_number.
  destruct (Ascii.eqb_spec c "-") as [-> | _]; [discriminate | trivial].
Qed.

(** A canonical decimal is read back from its text. *)
Lemma parse_number_round_trip (x : num) (rest : string) :
  Spec.canonical_num x = true ->
  Spec.ends_number rest = true ->
  parse_number (num_to_string x ++ rest) = Some (x, rest).
Proof.
  intros Hx Hrest. pose proof (canonical_num_cases x Hx) as [-> | [Hm Hmod]].
  - change (num_to_string (Num 0 0)) with "0". cbn [append].
    apply parse_number_unsigned. unfold parse_unsigned.
    rewrite parse_int_part_zero, (parse_frac_part_none _ Hrest),
      (parse_exp_part_none _ Hrest).
    reflexivity.
  - destruct x as [m e]. cbn [mant expo] in *.
    unfold num_to_string. cbn [mant expo]. rewrite norm_fixed by assumption.
    cbn [mant expo].
    destruct (Z.eqb_spec m 0); [contradiction|].
    destruct (Z.ltb_spec m 0) as [Hneg | Hpos].
    + cbn [append]. unfold parse_number. cbn [Ascii.eqb Bool.eqb].
      rewrite parse_unsigned_place_point;
        [| lia | rewrite Z.abs_neq by lia; now apply opp_mod10 | assumption].
      do 3 f_equal. lia.
    + apply parse_number_unsigned.
      rewrite parse_unsigned_place_point;
        [| lia | rewrite Z.abs_eq by lia; assumption | assumption].
      do 3 f_equal. lia.
Qed.

End NumberText.

(** ** Values as text *)

Section JsonRoundTrip.

Import JsonText.
Local Abbreviation len := String.length.

(** An escaped character is read back as the character. *)
Lemma parse_chars_escape_char (c : ascii) (tail : string) :
  parse_chars (escape_char c ++ tail)
  = match parse_chars tail with
    | Some (t, rest) => Some (String c t, rest)
    | None => None
    end.
Proof.
  destruct c as [b0 b1 b2 b3 b4 b5 b6 b7].
  destruct b0, b1, b2, b3, b4, b5, b6, b7; reflexivity.
Qed.

(** A string is read back from its quoted text. *)
Lemma parse_chars_escape (s rest : string) :
  parse_chars (escape s ++ String Str.dq rest) = Some (s, rest).
Proof.
  induction s as [|c s IH].
  - reflexivity.
  - cbn [escape]. rewrite append_assoc, parse_chars_escape_char, IH. reflexivity.
Qed.


(** Induction on a value, with the hypothesis for the values inside it. *)
Lemma json_induction (P : json -> Prop) :
  P JNull ->
  (forall b, P (JBool b)) ->
  (forall n, P (JNum n)) ->
  (forall s, P (JStr s)) ->
  (forall l, Forall P l -> P (JArr l)) ->
  (forall fs, Forall (fun kv => P (snd kv)) fs -> P (JObj fs)) ->
  forall v, P v.
Proof.
  intros Hnull Hbool Hnum Hstr Harr Hobj.
  fix IH 1. intros [ | b | n | s | l | fs].
  - exact Hnull.
  - apply Hbool.
  - apply Hnum.
  - apply Hstr.
  - apply Harr. induction l as [|x l IHl]; constructor; [apply IH | exact IHl].
  - apply Hobj. induction fs as [|kv fs IHfs]; constructor; [apply IH | exact IHfs].
Qed.

Lemma ends_value_number (rest : string) :
  Spec.ends_value rest = true -> Spec.ends_number rest = true.
Proof.
  destruct rest as [|c r]; [reflexivity|]. cbn [Spec.ends_value Spec.ends_number].
  intros H. apply orb_true_iff in H as [H | H];
    [apply orb_true_iff in H as [H | H]|];
    apply Ascii.eqb_eq in H; subst c; reflexivity.
Qed.

(** How the text of a number starts. *)
Lemma parse_number_first (c : ascii) (s : string) (r : num * string) :
  parse_number (String c s) = Some r -> c = "-"%char \/ is_digit c = true.
Proof.
  unfold parse_number. destruct (Ascii.eqb_spec c "-") as [-> | _]; [auto|].
  unfold parse_unsigned, parse_int_part.
  destruct (Ascii.eqb_spec c "0") as [-> | _]; [auto|].
  destruct (is_digit c); [auto | discriminate].
Qed.

(** A sign or a digit selects the number branch of [parse_value]. *)
Lemma number_start (c : ascii) :
  c = "-"%char \/ is_digit c = true ->
  is_ws c = false /\ Ascii.eqb c "{" = false /\ Ascii.eqb c "[" = false
  /\ Ascii.eqb c Str.dq = false /\ Ascii.eqb c "t" = false
  /\ Ascii.eqb c "f" = false /\ Ascii.eqb c "n" = false
  /\ Ascii.eqb c "]" = false /\ Ascii.eqb c "}" = false.
Proof.
  intros [-> | H]; [repeat split; reflexivity|].
  destruct c as [b0 b1 b2 b3 b4 b5 b6 b7].
  destruct b0, b1, b2, b3, b4, b5, b6, b7; try discriminate H;
    repeat split; reflexivity.
Qed.

(** The text of a value starts with a character that is neither white
    space nor a closing bracket. *)
Lemma stringify_first (v : json) :
  Spec.canonical v = true ->
  exists c r, stringify v = String c r
              /\ is_ws c = false /\ Ascii.eqb c "]" = false
              /\ Ascii.eqb c "}" = false.
Proof.
  destruct v as [ | [|] | n | s | l | fs]; intros Hc;
    try (eexists; eexists; split; [reflexivity | repeat split; reflexivity]).
  cbn [Spec.canonical] in Hc. cbn [stringify].
  pose proof (parse_number_round_trip n EmptyString Hc eq_refl) as H.
  rewrite append_nil_r in H.
  destruct (num_to_string n) as [|c r]; [discriminate|].
  apply parse_number_first, number_start in H.
  exists c, r. intuition.
Qed.

Lemma set_field_fresh (k : string) (v : json) (acc : list (string * json)) :
  existsb (fun k' => String.eqb k' k) (map fst acc) = false ->
  set_field k v acc = (acc ++ [(k, v)])%list.
Proof.
  induction acc as [|[k' v'] acc IH]; cbn; [reflexivity|].
  intros H. apply orb_false_iff in H as [Hk Hacc].
  rewrite Hk, (IH Hacc). reflexivity.
Qed.

Lemma distinct_app_cons (a r : list string) (k : string) :
  Spec.distinct (a ++ k :: r) = true ->
  existsb (fun k' => String.eqb k' k) a = false
  /\ Spec.distinct ((a ++ [k]) ++ r) = true.
Proof.
  intros H. split.
  - induction a as [|x a IH]; [reflexivity|].
    cbn in H. apply andb_true_iff in H as [Hx Ha].
    cbn. rewrite (IH Ha), orb_false_r.
    apply negb_true_iff in Hx. rewrite existsb_app in Hx.
    apply orb_false_iff in Hx as [_ Hx]. cbn in Hx.
    apply orb_false_iff in Hx as [Hx _]. exact Hx.
  - now rewrite <- app_assoc.
Qed.


Lemma skip_ws_first (c : ascii) (r : string) :
  is_ws c = false -> skip_ws (String c r) = String c r.
Proof. intros H. cbn [skip_ws]. now rewrite H. Qed.

Lemma ends_value_skip (rest : string) :
  Spec.ends_value rest = true -> skip_ws rest = rest.
Proof.
  destruct rest as [|c r]; [reflexivity|]. cbn [Spec.ends_value].
  intros H. apply skip_ws_first.
  apply orb_true_iff in H as [H | H];
    [apply orb_true_iff in H as [H | H]|];
    apply Ascii.eqb_eq in H; subst c; reflexivity.
Qed.

(** The elements of an array are read back one after the other. *)
Lemma parse_elements_round_trip (l : list json) :
  Forall Spec.reads_back l ->
  forallb Spec.canonical l = true ->
  l <> [] ->
  forall (fuel : nat) (acc : list json) (rest : string),
    (Spec.elements_cost l <= fuel)%nat ->
    parse_elements fuel (join "," (map stringify l) ++ String "]" rest) acc
    = Some (JArr (acc ++ l), rest).
Proof.
  induction 1 as [|x l Hx Hl IH]; intros Hc Hne fuel acc rest Hf; [congruence|].
  cbn [forallb] in Hc. apply andb_true_iff in Hc as [Hcx Hcl].
  cbn [Spec.elements_cost fold_right] in Hf. fold (Spec.elements_cost l) in Hf.
  destruct fuel as [|f]; [lia|]. cbn [parse_elements].
  destruct l as [|y l].
  - cbn [map join]. rewrite (Hx f (String "]" rest)) by (reflexivity || lia).
    rewrite skip_ws_first by reflexivity. reflexivity.
  - change (join "," (map stringify (x :: y :: l)))
      with (stringify x ++ "," ++ join "," (map stringify (y :: l))).
    rewrite !append_assoc. cbn [append].
    rewrite (Hx f) by (reflexivity || lia).
    rewrite skip_ws_first by reflexivity. cbn [Ascii.eqb Bool.eqb].
    rewrite IH by (assumption || discriminate || lia).
    now rewrite <- app_assoc.
Qed.

(** The members of an object are read back one after the other. *)
Lemma parse_members_round_trip (fs : list (string * json)) :
  Forall (fun kv => Spec.reads_back (snd kv)) fs ->
  forallb (fun kv => Spec.canonical (snd kv)) fs = true ->
  fs <> [] ->
  forall (fuel : nat) (acc : list (string * json)) (rest : string),
    (Spec.members_cost fs <= fuel)%nat ->
    Spec.distinct (map fst acc ++ map fst fs) = true ->
    parse_members fuel (join "," (map Spec.member_text fs) ++ String "}" rest) acc
    = Some (JObj (acc ++ fs), rest).
Proof.
  induction 1 as [|[k v] fs Hv Hfs IH]; intros Hc Hne fuel acc rest Hf Hd;
    [congruence|].
  cbn [forallb snd] in Hc. apply andb_true_iff in Hc as [Hcv Hcfs].
  cbn [Spec.members_cost fold_right snd] in Hf. fold (Spec.members_cost fs) in Hf.
  cbn [map fst] in Hd. apply distinct_app_cons in Hd as [Hfresh Hd].
  cbn [snd] in Hv.
  destruct fuel as [|f]; [lia|]. cbn [parse_members].
  assert (Hmember : forall tail,
             Spec.member_text (k, v) ++ tail
             = String Str.dq (escape k ++ String Str.dq (String ":" (stringify v ++ tail)))).
  { intros tail. unfold Spec.member_text, quote. cbn [fst snd].
    rewrite !append_assoc. reflexivity. }
  destruct fs as [|kv2 fs].
  - cbn [map join]. rewrite Hmember.
    rewrite skip_ws_first by reflexivity. rewrite Ascii.eqb_refl.
    rewrite parse_chars_escape. rewrite skip_ws_first by reflexivity.
    cbn [Ascii.eqb Bool.eqb].
    rewrite (Hv f (String "}" rest)) by (reflexivity || lia).
    rewrite skip_ws_first by reflexivity. cbn [Ascii.eqb Bool.eqb].
    rewrite set_field_fresh by assumption. reflexivity.
  - change (join "," (map Spec.member_text ((k, v) :: kv2 :: fs)))
      with (Spec.member_text (k, v) ++ "," ++ join "," (map Spec.member_text (kv2 :: fs))).
    rewrite append_assoc, Hmember. cbn [append].
    rewrite skip_ws_first by reflexivity. rewrite Ascii.eqb_refl.
    rewrite parse_chars_escape. rewrite skip_ws_first by reflexivity.
    cbn [Ascii.eqb Bool.eqb].
    rewrite (Hv f) by (reflexivity || lia).
    rewrite skip_ws_first by reflexivity. cbn [Ascii.eqb Bool.eqb].
    rewrite set_field_fresh by assumption.
    rewrite IH; [now rewrite <- app_assoc | assumption | discriminate | lia |].
    rewrite map_app. exact Hd.
Qed.

(** Every canonical value is read back from its text. *)
Lemma parse_value_round_trip (v : json) :
  Spec.canonical v = true -> Spec.reads_back v.
Proof.
  induction v as [ | b | n | s | l IH | fs IH] using json_induction;
    intros Hc fuel rest Hf Hrest;
    (destruct fuel as [|f]; [cbn in Hf; lia|]).
  - reflexivity.
  - destruct b; reflexivity.
  - cbn [Spec.canonical] in Hc. cbn [stringify parse_value].
    pose proof (parse_number_round_trip n rest Hc (ends_value_number _ Hrest)) as H.
    destruct (num_to_string n ++ rest) as [|c r] eqn:E; [discriminate|].
    pose proof (number_start c (parse_number_first _ _ _ H))
      as (Hws & H1 & H2 & H3 & H4 & H5 & H6 & _).
    rewrite skip_ws_first by exact Hws.
    rewrite H1, H2, H3, H4, H5, H6, H. reflexivity.
  - cbn [stringify parse_value]. unfold quote, Str.dqs. rewrite !append_assoc.
    cbn [append]. rewrite skip_ws_first by reflexivity.
    cbn [Ascii.eqb Bool.eqb]. rewrite Ascii.eqb_refl.
    now rewrite parse_chars_escape.
  - destruct l as [|x l]; [reflexivity|].
    cbn [Spec.canonical] in Hc. cbn [stringify parse_value].
    rewrite !append_assoc. cbn [append].
    rewrite skip_ws_first by reflexivity. cbn [Ascii.eqb Bool.eqb].
    assert (Hx : Spec.canonical x = true)
      by (cbn [forallb] in Hc; now apply andb_true_iff in Hc as [? _]).
    destruct (stringify_first x Hx) as (c & r & Ex & Hws & Hb & _).
    assert (Hstart : exists c1 r1,
               join "," (map stringify (x :: l)) ++ String "]" rest = String c1 r1
               /\ is_ws c1 = false /\ Ascii.eqb c1 "]" = false).
    { destruct l as [|y l]; cbn [map join]; rewrite ?append_assoc, Ex;
        eexists; eexists; (split; [reflexivity | split; assumption]). }
    destruct Hstart as (c1 & r1 & E1 & Hws1 & Hb1).
    rewrite E1, skip_ws_first, Hb1 by exact Hws1. rewrite <- E1.
    assert (Hall : Forall Spec.reads_back (x :: l)).
    { apply Forall_forall. intros y Hy. rewrite Forall_forall in IH.
      apply IH; [exact Hy|]. rewrite forallb_forall in Hc. now apply Hc. }
    rewrite (parse_elements_round_trip (x :: l) Hall Hc) by (discriminate || (cbn in Hf |- *; lia)).
    reflexivity.
  - destruct fs as [|[k v] fs]; [reflexivity|].
    cbn [Spec.canonical] in Hc. apply andb_true_iff in Hc as [Hd Hc].
    cbn [stringify parse_value].
    change (map (fun kv => quote (fst kv) ++ ":" ++ stringify (snd kv)) ((k, v) :: fs))
      with (map Spec.member_text ((k, v) :: fs)).
    rewrite !append_assoc. cbn [append].
    rewrite skip_ws_first by reflexivity. cbn [Ascii.eqb Bool.eqb].
    assert (Hstart : exists r1,
               join "," (map Spec.member_text ((k, v) :: fs)) ++ String "}" rest
               = String Str.dq r1).
    { destruct fs as [|kv2 fs]; cbn [map join]; unfold Spec.member_text at 1, quote;
        rewrite ?append_assoc; eexists; reflexivity. }
    destruct Hstart as (r1 & E1).
    rewrite E1, skip_ws_first by reflexivity.
    change (Ascii.eqb Str.dq "}") with false. cbv iota. rewrite <- E1.
    assert (Hall : Forall (fun kv => Spec.reads_back (snd kv)) ((k, v) :: fs)).
    { apply Forall_forall. intros kv Hkv. rewrite Forall_forall in IH.
      apply IH; [exact Hkv|]. rewrite forallb_forall in Hc. now apply Hc. }
    rewrite (parse_members_round_trip ((k, v) :: fs) Hall Hc)
      by (discriminate || (cbn in Hf |- *; lia) || exact Hd).
    reflexivity.
Qed.

(** [JSON.parse(JSON.stringify(v))] is [v] for every canonical value. *)
Lemma json_round_trip (v : json) :
  Spec.canonical v = true -> Spec.round_trips v.
Proof.
  intros Hc. unfold Spec.round_trips, parse.
  rewrite <- (parse_fuel_enough (stringify v) (Spec.cost v)).
  rewrite <- (append_nil_r (stringify v)) at 2.
  rewrite (parse_value_round_trip v Hc) by (reflexivity || lia).
  reflexivity.
Qed.

End JsonRoundTrip.
(** ** Conversions to strings *)

Section Conversions.

Import Template.

Lemma elements_converted (convert : json -> outcome string) (l : list json) :
  Forall (fun x => x = JNull \/ exists s, convert x = Return s) l ->
  exists parts, elements convert l = Return parts.
Proof.
  induction 1 as [|x l Hx _ [parts IH]]; [now exists []|].
  cbn [elements]. rewrite IH.
  destruct Hx as [-> | [s Hs]].
  - eexists. reflexivity.
  - destruct x; try (rewrite Hs; eexists; reflexivity). eexists. reflexivity.
Qed.

Lemma elements_failed (convert : json -> outcome string) (l : list json) :
  Exists (fun x => x <> JNull /\ exists e, convert x = Throw e) l ->
  exists e, elements convert l = Throw e.
Proof.
  induction 1 as [x l [Hx [e He]] | x l _ [e IH]].
  - cbn [elements]. destruct x; try (rewrite He; eexists; reflexivity).
    now destruct Hx.
  - cbn [elements]. rewrite IH.
    destruct (match x with JNull => Return EmptyString | _ => convert x end);
      eexists; reflexivity.
Qed.

(** The conversion of a value fails exactly when the value is not
    printable. *)
Lemma to_string_spec (v : json) :
  if Notions.printable_value v
  then exists s, to_string v = Return s
  else exists e, to_string v = Throw e.
Proof.
  induction v as [ | b | n | s | l IH | fs IH] using json_induction;
    cbn [Notions.printable_value to_string].
  - eexists; reflexivity.
  - destruct b; eexists; reflexivity.
  - eexists; reflexivity.
  - eexists; reflexivity.
  - destruct (forallb Notions.printable_value l) eqn:E.
    + destruct (elements_converted to_string l) as [parts ->].
      * rewrite forallb_forall in E. rewrite Forall_forall in *.
        intros x Hx. right. specialize (IH x Hx). now rewrite (E x Hx) in IH.
      * eexists. reflexivity.
    + destruct (elements_failed to_string l) as [e ->]; [|eexists; reflexivity].
      apply Exists_exists.
      assert (Hex : existsb (fun x => negb (Notions.printable_value x)) l = true).
      { clear IH. induction l as [|x l IHl]; [discriminate E|].
        cbn [forallb existsb] in *.
        destruct (Notions.printable_value x); [now apply IHl | reflexivity]. }
      apply existsb_exists in Hex as (x & Hx & Hn).
      exists x. split; [exact Hx|].
      rewrite Forall_forall in IH. specialize (IH x Hx).
      apply negb_true_iff in Hn. rewrite Hn in IH.
      split; [|exact IH]. intros ->. discriminate Hn.
  - clear IH. destruct (has_own "toString" fs); eexists; reflexivity.
Qed.

Lemma interpolate_printable (v : option json) :
  Notions.printable v = true -> interpolate v = Return (Notions.quoted v).
Proof.
  unfold Notions.quoted. destruct v as [j|]; [|reflexivity].
  cbn [Notions.printable interpolate]. intros H.
  pose proof (to_string_spec j) as S. rewrite H in S. now destruct S as [s ->].
Qed.

Lemma interpolate_unprintable (v : option json) :
  Notions.printable v = false -> exists e, interpolate v = Throw e.
Proof.
  destruct v as [j|]; [|discriminate].
  cbn [Notions.printable interpolate]. intros H.
  pose proof (to_string_spec j) as S. now rewrite H in S.
Qed.

(** The call of [toLocaleString] fails exactly when the value is not
    localizable, whatever the locale. *)
Lemma to_locale_string_spec (locale : num -> string) (v : json) :
  if Notions.localizable_value v
  then exists s, to_locale_string locale v = Return s
  else exists e, to_locale_string locale v = Throw e.
Proof.
  induction v as [ | b | n | s | l IH | fs IH] using json_induction;
    cbn [Notions.localizable_value to_locale_string].
  - eexists; reflexivity.
  - destruct b; eexists; reflexivity.
  - eexists; reflexivity.
  - eexists; reflexivity.
  - set (ok := fun x => match x with
                        | JNull => true
                        | _ => Notions.localizable_value x
                        end).
    destruct (forallb ok l) eqn:E.
    + destruct (elements_converted (to_locale_string locale) l) as [parts ->].
      * rewrite forallb_forall in E. rewrite Forall_forall in *.
        intros x Hx. specialize (IH x Hx). specialize (E x Hx).
        destruct x; try (right; unfold ok in E; rewrite E in IH; exact IH).
        now left.
      * eexists. reflexivity.
    + destruct (elements_failed (to_locale_string locale) l) as [e ->];
        [|eexists; reflexivity].
      apply Exists_exists.
      assert (Hex : existsb (fun x => negb (ok x)) l = true).
      { clear IH. induction l as [|x l IHl]; [discriminate E|].
        cbn [forallb existsb] in *.
        destruct (ok x); [now apply IHl | reflexivity]. }
      apply existsb_exists in Hex as (x & Hx & Hn).
      exists x. split; [exact Hx|].
      rewrite Forall_forall in IH. specialize (IH x Hx).
      apply negb_true_iff in Hn.
      destruct x; try (unfold ok in Hn; rewrite Hn in IH;
                       split; [discriminate | exact IH]).
      discriminate Hn.
  - clear IH. destruct (has_own "toLocaleString" fs); cbn [negb andb];
      [eexists; reflexivity|].
    destruct (has_own "toString" fs); eexists; reflexivity.
Qed.

Lemma toLocaleString_localizable (locale : num -> string) (v : option json) :
  Notions.localizable v = true ->
  toLocaleString locale v = Return (Notions.localized locale v).
Proof.
  unfold Notions.localized. destruct v as [j|]; [|discriminate].
  cbn [Notions.localizable toLocaleString]. intros H.
  pose proof (to_locale_string_spec locale j) as S. rewrite H in S.
  now destruct S as [s ->].
Qed.

Lemma toLocaleString_unlocalizable (locale : num -> string) (v : option json) :
  Notions.localizable v = false -> exists e, toLocaleString locale v = Throw e.
Proof.
  destruct v as [j|]; [|eexists; reflexivity].
  cbn [Notions.localizable toLocaleString]. intros H.
  pose proof (to_locale_string_spec locale j) as S. now rewrite H in S.
Qed.

Lemma toLocaleString_of_localizable (v : option json) :
  Notions.localizable v = true ->
  Server.toLocaleString_of v = Return (Notions.value_of v).
Proof.
  destruct v as [j|]; [|discriminate].
  cbn [Notions.localizable Server.toLocaleString_of Notions.value_of]. intros H.
  pose proof (to_locale_string_spec JsonText.num_to_string j) as S. rewrite H in S.
  now destruct S as [s ->].
Qed.

Lemma toLocaleString_of_unlocalizable (v : option json) :
  Notions.localizable v = false -> exists e, Server.toLocaleString_of v = Throw e.
Proof.
  destruct v as [j|]; [|eexists; reflexivity].
  cbn [Notions.localizable Server.toLocaleString_of]. intros H.
  pose proof (to_locale_string_spec JsonText.num_to_string j) as S. rewrite H in S.
  destruct S as [e ->]. eexists. reflexivity.
Qed.

End Conversions.

(** ** Reading the data of a request *)

Section Reads.

Lemma get_of_readable (base : option json) (k : string) :
  Notions.readable base = true -> get base k = Return (Notions.member base k).
Proof. destruct base as [[]|]; try discriminate; reflexivity. Qed.


Lemma get_of_unreadable (base : option json) (k : string) :
  Notions.readable base = false -> exists e, get base k = Throw e.
Proof. destruct base as [[]|]; try discriminate; eexists; reflexivity. Qed.

(** The prompt of a scenario is built exactly from a printable input and
    promptable data. *)
Lemma build_prompt_built (u b h : option json) :
  Notions.printable u = true -> Notions.promptable b h = true ->
  Server.build_prompt u b h = Return (Notions.prompt_of u b h).
Proof.
  intros Hu H. unfold Notions.promptable in H.
  repeat (apply andb_true_iff in H as [H ?]).
  unfold Server.build_prompt, Notions.prompt_of, bind.
  rewrite (interpolate_printable u) by assumption.
  rewrite (get_of_readable b "global_temp") by assumption.
  rewrite (get_of_readable _ "current") by assumption.
  rewrite (interpolate_printable (Notions.member (Notions.member b "global_temp") "current"))
    by assumption.
  rewrite (get_of_readable b "sea_level_rise") by assumption.
  rewrite (get_of_readable _ "current") by assumption.
  rewrite (interpolate_printable (Notions.member (Notions.member b "sea_level_rise") "current"))
    by assumption.
  rewrite (get_of_readable h "death_toll_annual") by assumption.
  rewrite (toLocaleString_of_localizable _) by assumption.
  rewrite (get_of_readable h "refugees") by assumption.
  rewrite (toLocaleString_of_localizable _) by assumption.
  rewrite (get_of_readable h "gdp_loss_percent") by assumption.
  rewrite (interpolate_printable (Notions.member h "gdp_loss_percent")) by assumption.
  reflexivity.
Qed.

Lemma build_prompt_refused (u b h : option json) :
  Notions.printable u && Notions.promptable b h = false ->
  exists e, Server.build_prompt u b h = Throw e.
Proof.
  unfold Notions.promptable, Server.build_prompt, bind.
  destruct (Notions.printable u) eqn:Eu; cbn [andb].
  2:{ intros _. destruct (interpolate_unprintable u Eu) as [e ->]. eauto. }
  rewrite (interpolate_printable u Eu).
  destruct (Notions.readable b) eqn:Eb; cbn [andb].
  2:{ intros _. destruct (get_of_unreadable b "global_temp" Eb) as [e ->]. eauto. }
  rewrite (get_of_readable b "global_temp" Eb).
  destruct (Notions.readable (Notions.member b "global_temp")) eqn:Egt; cbn [andb].
  2:{ intros _. destruct (get_of_unreadable _ "current" Egt) as [e ->]. eauto. }
  rewrite (get_of_readable _ "current" Egt).
  destruct (Notions.printable (Notions.member (Notions.member b "global_temp") "current"))
    eqn:Egtc; cbn [andb].
  2:{ intros _. destruct (interpolate_unprintable _ Egtc) as [e ->]. eauto. }
  rewrite (interpolate_printable _ Egtc), (get_of_readable b "sea_level_rise" Eb).
  destruct (Notions.readable (Notions.member b "sea_level_rise")) eqn:Esl; cbn [andb].
  2:{ intros _. destruct (get_of_unreadable _ "current" Esl) as [e ->]. eauto. }
  rewrite (get_of_readable _ "current" Esl).
  destruct (Notions.printable (Notions.member (Notions.member b "sea_level_rise") "current"))
    eqn:Eslc; cbn [andb].
  2:{ intros _. destruct (interpolate_unprintable _ Eslc) as [e ->]. eauto. }
  rewrite (interpolate_printable _ Eslc).
  destruct (Notions.readable h) eqn:Eh; cbn [andb].
  2:{ intros _. destruct (get_of_unreadable h "death_toll_annual" Eh) as [e ->]. eauto. }
  rewrite (get_of_readable h "death_toll_annual" Eh).
  destruct (Notions.localizable (Notions.member h "death_toll_annual")) eqn:Edt; cbn [andb].
  2:{ intros _. destruct (toLocaleString_of_unlocalizable _ Edt) as [e ->]. eauto. }
  rewrite (toLocaleString_of_localizable _ Edt), (get_of_readable h "refugees" Eh).
  destruct (Notions.localizable (Notions.member h "refugees")) eqn:Erf; cbn [andb].
  2:{ intros _. destruct (toLocaleString_of_unlocalizable _ Erf) as [e ->]. eauto. }
  rewrite (toLocaleString_of_localizable _ Erf), (get_of_readable h "gdp_loss_percent" Eh).
  intros Egdp. destruct (interpolate_unprintable _ Egdp) as [e ->]. eauto.
Qed.

End Reads.
(** Claim C3, as stated, fails.  The trimmed text of [two_objects] does not
    decode as a whole.  Its first substring bounded by a matching pair of
    braces is the first object, which decodes; the parser of the code does
    not use it: its only candidate runs from the first opening brace to the
    last closing brace, across both objects, and the parser fails. *)
Lemma first_bounded_match_is_not_used :
  JsonText.parse (Str.trim Examples.two_objects) = None
  /\ Spec.first_bounded (Str.trim Examples.two_objects)
     = Some ("{" ++ Str.dqs ++ "a" ++ Str.dqs ++ ":1}")
  /\ Spec.specified_parse Examples.two_objects = Some (JObj [("a", JNum (int 1))])
  /\ Server.parse_completion Examples.two_objects
     = Throw ("AI generated invalid JSON. Response: " ++ Examples.two_objects ++ "...").
Proof. split; [|split; [|split]]; vm_compute; reflexivity. Qed.

(** Claim C3, amended.  The response parser trims the text of the
    completion and decodes it as a whole; when that fails it decodes one
    candidate only, the part of the text from its first opening brace to
    its last closing brace, whatever lies between them; when that fails
    too, or when there is no such part, it fails with a message that
    carries the first 200 code units of the trimmed text, followed by three
    dots, which [generateScenario] rethrows under the prefix of its own. *)
Theorem parse_completion_phases (content : string) :
  let response := Str.trim content in
  (forall v, JsonText.parse response = Some v ->
             Server.parse_completion content = Return v)
  /\ (JsonText.parse response = None ->
      forall m, Spec.brace_span response m ->
        Server.parse_completion content
        = match JsonText.parse m with
          | Some v => Return v
          | None => Throw ("AI generated invalid JSON. Response: "
                             ++ Str.prefix_of 200 response ++ "...")
          end)
  /\ (forall m m', Spec.brace_span response m -> Spec.brace_span response m' ->
                   m = m')
  /\ (JsonText.parse response = None ->
      (forall m, ~ Spec.brace_span response m) ->
      Server.parse_completion content
      = Throw ("AI did not generate valid JSON. Response: "
                 ++ Str.prefix_of 200 response ++ "..."))
  /\ Str.units (Str.prefix_of 200 response) = firstn 200 (Str.units response)
  /\ (forall openai u b h p w,
        Server.build_prompt u b h = Return p ->
        openai p = Return content ->
        Server.generateScenario openai u b h w
        = (match Server.parse_completion content with
           | Return v => Return v
           | Throw message => Throw ("OpenAI API error: " ++ message)
           end,
           Server.World (Server.db w) (Server.calls w ++ [p]))).
Proof.
  intros response. unfold Server.parse_completion. fold response.
  split; [|split; [|split; [|split; [|split]]]].
  - intros v ->. reflexivity.
  - intros -> m Hm. apply match_braces_spec in Hm. rewrite Hm. reflexivity.
  - intros m m' Hm Hm'. apply match_braces_spec in Hm, Hm'. congruence.
  - intros -> Hno. destruct (Str.match_braces response) as [m|] eqn:E.
    + apply match_braces_spec in E. now destruct (Hno m).
    + reflexivity.
  - apply units_prefix_of.
  - intros openai u b h p w Hp Hc. run_handler. rewrite Hp. step_handler.
    rewrite Hc. step_handler. unfold Server.parse_completion. fold response.
    destruct (JsonText.parse response); [reflexivity|].
    destruct (Str.match_braces response) as [m|]; [|reflexivity].
    destruct (JsonText.parse m); reflexivity.
Qed.

(** A completion with two objects: the single candidate spans both and does
    not decode.  A completion in prose of more than 200 code units: the
    message carries the first 200 of them. *)
Lemma parse_completion_phases_witness :
  Server.parse_completion Examples.two_objects
  = Throw ("AI generated invalid JSON. Response: " ++ Examples.two_objects ++ "...")
  /\ Server.parse_completion Examples.rambling
     = Throw ("AI did not generate valid JSON. Response: "
                ++ Examples.rambling_200 ++ "...")
  /\ List.length (Str.units Examples.rambling) = 254%nat
  /\ List.length (Str.units Examples.rambling_200) = 200%nat.
Proof.
  split; [|split; [|split]].
  - refine (eq_trans
      (proj1 (proj2 (parse_completion_phases Examples.two_objects)) eq_refl
         (String "{" ((Str.dqs ++ "a" ++ Str.dqs ++ ":1} and {" ++ Str.dqs ++ "b" ++ Str.dqs ++ ":2")
                        ++ String "}" EmptyString)) _) _).
    + exists "Note: ", (Str.dqs ++ "a" ++ Str.dqs ++ ":1} and {" ++ Str.dqs ++ "b" ++ Str.dqs ++ ":2"), ".".
      repeat split; reflexivity.
    + reflexivity.
  - refine (eq_trans
      (proj1 (proj2 (proj2 (proj2 (parse_completion_phases Examples.rambling))))
         eq_refl _) _).
    + intros m Hm. apply match_braces_spec in Hm. discriminate Hm.
    + vm_compute. reflexivity.
  - vm_compute. reflexivity.
  - vm_compute. reflexivity.
Defined.

(** Claim C7, as stated, fails: prose that itself holds a brace moves the
    start of the match, and the record is lost. *)
Lemma roundtrip_with_braces_in_prose_fails :
  Spec.canonical Store.seed_alt_forecasts = true
  /\ Server.parse_completion
       ("Here is {your} scenario: " ++ JsonText.stringify Store.seed_alt_forecasts)
     <> Return Store.seed_alt_forecasts.
Proof.
  split; [reflexivity|].
  vm_compute. discriminate.
Qed.

(** Claim C7, amended.  For every well-formed record (an object in canonical
    form: canonical numbers, no key twice), embedded between a text with no
    opening brace and a text with no closing brace, the parser returns the
    record, provided the whole trimmed text does not decode by itself (or
    the texts around are blank). *)
Theorem parse_recovers_embedded_record
    (fields : list (string * json)) (pre post : string) :
  let r := JObj fields in
  Spec.canonical r = true ->
  Str.mem "{" pre = false ->
  Str.mem "}" post = false ->
  JsonText.parse (Str.trim (pre ++ JsonText.stringify r ++ post)) = None
  \/ (Str.all_space pre = true /\ Str.all_space post = true) ->
  Server.parse_completion (pre ++ JsonText.stringify r ++ post) = Return r.
Proof.
  intros r Hc Hpre Hpost Hstrict.
  exact (parse_completion_embedded pre _ post r (json_round_trip r Hc)
           Hpre Hpost Hstrict).
Qed.

Lemma parse_recovers_embedded_record_witness :
  Server.parse_completion
    ("Here is your scenario: " ++ JsonText.stringify Store.seed_alt_forecasts
       ++ " Enjoy!")
  = Return Store.seed_alt_forecasts.
Proof.
  apply (parse_recovers_embedded_record
           (Server.own_fields Store.seed_alt_forecasts)
           "Here is your scenario: " " Enjoy!").
  - reflexivity.
  - reflexivity.
  - reflexivity.
  - left. vm_compute. reflexivity.
Defined.

(** ** The keyword generators *)

(** Claim C4, as stated, fails: [generateFallbackScenario] answers an input
    with no keyword with its generic record, and
    [createUniqueScenarioFromInput] puts the hero class before the energy
    class and has no class for decarbonisation. *)
Lemma keyword_generators_differ_from_claim :
  ~ (forall userInput, Spec.matches_no_class userInput = true ->
       exists message, Fallback.generateFallbackScenario userInput = Throw message)
  /\ Fallback.generateFallbackScenario "Hello there" = Return Fallback.fallback_generic
  /\ Fallback.createUniqueScenarioFromInput "A hero with fusion energy"
     = Return Fallback.unique_hero
  /\ Fallback.createUniqueScenarioFromInput "Net-zero carbon by 2030"
     = Throw (Fallback.no_match_message "Net-zero carbon by 2030").
Proof.
  split; [|repeat split; vm_compute; reflexivity].
  intros H. destruct (H "Hello there" eq_refl) as [message Hm].
  vm_compute in Hm. discriminate.
Qed.

(** Claim C4, amended.  Each generator lower-cases the input and returns the
    record of the first class of its own ordered table one of whose keywords
    occurs in it.  When none does, [generateFallbackScenario] returns its
    generic record and [createUniqueScenarioFromInput] fails with a message
    that names the input. *)
Theorem keyword_generators_first_match (userInput : string) :
  Fallback.generateFallbackScenario userInput
  = Return match Spec.first_match Spec.fallback_classes (Str.toLowerCase userInput) with
           | Some record => record
           | None => Fallback.fallback_generic
           end
  /\ Fallback.createUniqueScenarioFromInput userInput
     = match Spec.first_match Spec.unique_classes (Str.toLowerCase userInput) with
       | Some record => Return record
       | None => Throw (Fallback.no_match_message userInput)
       end.
Proof.
  unfold Fallback.generateFallbackScenario, Fallback.createUniqueScenarioFromInput,
    Spec.first_match, Spec.fallback_classes, Spec.unique_classes.
  set (input := Str.toLowerCase userInput). cbn [find existsb fst snd option_map].
  split.
  - destruct (Str.includes input "fusion"), (Str.includes input "energy"); cbn; try reflexivity;
    destruct (Str.includes input "net-zero"), (Str.includes input "emissions"),
             (Str.includes input "carbon"); cbn; try reflexivity;
    destruct (Str.includes input "geoengineering"),
             (Str.includes input "climate engineering"); cbn; try reflexivity;
    destruct (Str.includes input "superman"), (Str.includes input "hero"),
             (Str.includes input "superhero"); cbn; try reflexivity;
    destruct (Str.includes input "time travel"), (Str.includes input "time machine");
    cbn; reflexivity.
  - destruct (Str.includes input "superman"), (Str.includes input "hero"),
             (Str.includes input "superhero"); cbn; try reflexivity;
    destruct (Str.includes input "time travel"), (Str.includes input "time machine");
    cbn; try reflexivity;
    destruct (Str.includes input "alien"), (Str.includes input "extraterrestrial"),
             (Str.includes input "ufo"); cbn; try reflexivity;
    destruct (Str.includes input "fusion"), (Str.includes input "nuclear"),
             (Str.includes input "energy"); cbn; reflexivity.
Qed.
(** ** POST /api/scenarios *)

Section CreateScenario.

Variable openai : Server.completion_service.
Variable now : string.

(** The handler step by step: no prompt, no call; a call that fails or a
    completion that does not decode, no insert; a decoded completion, the
    answer and the insert. *)
Lemma create_scenario_refused (reqBody : json) (w : Server.world)
    (u b h : option json) (e : string) :
  Server.generation_arguments reqBody = Return (u, b, h) ->
  Server.build_prompt u b h = Throw e ->
  Server.create_scenario openai now reqBody w
  = (Return (Spec.failure_response, None), w).
Proof.
  intros Hargs Hp. run_handler. rewrite Hargs. step_handler. rewrite Hp.
  reflexivity.
Qed.

Lemma create_scenario_called (reqBody : json) (w : Server.world)
    (u b h : option json) (p : Server.prompt) :
  Server.generation_arguments reqBody = Return (u, b, h) ->
  Server.build_prompt u b h = Return p ->
  Server.create_scenario openai now reqBody w
  = (Return match openai p with
            | Return content =>
                match Server.parse_completion content with
                | Return JNull | Throw _ => (Spec.failure_response, None)
                | Return aiResponse =>
                    (Server.Response 200 (Notions.created u aiResponse),
                     Some (Notions.handed_over u aiResponse now))
                end
            | Throw _ => (Spec.failure_response, None)
            end,
     Server.World (Server.db w) (Server.calls w ++ [p])).
Proof.
  intros Hargs Hp. run_handler. rewrite Hargs. step_handler. rewrite Hp.
  step_handler.
  destruct (openai p) as [content|e]; step_handler; [|reflexivity].
  destruct (Server.parse_completion content) as [ai|e]; step_handler; [|reflexivity].
  destruct ai; reflexivity.
Qed.

Lemma create_scenario_without_arguments (reqBody : json) (w : Server.world)
    (e : string) :
  Server.generation_arguments reqBody = Throw e ->
  Server.create_scenario openai now reqBody w
  = (Return (Spec.failure_response, None), w).
Proof. intros Hargs. run_handler. rewrite Hargs. reflexivity. Qed.

Lemma post_scenarios_answer (reqBody : json) (w : Server.world) :
  Server.post_scenarios openai now reqBody w
  = match Server.create_scenario openai now reqBody w with
    | (Return answered, w') => (Return (fst answered), w')
    | (Throw e, w') => (Throw e, w')
    end.
Proof. reflexivity. Qed.

(** Once the arguments are there and the prompt is built, the handler sends
    that prompt to the completion service, and nothing else. *)
Lemma post_scenarios_calls (reqBody : json) (w : Server.world)
    (u b h : option json) (p : Server.prompt) :
  Server.generation_arguments reqBody = Return (u, b, h) ->
  Server.build_prompt u b h = Return p ->
  Server.calls (snd (Server.post_scenarios openai now reqBody w))
  = (Server.calls w ++ [p])%list.
Proof.
  intros Hargs Hp.
  rewrite post_scenarios_answer, (create_scenario_called _ _ _ _ _ _ Hargs Hp).
  reflexivity.
Qed.



End CreateScenario.

(** Claim C1.  When the completion service fails, the handler answers every
    request with status 500 and leaves the table as it was: the failure is
    rethrown by [generateScenario] and no keyword generator is called,
    though [generateFallbackScenario] has a record for the input of the
    example, with a theme about fusion and 1.8 degrees in 2100. *)
Theorem completion_failure_is_not_recovered :
  (forall (e now : string) (reqBody : json) (w : Server.world),
     fst (Server.post_scenarios (fun _ => Throw e) now reqBody w)
     = Return Spec.failure_response
     /\ Server.db (snd (Server.post_scenarios (fun _ => Throw e) now reqBody w))
        = Server.db w)
  /\ (forall (openai : Server.completion_service) (p : Server.prompt) (e : string)
        (u b h : option json) (w : Server.world),
        Server.build_prompt u b h = Return p ->
        openai p = Throw e ->
        Server.generateScenario openai u b h w
        = (Throw ("OpenAI API error: " ++ e),
           Server.World (Server.db w) (Server.calls w ++ [p])))
  /\ (exists record alt,
        Fallback.generateFallbackScenario Examples.fusion_input = Return record
        /\ get (Some record) "theme" = Return (Some (JStr Store.seed_theme))
        /\ Str.includes Store.seed_theme "fusion" = true
        /\ get (Some record) "alt_forecasts" = Return (Some alt)
        /\ get (Some alt) "global_temp_2100" = Return (Some (JNum (dec 18 1)))).
Proof.
  split; [|split].
  - intros e now reqBody w. rewrite post_scenarios_answer.
    destruct (Server.generation_arguments reqBody) as [[[u b] h]|e0] eqn:Hargs.
    + destruct (Server.build_prompt u b h) as [p|e0] eqn:Hp.
      * rewrite (create_scenario_called _ _ _ _ _ _ _ _ Hargs Hp). split; reflexivity.
      * rewrite (create_scenario_refused _ _ _ _ _ _ _ _ Hargs Hp). split; reflexivity.
    + rewrite (create_scenario_without_arguments _ _ _ _ _ Hargs). split; reflexivity.
  - intros openai p e u b h w Hp He. run_handler.
    rewrite Hp. step_handler. rewrite He. reflexivity.
  - eexists. eexists. repeat split; vm_compute; reflexivity.
Qed.

Lemma completion_failure_is_not_recovered_witness :
  (fst (Server.post_scenarios Examples.unavailable "2025-06-01T12:00:00.000Z"
          Examples.fusion_request Examples.fresh_world)
   = Return Spec.failure_response
   /\ Server.db (snd (Server.post_scenarios Examples.unavailable
                        "2025-06-01T12:00:00.000Z" Examples.fusion_request
                        Examples.fresh_world))
      = Server.db Examples.fresh_world)
  /\ Server.generateScenario Examples.unavailable
       (Some (JStr Examples.fusion_input)) (Some Server.default_baselineData)
       (Some Server.default_humanImpacts) Examples.fresh_world
     = (Throw "OpenAI API error: connect ECONNREFUSED",
        Server.World (Server.db Examples.fresh_world)
          [Spec.default_prompt (Some (JStr Examples.fusion_input))]).
Proof.
  split.
  - exact (proj1 completion_failure_is_not_recovered
             "connect ECONNREFUSED" "2025-06-01T12:00:00.000Z"
             Examples.fusion_request Examples.fresh_world).
  - exact (proj1 (proj2 completion_failure_is_not_recovered)
             Examples.unavailable
             (Spec.default_prompt (Some (JStr Examples.fusion_input)))
             "connect ECONNREFUSED"
             (Some (JStr Examples.fusion_input)) (Some Server.default_baselineData)
             (Some Server.default_humanImpacts) Examples.fresh_world
             eq_refl eq_refl).
Defined.




(** Claim C9, as stated, fails: an override that has one series only is
    passed to the generation as it is; the prompt cannot be built from it
    and the handler answers 500 without any call to the completion service. *)
Lemma partial_baseline_reaches_generation :
  Server.generation_arguments Examples.partial_baseline_request
  = Return (Some (JStr Examples.fusion_input),
            Some Examples.partial_baseline,
            Some Server.default_humanImpacts)
  /\ Spec.baseline_shaped (Some Examples.partial_baseline) = false
  /\ Server.post_scenarios (Examples.answers Examples.plain_completion)
       "2025-06-01T12:00:00.000Z" Examples.partial_baseline_request
       Examples.fresh_world
     = (Return Spec.failure_response, Examples.fresh_world).
Proof. repeat split; vm_compute; reflexivity. Qed.

(** Claim C9, amended.  The baseline passed to the generation is the
    override of the request when that is there and truthy, unchanged and
    unchecked; otherwise it is the default of the handler, which has all
    four indicator series, each with a number for [current] and a list for
    [forecast]. *)
Theorem baseline_default_or_override (reqBody : json) (u b h : option json) :
  Server.generation_arguments reqBody = Return (u, b, h) ->
  exists override,
    get (Some reqBody) "baselineData" = Return override
    /\ (truthy override = true -> b = override)
    /\ (truthy override = false ->
        b = Some Server.default_baselineData /\ Spec.baseline_shaped b = true).
Proof.
  unfold Server.generation_arguments, bind.
  destruct (get (Some reqBody) "userInput") as [u0|]; [|discriminate].
  destruct (get (Some reqBody) "baselineData") as [override|]; [|discriminate].
  destruct (get (Some reqBody) "humanImpacts") as [i0|]; [|discriminate].
  intros [= <- <- <-]. exists override. unfold or_else.
  split; [reflexivity|].
  split; intros ->; [reflexivity | split; reflexivity].
Qed.

Lemma baseline_default_or_override_witness :
  exists override,
    get (Some Examples.fusion_request) "baselineData" = Return override
    /\ (truthy override = true -> Some Server.default_baselineData = override)
    /\ (truthy override = false ->
        Some Server.default_baselineData = Some Server.default_baselineData
        /\ Spec.baseline_shaped (Some Server.default_baselineData) = true).
Proof.
  apply (baseline_default_or_override Examples.fusion_request
           (Some (JStr Examples.fusion_input)) (Some Server.default_baselineData)
           (Some Server.default_humanImpacts)).
  reflexivity.
Defined.

(** ** The store *)

Section StoreFacts.

Lemma seed_row_is_seed (i : Z) (now : string) : Spec.is_seed (Spec.seed_row i now).
Proof.
  split; [reflexivity|].
  eexists. split; vm_compute; reflexivity.
Qed.

(** The count of [initDatabase] is zero exactly when no row has the input
    looked for. *)
Lemma count_user_input_zero (s : string) (db : Store.store) :
  Store.count_user_input s db = 0%nat
  <-> forall r, In r (Store.rows db) -> Store.user_input r <> s.
Proof.
  unfold Store.count_user_input. split.
  - intros H r Hin E.
    assert (Hf : In r (filter (fun r => String.eqb (Store.user_input r) s)
                         (Store.rows db))).
    { apply filter_In. split; [exact Hin|]. now apply String.eqb_eq. }
    destruct (filter _ (Store.rows db)); [exact Hf | discriminate H].
  - intros H. destruct (filter _ (Store.rows db)) as [|r l] eqn:F; [reflexivity|].
    assert (Hf : In r (filter (fun r => String.eqb (Store.user_input r) s)
                         (Store.rows db))) by (rewrite F; left; reflexivity).
    apply filter_In in Hf as [Hin E]. apply String.eqb_eq in E.
    now destruct (H r Hin).
Qed.

Lemma initDatabase_rows (now : string) (db : Store.store) :
  Store.initDatabase now db = db
  \/ Store.rows (Store.initDatabase now db)
     = (Store.rows db ++ [Spec.seed_row (Store.last_id db + 1) now])%list.
Proof.
  unfold Store.initDatabase.
  destruct (Store.count_user_input Store.seed_user_input db =? 0)%nat; auto.
Qed.

Lemma insert_inv (u t a n : Store.cell) (c : string) (db db' : Store.store) (i : Z) :
  Store.insert u t a n c db = Return (i, db') ->
  exists u' t' a' n',
    u = Store.Text u' /\ t = Store.Text t' /\ a = Store.Text a' /\ n = Store.Text n'
    /\ i = Store.last_id db + 1
    /\ db' = Store.Mk (Store.rows db ++ [Store.Row i u' t' a' n' c]) i.
Proof.
  unfold Store.insert, bind.
  destruct u as [|u']; [discriminate|]. destruct t as [|t']; [discriminate|].
  destruct a as [|a']; [discriminate|]. destruct n as [|n']; [discriminate|].
  cbn [Store.not_null]. intros [= <- <-]. exists u', t', a', n'. auto 10.
Qed.

Lemma step_keeps_rows (db db' : Store.store) :
  Spec.step db db' ->
  exists more, Store.rows db' = (Store.rows db ++ more)%list.
Proof.
  intros [now d | u t a n c d d' i H].
  - destruct (initDatabase_rows now d) as [-> | ->].
    + exists []. now rewrite app_nil_r.
    + eexists. reflexivity.
  - apply insert_inv in H as (u' & t' & a' & n' & _ & _ & _ & _ & _ & ->).
    eexists. reflexivity.
Qed.

(** The seed row, once inserted at the start, stays the first row. *)
Lemma reachable_seed_first (db : Store.store) :
  Spec.reachable db ->
  exists now rest, Store.rows db = Spec.seed_row 1 now :: rest.
Proof.
  induction 1 as [now | db db' _ (now & rest & IH) Hstep].
  - exists now, []. reflexivity.
  - destruct (step_keeps_rows _ _ Hstep) as [more ->].
    rewrite IH. exists now, (rest ++ more)%list. reflexivity.
Qed.

End StoreFacts.

(** ** The three routes of the scenarios *)

Section ScenarioRoutes.

(** What [stmt.all()] returns is no array: the listing is empty whatever
    the table holds. *)
Lemma get_scenarios_empty (w : Server.world) :
  Server.get_scenarios w = (Return (Server.Response 200 (JArr [])), w).
Proof. reflexivity. Qed.

(** What [stmt.get()] returns has no [alt_forecasts]: the lookup by
    identifier ends in the [SyntaxError] of [JSON.parse(undefined)]. *)
Lemma get_scenario_throws (id : string) (w : Server.world) :
  Server.get_scenario id w = (Throw "undefined is not valid JSON", w).
Proof. reflexivity. Qed.

End ScenarioRoutes.

(** Claim C10.  [initDatabase] inserts the seed row exactly when no row of
    the table has its [user_input]: into a table without such a row it
    puts the row, under the next identifier; a table with such a row it
    leaves as it is.  Either way the table then has a row with that
    [user_input]; on the file of a new deployment it holds the seed row
    alone, whose forecasts decode to 1.8 degrees in 2100, and so does every
    table the deployment reaches later.  The listing of a new deployment is
    empty all the same: [GET /api/scenarios] answers with [[]] whatever the
    table holds. *)
Theorem initDatabase_seeds_the_store :
  (forall now db,
      ((forall r, In r (Store.rows db) ->
                  Store.user_input r <> Store.seed_user_input) ->
       Store.initDatabase now db
       = Store.Mk (Store.rows db ++ [Spec.seed_row (Store.last_id db + 1) now])
                  (Store.last_id db + 1))
      /\ ((exists r, In r (Store.rows db)
                     /\ Store.user_input r = Store.seed_user_input) ->
          Store.initDatabase now db = db))
  /\ (forall now db,
        exists r, In r (Store.rows (Store.initDatabase now db))
                  /\ Store.user_input r = Store.seed_user_input)
  /\ (forall now,
        Store.initDatabase now Store.empty = Store.Mk [Spec.seed_row 1 now] 1
        /\ Spec.is_seed (Spec.seed_row 1 now))
  /\ (forall now db,
        Spec.reachable db ->
        exists r, In r (Store.rows (Store.initDatabase now db)) /\ Spec.is_seed r)
  /\ (forall now calls,
        Server.get_scenarios (Server.World (Store.initDatabase now Store.empty) calls)
        = (Return (Server.Response 200 (JArr [])),
           Server.World (Store.initDatabase now Store.empty) calls)).
Proof.
  split; [|split; [|split; [|split]]].
  - intros now db. unfold Store.initDatabase. split; intros H.
    + apply count_user_input_zero in H. rewrite H. reflexivity.
    + destruct (Store.count_user_input Store.seed_user_input db =? 0)%nat eqn:E;
        [|reflexivity].
      apply Nat.eqb_eq in E. destruct H as (r & Hin & Hr).
      now destruct (proj1 (count_user_input_zero _ _) E r Hin).
  - intros now db. unfold Store.initDatabase.
    destruct (Store.count_user_input Store.seed_user_input db =? 0)%nat eqn:E.
    + eexists. split; [apply in_or_app; right; left; reflexivity | reflexivity].
    + unfold Store.count_user_input in E. apply Nat.eqb_neq in E.
      destruct (filter _ (Store.rows db)) as [|r l] eqn:F; [now destruct E|].
      assert (Hr : In r (filter (fun r => String.eqb (Store.user_input r)
                                            Store.seed_user_input) (Store.rows db)))
        by (rewrite F; left; reflexivity).
      apply filter_In in Hr as [Hin Ht]. exists r. split; [exact Hin|].
      now apply String.eqb_eq in Ht.
  - intros now. split; [reflexivity | apply seed_row_is_seed].
  - intros now db Hreach.
    assert (Hr : Spec.reachable (Store.initDatabase now db))
      by (eapply Spec.reachable_step; [exact Hreach | constructor]).
    destruct (reachable_seed_first _ Hr) as (now0 & rest & ->).
    exists (Spec.seed_row 1 now0). split; [left; reflexivity|].
    apply seed_row_is_seed.
  - intros now calls. apply get_scenarios_empty.
Qed.

(** A restart on the table of a deployment inserts nothing; a table that
    holds a row of a user only gets the seed row after it. *)
Lemma initDatabase_seeds_the_store_witness :
  Store.initDatabase "2025-03-01 08:00:00" (Server.db Examples.fresh_world)
  = Server.db Examples.fresh_world
  /\ Store.initDatabase "2025-03-01 08:00:00" Examples.table_of_a_user
     = Store.Mk (Store.rows Examples.table_of_a_user
                   ++ [Spec.seed_row 8 "2025-03-01 08:00:00"]) 8
  /\ exists r,
       In r (Store.rows (Store.initDatabase "2025-03-01 08:00:00"
                           (Server.db Examples.fresh_world)))
       /\ Spec.is_seed r.
Proof.
  split; [|split].
  - apply (proj2 (proj1 initDatabase_seeds_the_store "2025-03-01 08:00:00"
                    (Server.db Examples.fresh_world))).
    eexists. split; [left; reflexivity | reflexivity].
  - apply (proj1 (proj1 initDatabase_seeds_the_store "2025-03-01 08:00:00"
                    Examples.table_of_a_user)).
    intros r [<- | []]. discriminate.
  - apply (proj1 (proj2 (proj2 (proj2 initDatabase_seeds_the_store)))).
    apply Spec.reachable_start.
Defined.

(** Claim C8.  What the three routes give back.  The listing is empty
    whatever the table holds, and the lookup by identifier throws for every
    identifier, so that neither ever returns a record.  The answer to a
    creation is built when the insert has only been passed to the driver:
    for the request of the example it has the members [theme],
    [alt_forecasts], [narrative] and [userInput] and no other, so neither
    [id] nor [user_input] nor [created_at], and the table is still as it
    was. *)
Theorem store_surface_shapes :
  (forall w, Server.get_scenarios w = (Return (Server.Response 200 (JArr [])), w))
  /\ (forall id w, exists e, Server.get_scenario id w = (Throw e, w))
  /\ Server.create_scenario (Examples.answers Examples.plain_completion)
       "2025-06-01T12:00:00.000Z" Examples.fusion_request Examples.fresh_world
     = (Return
          (Server.Response 200
             (JObj [ ("theme", JStr "Cities afloat");
                     ("alt_forecasts", JObj [("global_temp_2100", JNum (dec 21 1))]);
                     ("narrative", JStr "The sea rose.");
                     ("userInput", JStr Examples.fusion_input) ]),
           Some Examples.fusion_insertion),
        Server.World (Server.db Examples.fresh_world)
          [Spec.default_prompt (Some (JStr Examples.fusion_input))])
  /\ Store.rows (Server.db Examples.fresh_world)
     = [Spec.seed_row 1 "2025-01-01 00:00:00"].
Proof.
  split; [|split; [|split]].
  - apply get_scenarios_empty.
  - intros id w. eexists. apply get_scenario_throws.
  - vm_compute. reflexivity.
  - reflexivity.
Qed.

(** ** The forecast engine *)

Section ForecastFacts.

Local Open Scope Q_scope.

Lemma years_from_bounds (fuel : nat) (y x : Z) :
  In x (Client.years_from fuel y) -> (y <= x <= Client.endYear)%Z.
Proof.
  revert y. induction fuel as [|f IH]; intros y; simpl; [tauto|].
  destruct (y <=? Client.endYear)%Z eqn:E; simpl; [|tauto].
  apply Z.leb_le in E. intros [<- | H]; [lia|].
  apply IH in H. lia.
Qed.

(** The loop had fuel enough: it stopped because the year went past 2100. *)
Lemma years_from_enough (fuel : nat) (y : Z) :
  (Client.endYear - y < Z.of_nat fuel)%Z ->
  forall more, Client.years_from (fuel + more) y = Client.years_from fuel y.
Proof.
  revert y. induction fuel as [|f IH]; intros y Hf more.
  - destruct more; simpl; [reflexivity|].
    destruct (y <=? Client.endYear)%Z eqn:E; [|reflexivity].
    apply Z.leb_le in E. lia.
  - simpl. destruct (y <=? Client.endYear)%Z; [|reflexivity].
    f_equal. apply IH. lia.
Qed.

(** The years of the loop are the present year and every tenth year after
    it up to 2100. *)
Lemma years_from_member (fuel : nat) :
  forall y x,
    (Client.endYear - y < Z.of_nat fuel)%Z ->
    In x (Client.years_from fuel y)
    <-> (y <= x <= Client.endYear)%Z /\ (10 | x - y)%Z.
Proof.
  induction fuel as [|f IH]; intros y x Hf.
  - simpl. split; [tauto | lia].
  - cbn [Client.years_from].
    destruct (y <=? Client.endYear)%Z eqn:E.
    + apply Z.leb_le in E. cbn [In]. rewrite IH by lia. split.
      * intros [<- | [Hx [k Hk]]].
        -- split; [lia|]. exists 0%Z. lia.
        -- split; [lia|]. exists (k + 1)%Z. lia.
      * intros [Hx [k Hk]].
        destruct (Z.eq_dec x y) as [-> | Hne]; [now left|].
        right. split; [lia|]. exists (k - 1)%Z. lia.
    + apply Z.leb_gt in E. simpl. split; [tauto | lia].
Qed.

Lemma years_member (currentYear x : Z) :
  In x (Client.years currentYear)
  <-> (currentYear <= x <= Client.endYear)%Z /\ (10 | x - currentYear)%Z.
Proof. apply years_from_member. lia. Qed.

(** There is a sample for 2100 exactly when the present year is a whole
    number of decades before it. *)
Lemma years_reach_end (currentYear : Z) :
  In Client.endYear (Client.years currentYear)
  <-> (currentYear <= Client.endYear)%Z /\ (10 | Client.endYear - currentYear)%Z.
Proof. rewrite years_member. intuition lia. Qed.

(** In 2100 itself the progress is 0/0 and the one sample is not a number. *)
Lemma no_progress_in_the_end_year (data : Client.climate) (alt : Client.targets)
    (random : nat -> Q) :
  option_map Client.temperature
    (Client.generateSpeculativeForecast Client.endYear random (Some data) (Some alt))
  = Some [Client.Sample Client.endYear
            (Client.baseline_at (Client.global_temp data) 0) None].
Proof.
  cbn. unfold Client.temp_sample, Client.progress_of. cbn.
  unfold Client.mul, Client.add, Client.lift2.
  now destruct (Client.sub _ _).
Qed.

Lemma years_bounds (currentYear x : Z) :
  In x (Client.years currentYear) -> (currentYear <= x <= Client.endYear)%Z.
Proof. apply years_from_bounds. Qed.

Lemma nth_error_mapi_from {A B : Type} (f : A -> nat -> B) (l : list A) :
  forall i n,
    nth_error (Client.mapi_from f i l) n
    = option_map (fun x => f x (i + n)%nat) (nth_error l n).
Proof.
  induction l as [|x l IH]; intros i n.
  - destruct n; reflexivity.
  - destruct n; simpl.
    + now rewrite Nat.add_0_r.
    + rewrite IH. now rewrite Nat.add_succ_r.
Qed.

Lemma nth_error_mapi {A B : Type} (f : A -> nat -> B) (l : list A) (n : nat) (b : B) :
  nth_error (Client.mapi f l) n = Some b ->
  exists x, nth_error l n = Some x /\ b = f x n.
Proof.
  unfold Client.mapi. rewrite nth_error_mapi_from.
  destruct (nth_error l n) as [x|]; [|discriminate].
  intros [= <-]. exists x. auto.
Qed.


End ForecastFacts.




(** ** What the decoder returns *)

Section ParseCanonical.

Import JsonText.
Local Open Scope Z_scope.

Lemma strip10_reduced (f : nat) :
  forall m e, m <> 0 -> Z.log2 (Z.abs m) < Z.of_nat f ->
    mant (strip10 f m e) <> 0 /\ mant (strip10 f m e) mod 10 <> 0.
Proof.
  induction f as [|f IH]; intros m e Hm Hf.
  - pose proof (Z.log2_nonneg (Z.abs m)). lia.
  - cbn [strip10].
    destruct (Z.eqb_spec m 0); [contradiction|].
    destruct (Z.eqb_spec (m mod 10) 0) as [E|E]; [|cbn [mant]; split; assumption].
    assert (Hq : m = 10 * (m / 10)) by (pose proof (Z.div_mod m 10); lia).
    assert (Hd : m / 10 <> 0) by lia.
    apply IH; [exact Hd|].
    assert (Hlt : Z.log2 (Z.abs (m / 10)) < Z.log2 (Z.abs m)).
    { assert (Ha : 2 * Z.abs (m / 10) <= Z.abs m) by lia.
      assert (Hp : 0 < Z.abs (m / 10)) by lia.
      pose proof (Z.log2_le_mono _ _ Ha) as Hmono.
      rewrite Z.log2_double in Hmono by exact Hp. lia. }
    lia.
Qed.

(** A number comes out of [norm] in canonical form. *)
Lemma norm_canonical (m e : Z) : Spec.canonical_num (norm m e) = true.
Proof.
  unfold Spec.canonical_num.
  destruct (Z.eq_dec m 0) as [-> | Hm].
  - reflexivity.
  - destruct (strip10_reduced (S (Z.to_nat (Z.log2 (Z.abs m)))) m e Hm) as [H1 H2].
    { pose proof (Z.log2_nonneg (Z.abs m)). lia. }
    fold (norm m e) in H1, H2.
    rewrite (norm_fixed _ (expo (norm m e)) H1 H2).
    unfold num_eqb. cbn [mant expo]. now rewrite !Z.eqb_refl.
Qed.

Lemma parse_number_canonical (s rest : string) (n : num) :
  parse_number s = Some (n, rest) -> Spec.canonical_num n = true.
Proof.
  assert (H : forall neg s, parse_unsigned neg s = Some (n, rest) ->
                            Spec.canonical_num n = true).
  { intros neg s0. unfold parse_unsigned.
    destruct (parse_int_part s0) as [[ip s1]|]; [|discriminate].
    destruct (parse_frac_part s1) as [[fp s2]|]; [|discriminate].
    destruct (parse_exp_part s2) as [[e s3]|]; [|discriminate].
    intros [= <- _]. apply norm_canonical. }
  unfold parse_number. destruct s as [|c r]; [discriminate|].
  destruct (Ascii.eqb c "-"); apply H.
Qed.

Lemma keys_set_field (k : string) (v : json) (acc : list (string * json)) :
  map fst (set_field k v acc)
  = if existsb (fun k' => String.eqb k' k) (map fst acc)
    then map fst acc else (map fst acc ++ [k])%list.
Proof.
  induction acc as [|[k' v'] acc IH]; cbn [set_field map fst existsb]; [reflexivity|].
  destruct (String.eqb_spec k' k) as [-> | Hne]; cbn [orb map fst]; [reflexivity|].
  rewrite IH. now destruct (existsb _ (map fst acc)).
Qed.

Lemma distinct_snoc (keys : list string) (k : string) :
  Spec.distinct keys = true ->
  existsb (fun k' => String.eqb k' k) keys = false ->
  Spec.distinct (keys ++ [k]) = true.
Proof.
  induction keys as [|x keys IH]; cbn [Spec.distinct existsb app]; [reflexivity|].
  intros Hd Hk. apply andb_true_iff in Hd as [Hx Hd].
  apply orb_false_iff in Hk as [Hxk Hk].
  rewrite (IH Hd Hk), andb_true_r.
  rewrite existsb_app. cbn [existsb]. rewrite orb_false_r.
  apply negb_true_iff in Hx. rewrite Hx. cbn [orb]. now rewrite Hxk.
Qed.

Lemma set_field_distinct (k : string) (v : json) (acc : list (string * json)) :
  Spec.distinct (map fst acc) = true ->
  Spec.distinct (map fst (set_field k v acc)) = true.
Proof.
  intros Hd. rewrite keys_set_field.
  destruct (existsb _ (map fst acc)) eqn:E; [exact Hd|].
  now apply distinct_snoc.
Qed.

Lemma set_field_forallb (P : json -> bool) (k : string) (v : json)
    (acc : list (string * json)) :
  forallb (fun kv => P (snd kv)) acc = true -> P v = true ->
  forallb (fun kv => P (snd kv)) (set_field k v acc) = true.
Proof.
  intros Hacc Hv.
  induction acc as [|[k' v'] acc IH]; cbn [set_field forallb snd].
  - now rewrite Hv.
  - cbn [forallb snd] in Hacc. apply andb_true_iff in Hacc as [H1 H2].
    destruct (String.eqb k' k); cbn [forallb snd].
    + now rewrite Hv, H2.
    + now rewrite H1, (IH H2).
Qed.

Lemma set_field_canonical (k : string) (v : json) (acc : list (string * json)) :
  Spec.canonical (JObj acc) = true -> Spec.canonical v = true ->
  Spec.canonical (JObj (set_field k v acc)) = true.
Proof.
  cbn [Spec.canonical]. intros H Hv. apply andb_true_iff in H as [Hd Hf].
  rewrite (set_field_distinct k v acc Hd).
  now rewrite (set_field_forallb Spec.canonical k v acc Hf Hv).
Qed.

Lemma literal_value (word : string) (v w : json) (s rest : string) :
  literal word v s = Some (w, rest) -> w = v.
Proof.
  unfold literal. destruct (strip_prefix word s); [|discriminate].
  now intros [= <- _].
Qed.

Local Arguments parse_number : simpl never.
Local Arguments parse_chars : simpl never.
Local Arguments literal : simpl never.

Lemma parse_value_canonical (fuel : nat) :
  (forall s v rest, parse_value fuel s = Some (v, rest) -> Spec.canonical v = true)
  /\ (forall s acc v rest,
         forallb Spec.canonical acc = true ->
         parse_elements fuel s acc = Some (v, rest) -> Spec.canonical v = true)
  /\ (forall s acc v rest,
         Spec.canonical (JObj acc) = true ->
         parse_members fuel s acc = Some (v, rest) -> Spec.canonical v = true).
Proof.
  induction fuel as [|f (IHv & IHe & IHm)]; [repeat split; discriminate|].
  split; [|split].
  - intros s v rest. cbn [parse_value].
    destruct (skip_ws s) as [|c r]; [discriminate|].
    destruct (Ascii.eqb c "{").
    { destruct (skip_ws r) as [|c1 r1]; [discriminate|].
      destruct (Ascii.eqb c1 "}"); [now intros [= <- _]|].
      now apply IHm. }
    destruct (Ascii.eqb c "[").
    { destruct (skip_ws r) as [|c1 r1]; [discriminate|].
      destruct (Ascii.eqb c1 "]"); [now intros [= <- _]|].
      now apply IHe. }
    destruct (Ascii.eqb c Str.dq).
    { destruct (parse_chars r) as [[t rest']|]; [|discriminate].
      now intros [= <- _]. }
    destruct (Ascii.eqb c "t"); [intros H; now rewrite (literal_value _ _ _ _ _ H)|].
    destruct (Ascii.eqb c "f"); [intros H; now rewrite (literal_value _ _ _ _ _ H)|].
    destruct (Ascii.eqb c "n"); [intros H; now rewrite (literal_value _ _ _ _ _ H)|].
    destruct (parse_number (String c r)) as [[n rest']|] eqn:E; [|discriminate].
    intros [= <- _]. cbn [Spec.canonical]. eapply parse_number_canonical, E.
  - intros s acc v rest Hacc. cbn [parse_elements].
    destruct (parse_value f s) as [[x s1]|] eqn:E; [|discriminate].
    assert (Hx : forallb Spec.canonical (acc ++ [x]) = true).
    { rewrite forallb_app, Hacc. cbn [forallb]. now rewrite (IHv _ _ _ E). }
    destruct (skip_ws s1) as [|c r]; [discriminate|].
    destruct (Ascii.eqb c ","); [now apply IHe|].
    destruct (Ascii.eqb c "]"); [|discriminate].
    now intros [= <- _].
  - intros s acc v rest Hacc. cbn [parse_members].
    destruct (skip_ws s) as [|q r]; [discriminate|].
    destruct (Ascii.eqb q Str.dq); [|discriminate].
    destruct (parse_chars r) as [[k s1]|]; [|discriminate].
    destruct (skip_ws s1) as [|c s2]; [discriminate|].
    destruct (Ascii.eqb c ":"); [|discriminate].
    destruct (parse_value f s2) as [[x s3]|] eqn:E; [|discriminate].
    pose proof (set_field_canonical k x acc Hacc (IHv _ _ _ E)) as Hset.
    destruct (skip_ws s3) as [|d s4]; [discriminate|].
    destruct (Ascii.eqb d ","); [now apply IHm|].
    destruct (Ascii.eqb d "}"); [|discriminate].
    now intros [= <- _].
Qed.

(** Whatever [JSON.parse] returns is in canonical form: it is read back
    from its own serialisation. *)
Lemma parse_canonical (s : string) (v : json) :
  parse s = Some v -> Spec.canonical v = true.
Proof.
  unfold parse.
  destruct (parse_value _ s) as [[w rest]|] eqn:E; [|discriminate].
  destruct (skip_ws rest); [|discriminate].
  intros [= <-]. eapply (proj1 (parse_value_canonical _)), E.
Qed.

Lemma parse_completion_canonical (content : string) (v : json) :
  Server.parse_completion content = Return v -> Spec.canonical v = true.
Proof.
  unfold Server.parse_completion.
  destruct (parse (Str.trim content)) as [w|] eqn:E.
  - intros [= <-]. now apply parse_canonical in E.
  - destruct (Str.match_braces (Str.trim content)) as [m|]; [|discriminate].
    destruct (parse m) as [w|] eqn:E'; [|discriminate].
    intros [= <-]. now apply parse_canonical in E'.
Qed.


End ParseCanonical.
(** ** The table under the handlers *)

Section Restart.

Local Open Scope Z_scope.

Lemma seed_counted (now : string) (db : Store.store) :
  Store.count_user_input Store.seed_user_input (Store.initDatabase now db) <> 0%nat.
Proof.
  unfold Store.initDatabase.
  destruct (Store.count_user_input Store.seed_user_input db =? 0)%nat eqn:E.
  - unfold Store.count_user_input. cbn [Store.rows].
    rewrite filter_app, length_app. cbn [filter Store.user_input].
    rewrite String.eqb_refl. cbn [List.length]. lia.
  - now apply Nat.eqb_neq in E.
Qed.

Lemma initDatabase_again (now now' : string) (db : Store.store) :
  Store.initDatabase now' (Store.initDatabase now db) = Store.initDatabase now db.
Proof.
  unfold Store.initDatabase at 1.
  pose proof (seed_counted now db) as H. apply Nat.eqb_neq in H. now rewrite H.
Qed.

Lemma reachable_seeded (db : Store.store) :
  Spec.reachable db -> Store.count_user_input Store.seed_user_input db <> 0%nat.
Proof.
  intros H. destruct (reachable_seed_first db H) as (now & rest & E).
  unfold Store.count_user_input. rewrite E.
  cbn [filter Spec.seed_row Store.user_input].
  rewrite String.eqb_refl. cbn [List.length]. lia.
Qed.

End Restart.

(** Property X2.  Running [initDatabase] a second
    time changes nothing, whatever the table was before the first run; and
    on a table the server can reach it changes nothing at all: a restart
    never inserts the seed twice. *)
Theorem initDatabase_is_idempotent :
  (forall now now' db,
      Store.initDatabase now' (Store.initDatabase now db) = Store.initDatabase now db)
  /\ (forall now db, Spec.reachable db -> Store.initDatabase now db = db).
Proof.
  split.
  - apply initDatabase_again.
  - intros now db H. apply reachable_seeded in H.
    unfold Store.initDatabase. apply Nat.eqb_neq in H. now rewrite H.
Qed.

Lemma initDatabase_is_idempotent_witness :
  Store.initDatabase "2025-03-01 08:00:00" (Server.db Examples.fresh_world)
  = Server.db Examples.fresh_world.
Proof.
  apply (proj2 initDatabase_is_idempotent). apply Spec.reachable_start.
Defined.

(** ** The answer to a creation *)

Section Members.

Lemma lookup_app (k : string) (a b : list (string * json)) :
  lookup k (a ++ b)
  = match lookup k a with
    | Some v => Some v
    | None => lookup k b
    end.
Proof.
  induction a as [|[k0 v0] a IH]; cbn [app lookup]; [reflexivity|].
  now destruct (String.eqb k0 k).
Qed.

Lemma lookup_absent (k : string) (fs : list (string * json)) :
  existsb (fun k' => String.eqb k' k) (map fst fs) = false -> lookup k fs = None.
Proof.
  induction fs as [|[k0 v0] fs IH]; cbn [map fst existsb lookup]; [reflexivity|].
  intros H. apply orb_false_iff in H as [-> H]. now apply IH.
Qed.

Lemma existsb_eqb_sym (k : string) (keys : list string) :
  existsb (String.eqb k) keys = existsb (fun k' => String.eqb k' k) keys.
Proof.
  induction keys as [|x keys IH]; cbn [existsb]; [reflexivity|].
  now rewrite IH, String.eqb_sym.
Qed.

(** With distinct keys the first member of a name is also the last. *)
Lemma lookup_rev (k : string) (fs : list (string * json)) :
  Spec.distinct (map fst fs) = true -> lookup k (rev fs) = lookup k fs.
Proof.
  induction fs as [|[k0 v0] fs IH]; cbn [map fst Spec.distinct rev lookup];
    [reflexivity|].
  intros H. apply andb_true_iff in H as [H0 H]. apply negb_true_iff in H0.
  rewrite existsb_eqb_sym in H0.
  rewrite lookup_app, (IH H). cbn [lookup].
  destruct (String.eqb_spec k0 k) as [-> | Hne].
  - now rewrite (lookup_absent k fs H0).
  - now destruct (lookup k fs).
Qed.


(** The members of an object literal after a write, after a spread, and as
    they are sent. *)
Lemma sent_absent (k : string) (l : list (string * option json)) :
  ~ In k (map fst l) -> lookup k (Server.sent l) = None.
Proof.
  induction l as [|[k0 [v0|]] l IH]; cbn [map fst In Server.sent lookup];
    [reflexivity| |]; intros H.
  - destruct (String.eqb_spec k0 k) as [-> | _]; [tauto | apply IH; tauto].
  - apply IH. tauto.
Qed.

Lemma keys_assign (k : string) (v : option json) (l : list (string * option json)) :
  forall x, In x (map fst (Server.assign k v l)) <-> x = k \/ In x (map fst l).
Proof.
  induction l as [|[k0 v0] l IH]; intros x; cbn [Server.assign map fst In].
  - intuition.
  - destruct (String.eqb_spec k0 k) as [-> | Hne]; cbn [map fst In].
    + intuition.
    + rewrite IH. intuition.
Qed.

Lemma assign_distinct (k : string) (v : option json) (l : list (string * option json)) :
  NoDup (map fst l) -> NoDup (map fst (Server.assign k v l)).
Proof.
  induction l as [|[k0 v0] l IH]; cbn [Server.assign map fst]; intros H.
  - constructor; [intros [] | constructor].
  - inversion H as [|? ? Hnot Hrest]; subst.
    destruct (String.eqb_spec k0 k) as [-> | Hne]; cbn [map fst].
    + now constructor.
    + constructor; [|now apply IH].
      rewrite keys_assign. intros [-> | Hin]; [now destruct Hne | now destruct Hnot].
Qed.

Lemma lookup_assign (k k' : string) (v : option json) (l : list (string * option json)) :
  NoDup (map fst l) ->
  lookup k (Server.sent (Server.assign k' v l))
  = if String.eqb k' k then v else lookup k (Server.sent l).
Proof.
  induction l as [|[k0 v0] l IH]; cbn [Server.assign map fst]; intros H.
  - destruct v as [j|]; cbn [Server.sent lookup]; now destruct (String.eqb k' k).
  - inversion H as [|? ? Hnot Hrest]; subst.
    destruct (String.eqb_spec k0 k') as [-> | Hne].
    + destruct (String.eqb_spec k' k) as [-> | Hne'].
      * destruct v as [j|]; cbn [Server.sent lookup].
        -- now rewrite String.eqb_refl.
        -- now apply sent_absent.
      * destruct v as [j|], v0 as [j0|]; cbn [Server.sent lookup];
          try (apply String.eqb_neq in Hne'; rewrite Hne'); reflexivity.
    + specialize (IH Hrest).
      destruct v0 as [j0|]; cbn [Server.sent lookup]; [|exact IH].
      destruct (String.eqb_spec k0 k) as [-> | Hne'].
      * apply String.eqb_neq in Hne. now rewrite String.eqb_sym, Hne.
      * exact IH.
Qed.

Lemma spread_distinct (fs : list (string * json)) (into : list (string * option json)) :
  NoDup (map fst into) -> NoDup (map fst (Server.spread fs into)).
Proof.
  unfold Server.spread. revert into.
  induction fs as [|[k0 v0] fs IH]; intros into H; cbn [fold_left fst snd];
    [exact H|].
  apply IH. now apply assign_distinct.
Qed.

Lemma lookup_spread (k : string) (fs : list (string * json))
    (into : list (string * option json)) :
  NoDup (map fst into) ->
  lookup k (Server.sent (Server.spread fs into))
  = match lookup k (rev fs) with
    | Some v => Some v
    | None => lookup k (Server.sent into)
    end.
Proof.
  revert into.
  induction fs as [|[k0 v0] fs IH]; intros into H.
  - reflexivity.
  - change (Server.spread ((k0, v0) :: fs) into)
      with (Server.spread fs (Server.assign k0 (Some v0) into)).
    rewrite IH by now apply assign_distinct.
    rewrite lookup_assign by assumption.
    cbn [rev]. rewrite lookup_app. cbn [lookup].
    destruct (lookup k (rev fs)); [reflexivity|].
    now destruct (String.eqb k0 k).
Qed.

(** The members of the answer to a creation whose completion decoded to an
    object with distinct keys. *)
Lemma lookup_created (k : string) (u : option json) (completion : list (string * json)) :
  Spec.distinct (map fst completion) = true ->
  lookup k (Server.sent
              (Server.assign "userInput" u
                 (Server.spread completion [("id", None)])))
  = if String.eqb k "userInput" then u else lookup k completion.
Proof.
  intros Hd.
  assert (Hid : NoDup (map fst [("id", @None json)]))
    by (constructor; [intros [] | constructor]).
  rewrite lookup_assign by now apply spread_distinct.
  rewrite lookup_spread by assumption.
  rewrite (lookup_rev k completion Hd), (String.eqb_sym k "userInput").
  cbn [Server.sent lookup]. now destruct (lookup k completion).
Qed.

End Members.

Section HandlerRuns.

Variable openai : Server.completion_service.
Variable now : string.

Lemma generation_arguments_input (reqBody : json) (u b h : option json) :
  Server.generation_arguments reqBody = Return (u, b, h) ->
  get (Some reqBody) "userInput" = Return u.
Proof.
  unfold Server.generation_arguments, bind.
  destruct (get (Some reqBody) "userInput") as [u0|]; [|discriminate].
  destruct (get (Some reqBody) "baselineData") as [b0|]; [|discriminate].
  destruct (get (Some reqBody) "humanImpacts") as [h0|]; [|discriminate].
  now intros [= <- _ _].
Qed.

(** Every run of the handler: it answers 500 and passes nothing to the
    driver, or the completion decoded to a value other than [null] and it
    answers 200 with what that value gives. *)
Lemma create_scenario_cases (reqBody : json) (w : Server.world) :
  (exists calls',
      Server.create_scenario openai now reqBody w
      = (Return (Spec.failure_response, None), Server.World (Server.db w) calls')
      /\ (calls' = Server.calls w \/ exists p, calls' = (Server.calls w ++ [p])%list))
  \/ exists u b h p content aiResponse,
       Server.generation_arguments reqBody = Return (u, b, h)
       /\ Server.build_prompt u b h = Return p
       /\ openai p = Return content
       /\ Server.parse_completion content = Return aiResponse
       /\ aiResponse <> JNull
       /\ Server.create_scenario openai now reqBody w
          = (Return (Server.Response 200 (Notions.created u aiResponse),
                     Some (Notions.handed_over u aiResponse now)),
             Server.World (Server.db w) (Server.calls w ++ [p])).
Proof.
  destruct (Server.generation_arguments reqBody) as [[[u b] h]|e] eqn:Hargs.
  2:{ left. exists (Server.calls w).
      rewrite (create_scenario_without_arguments _ _ _ _ _ Hargs).
      destruct w. auto. }
  destruct (Server.build_prompt u b h) as [p|e] eqn:Hp.
  2:{ left. exists (Server.calls w).
      rewrite (create_scenario_refused _ _ _ _ _ _ _ _ Hargs Hp). destruct w. auto. }
  rewrite (create_scenario_called _ _ _ _ _ _ _ _ Hargs Hp).
  destruct (openai p) as [content|e] eqn:Hc; [|left; eauto].
  destruct (Server.parse_completion content) as [ai|e] eqn:Hai; [|left; eauto].
  destruct ai; try (right; exists u, b, h, p, content; eexists;
                    repeat (split; [eassumption || discriminate || reflexivity|]);
                    reflexivity).
  left. eauto.
Qed.

End HandlerRuns.



(** Property X5.  Whether a request
    reaches the completion service is decided by what the template of the
    prompt reads and quotes.  The baseline in force must have the series
    [global_temp] and [sea_level_rise], the human impacts in force the
    counts [death_toll_annual] and [refugees], and the values quoted, the
    input of the user among them, must be such that the template can turn
    them into strings.  When one of this fails the handler answers 500 at
    once, sends nothing and passes nothing to the driver; otherwise it sends
    exactly one prompt, made of these values.  The defaults of the handler
    pass. *)
Theorem prompt_needs_two_series_and_two_counts
    (openai : Server.completion_service) (now : string) (reqBody : json)
    (w : Server.world) (u b h : option json) :
  Server.generation_arguments reqBody = Return (u, b, h) ->
  (Notions.printable u && Notions.promptable b h = false ->
   Server.create_scenario openai now reqBody w
   = (Return (Spec.failure_response, None), w))
  /\ (Notions.printable u && Notions.promptable b h = true ->
      Server.build_prompt u b h = Return (Notions.prompt_of u b h)
      /\ Server.calls (snd (Server.post_scenarios openai now reqBody w))
         = (Server.calls w ++ [Notions.prompt_of u b h])%list)
  /\ Notions.promptable (Some Server.default_baselineData)
       (Some Server.default_humanImpacts) = true.
Proof.
  intros Hargs. split; [|split; [|reflexivity]].
  - intros Hno. destruct (build_prompt_refused u b h Hno) as [e He].
    now apply create_scenario_refused with u b h e.
  - intros Hyes. apply andb_true_iff in Hyes as [Hu Hd].
    pose proof (build_prompt_built u b h Hu Hd) as Hp.
    split; [exact Hp|]. now apply post_scenarios_calls with u b h.
Qed.

Lemma prompt_needs_two_series_and_two_counts_witness :
  Server.create_scenario Examples.unavailable "2025-06-01T12:00:00.000Z"
    Examples.partial_baseline_request Examples.fresh_world
  = (Return (Spec.failure_response, None), Examples.fresh_world)
  /\ Server.create_scenario (Examples.answers Examples.plain_completion)
       "2025-06-01T12:00:00.000Z" Examples.unprintable_refugees_request
       Examples.fresh_world
     = (Return (Spec.failure_response, None), Examples.fresh_world)
  /\ Server.calls
       (snd (Server.post_scenarios Examples.unavailable
               "2025-06-01T12:00:00.000Z" Examples.fusion_request
               Examples.fresh_world))
     = (Server.calls Examples.fresh_world
          ++ [Notions.prompt_of (Some (JStr Examples.fusion_input))
                (Some Server.default_baselineData)
                (Some Server.default_humanImpacts)])%list.
Proof.
  split; [|split].
  - apply (proj1 (prompt_needs_two_series_and_two_counts
                    Examples.unavailable "2025-06-01T12:00:00.000Z"
                    Examples.partial_baseline_request Examples.fresh_world
                    (Some (JStr Examples.fusion_input))
                    (Some Examples.partial_baseline)
                    (Some Server.default_humanImpacts) eq_refl)).
    reflexivity.
  - apply (proj1 (prompt_needs_two_series_and_two_counts
                    (Examples.answers Examples.plain_completion)
                    "2025-06-01T12:00:00.000Z"
                    Examples.unprintable_refugees_request Examples.fresh_world
                    (Some (JStr Examples.fusion_input))
                    (Some Server.default_baselineData)
                    (Some Examples.unprintable_refugees) eq_refl)).
    reflexivity.
  - apply (proj1 (proj2 (prompt_needs_two_series_and_two_counts
                    Examples.unavailable "2025-06-01T12:00:00.000Z"
                    Examples.fusion_request Examples.fresh_world
                    (Some (JStr Examples.fusion_input))
                    (Some Server.default_baselineData)
                    (Some Server.default_humanImpacts) eq_refl))).
    reflexivity.
Defined.

(** Property X6.  When [POST /api/scenarios]
    answers 200 it has sent one prompt, the completion has decoded to a
    value other than [null], and the table is as it was.  When that value
    is an object, the members of the answer are those of the object, except
    for [userInput], which is the input of the request, left out when the
    request has none.  In particular the answer has a member [id] only if
    the completion has one: the identifier of the row is not known when
    the answer is built. *)
Theorem created_scenario_members (openai : Server.completion_service) (now : string)
    (reqBody : json) (w : Server.world) (r : Server.response) (w' : Server.world) :
  Server.post_scenarios openai now reqBody w = (Return r, w') ->
  Server.status r = 200 ->
  exists u p content aiResponse fields,
    get (Some reqBody) "userInput" = Return u
    /\ w' = Server.World (Server.db w) (Server.calls w ++ [p])
    /\ openai p = Return content
    /\ Server.parse_completion content = Return aiResponse
    /\ aiResponse <> JNull
    /\ Server.body r = JObj fields
    /\ forall completion,
         aiResponse = JObj completion ->
         forall k, lookup k fields
                   = if String.eqb k "userInput" then u else lookup k completion.
Proof.
  intros Hpost Hok. rewrite post_scenarios_answer in Hpost.
  destruct (create_scenario_cases openai now reqBody w)
    as [(calls' & Hrun & _)
       | (u & b & h & p & content & ai & Hargs & _ & Hc & Hai & Hnn & Hrun)];
    rewrite Hrun in Hpost; cbn [fst] in Hpost; injection Hpost as <- <-.
  - discriminate Hok.
  - exists u, p, content, ai. eexists.
    split; [now apply generation_arguments_input with b h|].
    repeat (split; [assumption || reflexivity|]).
    intros completion -> k. apply lookup_created.
    apply parse_completion_canonical in Hai. cbn [Spec.canonical] in Hai.
    now apply andb_true_iff in Hai as [Hd _].
Qed.

Lemma created_scenario_members_witness :
  exists u p content aiResponse fields,
    get (Some Examples.fusion_request) "userInput" = Return u
    /\ Server.World (Server.db Examples.fresh_world)
         [Spec.default_prompt (Some (JStr Examples.fusion_input))]
       = Server.World (Server.db Examples.fresh_world)
           (Server.calls Examples.fresh_world ++ [p])
    /\ Examples.answers Examples.plain_completion p = Return content
    /\ Server.parse_completion content = Return aiResponse
    /\ aiResponse <> JNull
    /\ Server.body
         (Server.Response 200
            (JObj [ ("theme", JStr "Cities afloat");
                    ("alt_forecasts", JObj [("global_temp_2100", JNum (dec 21 1))]);
                    ("narrative", JStr "The sea rose.");
                    ("userInput", JStr Examples.fusion_input) ]))
       = JObj fields
    /\ forall completion,
         aiResponse = JObj completion ->
         forall k, lookup k fields
                   = if String.eqb k "userInput" then u else lookup k completion.
Proof.
  apply (created_scenario_members (Examples.answers Examples.plain_completion)
           "2025-06-01T12:00:00.000Z" Examples.fusion_request Examples.fresh_world).
  - vm_compute. reflexivity.
  - reflexivity.
Defined.
(** ** The narrative route *)

Section NarrativeRoute.

Import Template.

Variable locale : num -> string.
Variable today : string.

(** With data the templates can read and quote, the prompt and the
    fallback text of the bulletin are evaluated without a failure, and so
    are those of a question that can be quoted. *)
Lemma narrative_texts (b h q : option json) :
  Notions.promptable b h = true ->
  let f := Notions.figures_of locale b h in
  Api.bulletin_prompt locale b h
  = Return (Api.bulletin_prompt_text (Notions.temperature f) (Notions.sea_level f)
              (Notions.deaths f) (Notions.refugees f) (Notions.gdp f))
  /\ Api.generateFallbackNarrative locale today b h None
     = Return (Notions.fallback_text today None f)
  /\ (Notions.printable q = true ->
      Api.question_prompt locale q b h
      = Return (Api.question_prompt_text (Notions.quoted q) (Notions.temperature f)
                  (Notions.sea_level f) (Notions.deaths f) (Notions.refugees f)
                  (Notions.gdp f))
      /\ Api.generateFallbackNarrative locale today b h q
         = Return (Notions.fallback_text today q f)).
Proof.
  intros H. cbv zeta. unfold Notions.promptable in H.
  repeat (apply andb_true_iff in H as [H ?]).
  assert (E1 := get_of_readable b "global_temp" ltac:(assumption)).
  assert (E2 := get_of_readable (Notions.member b "global_temp") "current"
                  ltac:(assumption)).
  assert (E3 := interpolate_printable
                  (Notions.member (Notions.member b "global_temp") "current")
                  ltac:(assumption)).
  assert (E4 := get_of_readable b "sea_level_rise" ltac:(assumption)).
  assert (E5 := get_of_readable (Notions.member b "sea_level_rise") "current"
                  ltac:(assumption)).
  assert (E6 := interpolate_printable
                  (Notions.member (Notions.member b "sea_level_rise") "current")
                  ltac:(assumption)).
  assert (E7 := get_of_readable h "death_toll_annual" ltac:(assumption)).
  assert (E8 := toLocaleString_localizable locale
                  (Notions.member h "death_toll_annual") ltac:(assumption)).
  assert (E9 := get_of_readable h "refugees" ltac:(assumption)).
  assert (E10 := toLocaleString_localizable locale (Notions.member h "refugees")
                   ltac:(assumption)).
  assert (E11 := get_of_readable h "gdp_loss_percent" ltac:(assumption)).
  assert (E12 := interpolate_printable (Notions.member h "gdp_loss_percent")
                   ltac:(assumption)).
  unfold Api.question_prompt, Api.bulletin_prompt, Api.generateFallbackNarrative,
    Notions.fallback_text, Notions.figures_of, bind.
  cbn [Notions.temperature Notions.sea_level Notions.deaths Notions.refugees
       Notions.gdp truthy].
  rewrite E1, E2, E3, E4, E5, E6, E7, E8, E9, E10, E11, E12.
  split; [reflexivity|]. split; [reflexivity|].
  intros Hq. rewrite (interpolate_printable q Hq).
  split; [reflexivity|]. destruct (truthy q); reflexivity.
Qed.

Lemma bulletin_prompt_fails (b h : option json) :
  Notions.promptable b h = false ->
  exists e, Api.bulletin_prompt locale b h = Throw e.
Proof.
  unfold Notions.promptable, Api.bulletin_prompt, bind.
  destruct (Notions.readable b) eqn:Eb; cbn [andb].
  2:{ intros _. destruct (get_of_unreadable b "global_temp" Eb) as [e ->]. eauto. }
  rewrite (get_of_readable b "global_temp" Eb).
  destruct (Notions.readable (Notions.member b "global_temp")) eqn:Egt; cbn [andb].
  2:{ intros _. destruct (get_of_unreadable _ "current" Egt) as [e ->]. eauto. }
  rewrite (get_of_readable _ "current" Egt).
  destruct (Notions.printable (Notions.member (Notions.member b "global_temp") "current"))
    eqn:Egtc; cbn [andb].
  2:{ intros _. destruct (interpolate_unprintable _ Egtc) as [e ->]. eauto. }
  rewrite (interpolate_printable _ Egtc), (get_of_readable b "sea_level_rise" Eb).
  destruct (Notions.readable (Notions.member b "sea_level_rise")) eqn:Esl; cbn [andb].
  2:{ intros _. destruct (get_of_unreadable _ "current" Esl) as [e ->]. eauto. }
  rewrite (get_of_readable _ "current" Esl).
  destruct (Notions.printable (Notions.member (Notions.member b "sea_level_rise") "current"))
    eqn:Eslc; cbn [andb].
  2:{ intros _. destruct (interpolate_unprintable _ Eslc) as [e ->]. eauto. }
  rewrite (interpolate_printable _ Eslc).
  destruct (Notions.readable h) eqn:Eh; cbn [andb].
  2:{ intros _. destruct (get_of_unreadable h "death_toll_annual" Eh) as [e ->]. eauto. }
  rewrite (get_of_readable h "death_toll_annual" Eh).
  destruct (Notions.localizable (Notions.member h "death_toll_annual")) eqn:Edt;
    cbn [andb].
  2:{ intros _. destruct (toLocaleString_unlocalizable locale _ Edt) as [e ->]. eauto. }
  rewrite (toLocaleString_localizable locale _ Edt), (get_of_readable h "refugees" Eh).
  destruct (Notions.localizable (Notions.member h "refugees")) eqn:Erf; cbn [andb].
  2:{ intros _. destruct (toLocaleString_unlocalizable locale _ Erf) as [e ->]. eauto. }
  rewrite (toLocaleString_localizable locale _ Erf),
    (get_of_readable h "gdp_loss_percent" Eh).
  intros Egdp. destruct (interpolate_unprintable _ Egdp) as [e ->]. eauto.
Qed.

(** The prompt of a question reads and quotes what the prompt of the
    bulletin does, after the question. *)
Lemma question_prompt_fails (b h q : option json) (e : string) :
  Api.bulletin_prompt locale b h = Throw e ->
  exists e', Api.question_prompt locale q b h = Throw e'.
Proof.
  unfold Api.question_prompt, Api.bulletin_prompt, bind.
  destruct (interpolate q); [|eauto].
  repeat match goal with
         | |- context [match ?x with Return _ => _ | Throw _ => _ end] =>
             destruct x; [|eauto]
         end.
  discriminate.
Qed.

Lemma narrative_prompts_fail (b h q : option json) :
  Notions.promptable b h = false ->
  (exists e, Api.question_prompt locale q b h = Throw e)
  /\ (exists e, Api.bulletin_prompt locale b h = Throw e).
Proof.
  intros H. destruct (bulletin_prompt_fails b h H) as [e He].
  split; [now apply question_prompt_fails with e | eauto].
Qed.

(** What decides the answer of the route: the data, and the question when
    there is one. *)
Lemma post_narrative_answered (openai : Api.narrative_service) (reqBody : json)
    (b h q : option json) :
  Api.narrative_arguments reqBody = Return (b, h, q) ->
  Notions.promptable b h = true ->
  negb (truthy q) || Notions.printable q = true ->
  Api.post_narrative openai locale today reqBody
  = (Api.narrative_response
       match openai (Notions.prompt_text q (Notions.figures_of locale b h)) with
       | Return content => content
       | Throw _ => Notions.fallback_text today q (Notions.figures_of locale b h)
       end,
     [Notions.prompt_text q (Notions.figures_of locale b h)]).
Proof.
  intros Hargs Hyes Hq. unfold Api.post_narrative. rewrite Hargs.
  destruct (narrative_texts b h q Hyes) as (Hb & Hf0 & Hquestion).
  unfold Notions.prompt_text.
  destruct (truthy q) eqn:Eq.
  - cbn [negb orb] in Hq. destruct (Hquestion Hq) as [Hp Hf].
    rewrite Hp, Hf. unfold Api.complete.
    destruct (openai _); reflexivity.
  - rewrite Hb, Hf0. unfold Api.complete, Notions.fallback_text. rewrite Eq.
    cbn [truthy]. destruct (openai _); reflexivity.
Qed.

Lemma post_narrative_refused (openai : Api.narrative_service) (reqBody : json)
    (b h q : option json) :
  Api.narrative_arguments reqBody = Return (b, h, q) ->
  Notions.promptable b h && (negb (truthy q) || Notions.printable q) = false ->
  Api.post_narrative openai locale today reqBody = (Api.narrative_failure, []).
Proof.
  intros Hargs Hno. unfold Api.post_narrative. rewrite Hargs.
  destruct (Notions.promptable b h) eqn:Hd; cbn [andb] in Hno.
  - apply orb_false_iff in Hno as [Ht Hq]. apply negb_false_iff in Ht.
    rewrite Ht. destruct (interpolate_unprintable q Hq) as [e He].
    unfold Api.question_prompt, bind. rewrite He. reflexivity.
  - destruct (narrative_prompts_fail b h q Hd) as [[e1 H1] [e2 H2]].
    rewrite H1, H2. now destruct (truthy q).
Qed.

End NarrativeRoute.

(** Property X12.  What decides the answer of
    [POST /api/narrative/generate] is the request alone.  When the baseline
    and the human impacts of the request have the two series and the two
    counts the templates read, with values they can quote, and the
    question, if the request has a truthy one, can be quoted as well, the
    route answers 200 whatever the completion service does: it sends one
    prompt, about the question when there is one and for a bulletin
    otherwise, and answers with the completion or, when the call fails,
    with the fallback text of the same kind.  In every other case it
    answers 500 and sends nothing: the prompt is evaluated outside the
    inner [try], and there are no defaults on this route. *)
Theorem narrative_is_always_answered (openai : Api.narrative_service)
    (locale : num -> string) (today : string) (reqBody : json)
    (b h q : option json) :
  Api.narrative_arguments reqBody = Return (b, h, q) ->
  let quotable :=
    Notions.promptable b h && (negb (truthy q) || Notions.printable q) in
  (quotable = true ->
   let f := Notions.figures_of locale b h in
   let p := Notions.prompt_text q f in
   Api.post_narrative openai locale today reqBody
   = (Api.narrative_response
        match openai p with
        | Return content => content
        | Throw _ => Notions.fallback_text today q f
        end,
      [p]))
  /\ (quotable = false ->
      Api.post_narrative openai locale today reqBody = (Api.narrative_failure, [])).
Proof.
  intros Hargs. cbv zeta. split.
  - intros Hyes. apply andb_true_iff in Hyes as [Hd Hq].
    now apply post_narrative_answered.
  - intros Hno. now apply post_narrative_refused with b h q.
Qed.

Lemma narrative_is_always_answered_witness :
  Api.post_narrative (fun _ => Throw "connect ECONNREFUSED")
    (fun n => JsonText.num_to_string n) "6/1/2025"
    (JObj [ ("baselineData", Api.baselineData); ("humanImpacts", Api.humanImpacts);
            ("question", JStr "Will it get worse?") ])
  = (Api.narrative_response
       (Notions.fallback_text "6/1/2025" (Some (JStr "Will it get worse?"))
          (Notions.figures_of (fun n => JsonText.num_to_string n)
             (Some Api.baselineData) (Some Api.humanImpacts))),
     [Notions.prompt_text (Some (JStr "Will it get worse?"))
        (Notions.figures_of (fun n => JsonText.num_to_string n)
           (Some Api.baselineData) (Some Api.humanImpacts))])
  /\ Api.post_narrative (fun _ => Throw "connect ECONNREFUSED")
       (fun n => JsonText.num_to_string n) "6/1/2025" (JObj [])
     = (Api.narrative_failure, [])
  /\ Api.post_narrative (fun _ => Return "All is well.")
       (fun n => JsonText.num_to_string n) "6/1/2025"
       (JObj [ ("baselineData", Api.baselineData);
               ("humanImpacts", Api.humanImpacts);
               ("question", JObj [("toString", JNull)]) ])
     = (Api.narrative_failure, [])
  /\ Api.post_narrative (fun _ => Return "All is well.")
       (fun n => JsonText.num_to_string n) "6/1/2025"
       (JObj [ ("baselineData", Api.baselineData);
               ("humanImpacts", Examples.unprintable_refugees) ])
     = (Api.narrative_failure, []).
Proof.
  split; [|split; [|split]].
  - apply (proj1 (narrative_is_always_answered (fun _ => Throw "connect ECONNREFUSED")
                    (fun n => JsonText.num_to_string n) "6/1/2025"
                    (JObj [ ("baselineData", Api.baselineData);
                            ("humanImpacts", Api.humanImpacts);
                            ("question", JStr "Will it get worse?") ])
                    (Some Api.baselineData) (Some Api.humanImpacts)
                    (Some (JStr "Will it get worse?")) eq_refl)).
    reflexivity.
  - apply (proj2 (narrative_is_always_answered (fun _ => Throw "connect ECONNREFUSED")
                    (fun n => JsonText.num_to_string n) "6/1/2025" (JObj [])
                    None None None eq_refl)).
    reflexivity.
  - apply (proj2 (narrative_is_always_answered (fun _ => Return "All is well.")
                    (fun n => JsonText.num_to_string n) "6/1/2025"
                    (JObj [ ("baselineData", Api.baselineData);
                            ("humanImpacts", Api.humanImpacts);
                            ("question", JObj [("toString", JNull)]) ])
                    (Some Api.baselineData) (Some Api.humanImpacts)
                    (Some (JObj [("toString", JNull)])) eq_refl)).
    reflexivity.
  - apply (proj2 (narrative_is_always_answered (fun _ => Return "All is well.")
                    (fun n => JsonText.num_to_string n) "6/1/2025"
                    (JObj [ ("baselineData", Api.baselineData);
                            ("humanImpacts", Examples.unprintable_refugees) ])
                    (Some Api.baselineData) (Some Examples.unprintable_refugees)
                    None eq_refl)).
    reflexivity.
Defined.
Section NarrativeTab.

Import Template.

Variable locale : num -> string.
Variable today : string.

Lemma fallback_texts_agree :
  Dashboard.bulletin_fallback_text = Api.bulletin_fallback_text
  /\ Dashboard.question_fallback_text = Api.question_fallback_text.
Proof. split; reflexivity. Qed.

(** The texts the client falls back on are those of the server. *)
Lemma client_fallbacks (c i : option json) (asked : string) :
  Notions.promptable c i = true ->
  Dashboard.bulletin_fallback locale today c i
  = Return (Notions.fallback_text today None (Notions.figures_of locale c i))
  /\ (asked <> EmptyString ->
      Dashboard.question_fallback locale asked c i
      = Return (Notions.fallback_text today (Some (JStr asked))
                  (Notions.figures_of locale c i))).
Proof.
  intros H. unfold Notions.promptable in H.
  repeat (apply andb_true_iff in H as [H ?]).
  unfold Dashboard.bulletin_fallback, Dashboard.question_fallback,
    Notions.fallback_text, Notions.figures_of, bind.
  cbn [Notions.temperature Notions.sea_level Notions.deaths Notions.refugees Notions.gdp].
  rewrite (get_of_readable c "global_temp") by assumption.
  rewrite (get_of_readable _ "current") by assumption.
  rewrite (interpolate_printable
             (Notions.member (Notions.member c "global_temp") "current"))
    by assumption.
  rewrite (get_of_readable c "sea_level_rise") by assumption.
  rewrite (get_of_readable _ "current") by assumption.
  rewrite (interpolate_printable
             (Notions.member (Notions.member c "sea_level_rise") "current"))
    by assumption.
  rewrite (get_of_readable i "death_toll_annual") by assumption.
  rewrite (toLocaleString_localizable locale _) by assumption.
  rewrite (get_of_readable i "refugees") by assumption.
  rewrite (toLocaleString_localizable locale _) by assumption.
  rewrite (get_of_readable i "gdp_loss_percent") by assumption.
  rewrite (interpolate_printable (Notions.member i "gdp_loss_percent")) by assumption.
  destruct fallback_texts_agree as [-> ->].
  split; [reflexivity|].
  intros Hq. cbn [truthy]. apply String.eqb_neq in Hq. rewrite Hq. reflexivity.
Qed.

Lemma promptable_truthy (c i : json) :
  Notions.promptable (Some c) (Some i) = true ->
  truthy (Some c) = true /\ truthy (Some i) = true.
Proof.
  unfold Notions.promptable. intros H. repeat (apply andb_true_iff in H as [H ?]).
  destruct c; try discriminate; destruct i; try discriminate. split; reflexivity.
Qed.

Lemma trim_not_empty (s : string) :
  String.eqb (Str.trim s) EmptyString = false -> s <> EmptyString.
Proof. intros H ->. discriminate H. Qed.

End NarrativeTab.

(** Property X13.  With data that has the two
    series and the two counts, with values the templates can quote, and a
    client that prints numbers and the date as the server does, the
    narrative tab shows the same text whether
    the completion service is down, so that the server answers with its
    fallback, or the server cannot be reached, so that the client falls
    back on its own template: for the bulletin, and for a question that
    passes the guard of [askQuestion]. *)
Theorem narrative_tab_fallbacks_agree (locale : num -> string) (today e : string)
    (st : Dashboard.narrative_tab) :
  let down body :=
    Some (fst (Api.post_narrative (fun _ => Throw e) locale today body)) in
  let unreachable (_ : json) := @None Server.response in
  (forall climate impacts,
      Notions.promptable (Some climate) (Some impacts) = true ->
      Dashboard.generateNarrative down locale today climate impacts st
      = Dashboard.generateNarrative unreachable locale today climate impacts st)
  /\ (Notions.promptable (Dashboard.climateData st) (Dashboard.humanImpacts st) = true ->
      Dashboard.askQuestion down locale st
      = Dashboard.askQuestion unreachable locale st).
Proof.
  cbv zeta. split.
  - intros climate impacts Hp.
    unfold Dashboard.generateNarrative.
    rewrite (post_narrative_answered locale today (fun _ => Throw e)
               (Dashboard.generateNarrative_request climate impacts)
               (Some climate) (Some impacts) None eq_refl Hp eq_refl). cbn [fst Api.narrative_response Server.body get lookup String.eqb
                             Ascii.eqb Bool.eqb].
    destruct (client_fallbacks locale today _ _ EmptyString Hp) as [-> _].
    reflexivity.
  - intros Hp. unfold Dashboard.askQuestion, Dashboard.askQuestion_request.
    destruct (String.eqb (Str.trim (Dashboard.question st)) EmptyString) eqn:Eq;
      [reflexivity|].
    destruct (Dashboard.climateData st) as [c|] eqn:Ec; [|discriminate Hp].
    destruct (Dashboard.humanImpacts st) as [i|] eqn:Ei;
      [|unfold Notions.promptable in Hp; cbn in Hp;
        rewrite !andb_false_r in Hp; discriminate Hp].
    destruct (promptable_truthy c i Hp) as [-> ->]. cbn [andb].
    pose proof (trim_not_empty _ Eq) as Hne.
    rewrite (post_narrative_answered locale today (fun _ => Throw e)
               (JObj [ ("baselineData", c); ("humanImpacts", i);
                       ("question", JStr (Dashboard.question st)) ])
               (Some c) (Some i) (Some (JStr (Dashboard.question st))) eq_refl Hp
               (orb_true_r _)). cbn [fst Api.narrative_response Server.body get lookup String.eqb
                             Ascii.eqb Bool.eqb].
    destruct (client_fallbacks locale today (Some c) (Some i)
                (Dashboard.question st) Hp) as [_ Hq].
    rewrite (Hq Hne). reflexivity.
Qed.
Lemma narrative_tab_fallbacks_agree_witness :
  Dashboard.askQuestion
    (fun body =>
       Some (fst (Api.post_narrative (fun _ => Throw "connect ECONNREFUSED")
                    (fun n => JsonText.num_to_string n) "6/1/2025" body)))
    (fun n => JsonText.num_to_string n)
    (Dashboard.NarrativeTab (Some Api.baselineData) (Some Api.humanImpacts)
       (Some (JStr EmptyString)) "Will it get worse?" (Some (JStr EmptyString)))
  = Dashboard.askQuestion (fun _ => None) (fun n => JsonText.num_to_string n)
      (Dashboard.NarrativeTab (Some Api.baselineData) (Some Api.humanImpacts)
         (Some (JStr EmptyString)) "Will it get worse?" (Some (JStr EmptyString)))
  /\ Dashboard.generateNarrative
       (fun body =>
          Some (fst (Api.post_narrative (fun _ => Throw "connect ECONNREFUSED")
                       (fun n => JsonText.num_to_string n) "6/1/2025" body)))
       (fun n => JsonText.num_to_string n) "6/1/2025"
       Api.baselineData Api.humanImpacts
       (Dashboard.NarrativeTab None None (Some (JStr EmptyString)) EmptyString
          (Some (JStr EmptyString)))
     = Dashboard.generateNarrative (fun _ => None)
         (fun n => JsonText.num_to_string n) "6/1/2025"
         Api.baselineData Api.humanImpacts
         (Dashboard.NarrativeTab None None (Some (JStr EmptyString)) EmptyString
            (Some (JStr EmptyString))).
Proof.
  split.
  - apply (proj2 (narrative_tab_fallbacks_agree (fun n => JsonText.num_to_string n)
                    "6/1/2025" "connect ECONNREFUSED"
                    (Dashboard.NarrativeTab (Some Api.baselineData)
                       (Some Api.humanImpacts) (Some (JStr EmptyString))
                       "Will it get worse?" (Some (JStr EmptyString))))).
    reflexivity.
  - apply (proj1 (narrative_tab_fallbacks_agree (fun n => JsonText.num_to_string n)
                    "6/1/2025" "connect ECONNREFUSED"
                    (Dashboard.NarrativeTab None None (Some (JStr EmptyString))
                       EmptyString (Some (JStr EmptyString))))
             Api.baselineData Api.humanImpacts).
    reflexivity.
Defined.

(** Property X14.  The narrative tab stores the
    member [narrative] of whatever the server answers, without looking at
    the status: after a 500, which is what data without the two series or
    the two counts, or with a value the templates cannot quote, gets, the
    bulletin, or the answer to the question, is [undefined].  With the baseline the server itself serves this does not
    happen: the bulletin is then a text, whatever the completion service
    does. *)
Theorem narrative_tab_after_an_answer (openai : Api.narrative_service)
    (locale : num -> string) (today : string) (st : Dashboard.narrative_tab) :
  let server body := Some (fst (Api.post_narrative openai locale today body)) in
  (forall climate impacts,
      Notions.promptable (Some climate) (Some impacts) = false ->
      Dashboard.generateNarrative server locale today climate impacts st
      = Return (Dashboard.NarrativeTab (Dashboard.climateData st)
                  (Dashboard.humanImpacts st) None (Dashboard.question st)
                  (Dashboard.answer st)))
  /\ (forall body,
        Dashboard.askQuestion_request st = Some body ->
        Notions.promptable (Dashboard.climateData st) (Dashboard.humanImpacts st) = false ->
        Dashboard.askQuestion server locale st
        = Return (Dashboard.NarrativeTab (Dashboard.climateData st)
                    (Dashboard.humanImpacts st) (Dashboard.narrative st)
                    (Dashboard.question st) None))
  /\ exists text,
       Dashboard.generateNarrative server locale today Api.baselineData
         Api.humanImpacts st
       = Return (Dashboard.NarrativeTab (Dashboard.climateData st)
                   (Dashboard.humanImpacts st) (Some (JStr text))
                   (Dashboard.question st) (Dashboard.answer st)).
Proof.
  cbv zeta. split; [|split].
  - intros climate impacts Hno. unfold Dashboard.generateNarrative.
    rewrite (post_narrative_refused locale today openai
               (Dashboard.generateNarrative_request climate impacts)
               (Some climate) (Some impacts) None eq_refl)
      by (rewrite Hno; reflexivity).
    reflexivity.
  - intros body Hbody Hno. unfold Dashboard.askQuestion. rewrite Hbody.
    unfold Dashboard.askQuestion_request in Hbody.
    destruct (String.eqb (Str.trim (Dashboard.question st)) EmptyString);
      [discriminate Hbody|].
    destruct (Dashboard.climateData st) as [c|]; [|discriminate Hbody].
    destruct (Dashboard.humanImpacts st) as [i|]; [|discriminate Hbody].
    destruct (truthy (Some c) && truthy (Some i)); [|discriminate Hbody].
    injection Hbody as <-.
    rewrite (post_narrative_refused locale today openai
               (JObj [ ("baselineData", c); ("humanImpacts", i);
                       ("question", JStr (Dashboard.question st)) ])
               (Some c) (Some i) (Some (JStr (Dashboard.question st))) eq_refl)
      by (rewrite Hno; reflexivity).
    reflexivity.
  - unfold Dashboard.generateNarrative.
    rewrite (post_narrative_answered locale today openai
               (Dashboard.generateNarrative_request Api.baselineData Api.humanImpacts)
               (Some Api.baselineData) (Some Api.humanImpacts) None eq_refl eq_refl
               eq_refl).
    eexists. reflexivity.
Qed.

Lemma narrative_tab_after_an_answer_witness :
  Dashboard.generateNarrative
    (fun body =>
       Some (fst (Api.post_narrative (fun _ => Return "All is well.")
                    (fun n => JsonText.num_to_string n) "6/1/2025" body)))
    (fun n => JsonText.num_to_string n) "6/1/2025"
    (JObj [("global_temp", JObj [("current", JNum (dec 11 1))])]) Api.humanImpacts
    (Dashboard.NarrativeTab None None (Some (JStr EmptyString)) EmptyString
       (Some (JStr EmptyString)))
  = Return (Dashboard.NarrativeTab None None None EmptyString (Some (JStr EmptyString)))
  /\ Dashboard.askQuestion
       (fun body =>
          Some (fst (Api.post_narrative (fun _ => Return "All is well.")
                       (fun n => JsonText.num_to_string n) "6/1/2025" body)))
       (fun n => JsonText.num_to_string n)
       (Dashboard.NarrativeTab
          (Some (JObj [("global_temp", JObj [("current", JNum (dec 11 1))])]))
          (Some Api.humanImpacts) (Some (JStr EmptyString)) "Will it get worse?"
          (Some (JStr EmptyString)))
     = Return (Dashboard.NarrativeTab
                 (Some (JObj [("global_temp", JObj [("current", JNum (dec 11 1))])]))
                 (Some Api.humanImpacts) (Some (JStr EmptyString))
                 "Will it get worse?" None).
Proof.
  split.
  - apply (proj1 (narrative_tab_after_an_answer (fun _ => Return "All is well.")
                    (fun n => JsonText.num_to_string n) "6/1/2025"
                    (Dashboard.NarrativeTab None None (Some (JStr EmptyString))
                       EmptyString (Some (JStr EmptyString))))
             (JObj [("global_temp", JObj [("current", JNum (dec 11 1))])])
             Api.humanImpacts).
    reflexivity.
  - eapply (proj1 (proj2 (narrative_tab_after_an_answer (fun _ => Return "All is well.")
                    (fun n => JsonText.num_to_string n) "6/1/2025"
                    (Dashboard.NarrativeTab
                       (Some (JObj [("global_temp",
                                     JObj [("current", JNum (dec 11 1))])]))
                       (Some Api.humanImpacts) (Some (JStr EmptyString))
                       "Will it get worse?" (Some (JStr EmptyString)))))).
    + reflexivity.
    + reflexivity.
Defined.
(** ** The client *)

Section Cards.

Local Open Scope Q_scope.

Lemma at_most_mono (v v' limit : Q) :
  v <= v' -> Dashboard.at_most (Some v') limit = true ->
  Dashboard.at_most (Some v) limit = true.
Proof.
  unfold Dashboard.at_most. rewrite !Qle_bool_iff. intros H1 H2.
  now apply Qle_trans with v'.
Qed.

Lemma bands_mono (v v' low high : Q) (a b c : string) :
  (Notions.severity a <= Notions.severity b)%nat ->
  (Notions.severity b <= Notions.severity c)%nat ->
  v <= v' ->
  (Notions.severity (if Dashboard.at_most (Some v) low then a
                     else if Dashboard.at_most (Some v) high then b else c)
   <= Notions.severity (if Dashboard.at_most (Some v') low then a
                        else if Dashboard.at_most (Some v') high then b else c))%nat.
Proof.
  intros Hab Hbc Hv.
  destruct (Dashboard.at_most (Some v') low) eqn:E1.
  - now rewrite (at_most_mono v v' low Hv E1).
  - destruct (Dashboard.at_most (Some v') high) eqn:E2.
    + rewrite (at_most_mono v v' high Hv E2).
      now destruct (Dashboard.at_most (Some v) low).
    + destruct (Dashboard.at_most (Some v) low); [lia|].
      now destruct (Dashboard.at_most (Some v) high).
Qed.

End Cards.

(** Property X17.  On every card the icon is the one
    that goes with the colour: check with green, alert with yellow, x with
    red, activity with gray.  A metric that is not one of the four charted
    ones is gray whatever its value; for a charted metric a value that is
    not a number is red, and a larger value is never shown as less
    alarming than a smaller one. *)
Theorem status_colour_and_icon (metric : string) :
  (forall value,
      Dashboard.getStatusIcon metric value
      = Notions.icon_of (Dashboard.getStatusColor metric value))
  /\ (Notions.charted metric = false ->
      forall value, Dashboard.getStatusColor metric value = "text-gray-600")
  /\ (Notions.charted metric = true ->
      Dashboard.getStatusColor metric None = "text-red-600"
      /\ forall v v' : Q,
           (v <= v')%Q ->
           (Notions.severity (Dashboard.getStatusColor metric (Some v))
            <= Notions.severity (Dashboard.getStatusColor metric (Some v')))%nat).
Proof.
  unfold Dashboard.getStatusIcon, Dashboard.getStatusColor, Notions.charted.
  split; [|split].
  - intros value.
    repeat match goal with
           | |- context [String.eqb metric ?s] => destruct (String.eqb metric s)
           | |- context [Dashboard.at_most value ?l] => destruct (Dashboard.at_most value l)
           end; reflexivity.
  - intros H value. apply orb_false_iff in H as [H ->].
    apply orb_false_iff in H as [H ->]. apply orb_false_iff in H as [-> ->].
    reflexivity.
  - intros H.
    destruct (String.eqb metric "global_temp");
      [split; [reflexivity | intros v v'; apply bands_mono; cbn; lia]|].
    destruct (String.eqb metric "sea_level_rise");
      [split; [reflexivity | intros v v'; apply bands_mono; cbn; lia]|].
    destruct (String.eqb metric "carbon_emissions");
      [split; [reflexivity | intros v v'; apply bands_mono; cbn; lia]|].
    destruct (String.eqb metric "forest_loss");
      [split; [reflexivity | intros v v'; apply bands_mono; cbn; lia]|].
    discriminate H.
Qed.

Lemma status_colour_and_icon_witness :
  Dashboard.getStatusColor "global_temp" (Some (11 # 10)) = "text-green-600"
  /\ Dashboard.getStatusColor "conflict_index" (Some (7 # 10)) = "text-gray-600"
  /\ (Notions.severity (Dashboard.getStatusColor "sea_level_rise" (Some (22 # 100)))
      <= Notions.severity (Dashboard.getStatusColor "sea_level_rise" (Some (195 # 100))))%nat.
Proof.
  split; [reflexivity|]. split.
  - apply (proj1 (proj2 (status_colour_and_icon "conflict_index"))). reflexivity.
  - apply (proj2 (proj2 (status_colour_and_icon "sea_level_rise"))).
    + reflexivity.
    + vm_compute. discriminate.
Defined.

(** Property X15.  One round of the
    client's [generateScenario] against [POST /api/scenarios], whose
    handler leaves the table as it was.  After an answer 500 the state of
    the client stays as it was.  After an answer 200 the client puts the
    answer at the head of its list, displays it and clears the input,
    unless the answer has a truthy member [error], in which case it drops
    it; the answer carries the input as typed under [userInput]. *)
Theorem client_shows_what_creation_answers (openai : Server.completion_service)
    (now : string) (st : Dashboard.what_if) (w : Server.world) (reqBody : json) :
  let server body :=
    match fst (Server.post_scenarios openai now body w) with
    | Return r => Some r
    | Throw _ => None
    end in
  Client.generateScenario (Dashboard.form st) = Some reqBody ->
  exists r calls',
    Server.post_scenarios openai now reqBody w
    = (Return r, Server.World (Server.db w) calls')
    /\ (Server.status r <> 200 -> Dashboard.generateScenario server st = st)
    /\ (Server.status r = 200 ->
        exists created,
          Server.body r = JObj created
          /\ lookup "userInput" created
             = Some (JStr (Client.userInput (Dashboard.form st)))
          /\ Dashboard.generateScenario server st
             = if truthy (lookup "error" created) then st
               else Dashboard.WhatIf
                      (Client.State EmptyString
                         (Client.climateData (Dashboard.form st))
                         (Client.humanImpacts (Dashboard.form st)))
                      (JObj created :: Dashboard.scenarios st)
                      (Some (JObj created))).
Proof.
  cbv zeta. intros Hsend. unfold Dashboard.generateScenario. rewrite Hsend.
  rewrite post_scenarios_answer.
  destruct (create_scenario_cases openai now reqBody w)
    as [(calls' & -> & _)
       | (u & b & h & p & content & ai & Hargs & _ & _ & _ & _ & ->)].
  - eexists. eexists. split; [reflexivity|]. split; [reflexivity|].
    intros H. discriminate H.
  - eexists. eexists. split; [reflexivity|]. split; [intros H; now destruct H|].
    intros _. eexists. split; [reflexivity|]. split; [|reflexivity].
    rewrite lookup_assign
      by (apply spread_distinct; constructor; [intros [] | constructor]).
    cbn [String.eqb Ascii.eqb Bool.eqb].
    apply generation_arguments_input in Hargs.
    unfold Client.generateScenario in Hsend.
    destruct (Client.climateData (Dashboard.form st)); [|discriminate Hsend].
    destruct (Client.humanImpacts (Dashboard.form st)); [|discriminate Hsend].
    destruct (String.eqb _ EmptyString); [discriminate Hsend|].
    injection Hsend as <-. cbn in Hargs. now injection Hargs as <-.
Qed.

Lemma client_shows_what_creation_answers_witness :
  exists r calls',
    Server.post_scenarios (Examples.answers Examples.plain_completion)
      "2025-06-01T12:00:00.000Z"
      (JObj [ ("userInput", JStr Examples.fusion_input);
              ("baselineData", Api.baselineData);
              ("humanImpacts", Api.humanImpacts) ])
      Examples.fresh_world
    = (Return r, Server.World (Server.db Examples.fresh_world) calls')
    /\ Server.status r = 200
    /\ exists created,
         Server.body r = JObj created
         /\ lookup "userInput" created = Some (JStr Examples.fusion_input)
         /\ Dashboard.generateScenario
              (fun body =>
                 match fst (Server.post_scenarios
                              (Examples.answers Examples.plain_completion)
                              "2025-06-01T12:00:00.000Z" body
                              Examples.fresh_world) with
                 | Return r => Some r
                 | Throw _ => None
                 end)
              (Dashboard.WhatIf
                 (Client.State Examples.fusion_input (Some Api.baselineData)
                    (Some Api.humanImpacts)) [] None)
            = if truthy (lookup "error" created)
              then Dashboard.WhatIf
                     (Client.State Examples.fusion_input (Some Api.baselineData)
                        (Some Api.humanImpacts)) [] None
              else Dashboard.WhatIf
                     (Client.State EmptyString (Some Api.baselineData)
                        (Some Api.humanImpacts))
                     [JObj created] (Some (JObj created)).
Proof.
  destruct (client_shows_what_creation_answers
              (Examples.answers Examples.plain_completion)
              "2025-06-01T12:00:00.000Z"
              (Dashboard.WhatIf
                 (Client.State Examples.fusion_input (Some Api.baselineData)
                    (Some Api.humanImpacts)) [] None)
              Examples.fresh_world
              (JObj [ ("userInput", JStr Examples.fusion_input);
                      ("baselineData", Api.baselineData);
                      ("humanImpacts", Api.humanImpacts) ])
              eq_refl) as (r & calls' & Hrun & _ & Hok).
  exists r, calls'. split; [exact Hrun|].
  assert (Hstatus : Server.status r = 200).
  { vm_compute in Hrun. now injection Hrun as <- _. }
  split; [exact Hstatus | exact (Hok Hstatus)].
Defined.


Section Samples.

Lemma no_target_no_temperature (data : Client.climate) (alt : Client.targets)
    (currentYear : Z) (draw : Q) (y : Z) (index : nat) :
  Client.global_temp_2100 alt = None ->
  Client.speculative (Client.temp_sample data alt currentYear draw y index) = None.
Proof.
  intros H. unfold Client.temp_sample. cbn [Client.speculative]. rewrite H.
  reflexivity.
Qed.

Lemma in_mapi_from {A B : Type} (f : A -> nat -> B) (l : list A) (b : B) :
  forall i, In b (Client.mapi_from f i l) -> exists x n, b = f x n.
Proof.
  induction l as [|x l IH]; intros i; cbn [Client.mapi_from In]; [tauto|].
  intros [<- | H]; [eauto | eapply IH, H].
Qed.

End Samples.
(** ** More on the forecast engine *)

Section ForecastShape.

Local Open Scope Z_scope.

Lemma nth_error_years_from (fuel : nat) :
  forall y i x,
    nth_error (Client.years_from fuel y) i = Some x -> x = y + 10 * Z.of_nat i.
Proof.
  induction fuel as [|f IH]; intros y i x; cbn [Client.years_from].
  - destruct i; discriminate.
  - destruct (y <=? Client.endYear); [|destruct i; discriminate].
    destruct i as [|i]; cbn [nth_error].
    + intros [= <-]. lia.
    + intros H. apply IH in H. lia.
Qed.

Lemma length_years_from (fuel : nat) :
  forall y,
    Client.endYear - y < Z.of_nat fuel -> y <= Client.endYear ->
    List.length (Client.years_from fuel y)
    = Z.to_nat ((Client.endYear - y) / 10 + 1).
Proof.
  induction fuel as [|f IH]; intros y Hf Hy; [lia|].
  cbn [Client.years_from].
  replace (y <=? Client.endYear) with true by (symmetry; apply Z.leb_le; exact Hy).
  cbn [List.length].
  destruct (Z_le_gt_dec (y + 10) Client.endYear) as [Hnext | Hlast].
  - rewrite IH by lia.
    replace (Client.endYear - y) with (Client.endYear - (y + 10) + 1 * 10) by lia.
    rewrite Z.div_add by lia.
    assert (0 <= (Client.endYear - (y + 10)) / 10) by (apply Z.div_pos; lia).
    lia.
  - rewrite Z.div_small by lia.
    destruct f as [|f]; cbn [Client.years_from]; [reflexivity|].
    replace (y + 10 <=? Client.endYear) with false by (symmetry; apply Z.leb_gt; lia).
    reflexivity.
Qed.

Lemma years_after_the_end (currentYear : Z) :
  Client.endYear < currentYear -> Client.years currentYear = [].
Proof.
  intros H. unfold Client.years.
  destruct (S (Z.to_nat (Client.endYear - currentYear))) eqn:E; [reflexivity|].
  cbn [Client.years_from].
  replace (currentYear <=? Client.endYear) with false
    by (symmetry; apply Z.leb_gt; exact H).
  reflexivity.
Qed.

Lemma length_mapi_from {A B : Type} (f : A -> nat -> B) (l : list A) :
  forall i, List.length (Client.mapi_from f i l) = List.length l.
Proof.
  induction l as [|x l IH]; intros i; cbn [Client.mapi_from List.length];
    [reflexivity | now rewrite IH].
Qed.

Lemma nth_error_years (currentYear : Z) (i : nat) (y : Z) :
  nth_error (Client.years currentYear) i = Some y ->
  y = currentYear + 10 * Z.of_nat i /\ currentYear <= y <= Client.endYear.
Proof.
  intros H. split.
  - now apply nth_error_years_from in H.
  - now apply nth_error_In, years_bounds in H.
Qed.

End ForecastShape.

(** Property X18.  The forecast has no series without
    a scenario or without a baseline.  Otherwise its three series have one
    sample for each year of the loop: none when the present year is past
    2100, and one for every tenth year from the present year up to 2100
    before.  The sample at position [i] is for the year at ten times [i]
    after the present year; its baseline is the value of the point at
    position [i] of the baseline's forecast, whatever the year of that
    point, and the present value when there is no such point or its value
    is zero. *)
Theorem forecast_series_shape (currentYear : Z) (random : nat -> Q) :
  (forall baselineData,
      Client.generateSpeculativeForecast currentYear random baselineData None = None)
  /\ (forall scenario,
        Client.generateSpeculativeForecast currentYear random None scenario = None)
  /\ forall data alt,
       exists f,
         Client.generateSpeculativeForecast currentYear random (Some data) (Some alt)
         = Some f
         /\ List.length (Client.temperature f) = List.length (Client.years currentYear)
         /\ List.length (Client.emissions f) = List.length (Client.years currentYear)
         /\ List.length (Client.seaLevel f) = List.length (Client.years currentYear)
         /\ ((currentYear <= Client.endYear)%Z ->
             List.length (Client.years currentYear)
             = Z.to_nat ((Client.endYear - currentYear) / 10 + 1))
         /\ ((Client.endYear < currentYear)%Z -> Client.years currentYear = [])
         /\ forall i s,
              (nth_error (Client.temperature f) i = Some s ->
               Client.s_year s = (currentYear + 10 * Z.of_nat i)%Z
               /\ Client.baseline s = Client.baseline_at (Client.global_temp data) i)
              /\ (nth_error (Client.emissions f) i = Some s ->
                  Client.s_year s = (currentYear + 10 * Z.of_nat i)%Z
                  /\ Client.baseline s
                     = Client.baseline_at (Client.carbon_emissions data) i)
              /\ (nth_error (Client.seaLevel f) i = Some s ->
                  Client.s_year s = (currentYear + 10 * Z.of_nat i)%Z
                  /\ Client.baseline s
                     = Client.baseline_at (Client.sea_level_rise data) i).
Proof.
  split; [intros [d|]; reflexivity|]. split; [intros [s|]; reflexivity|].
  intros data alt. eexists. split; [reflexivity|].
  cbn [Client.temperature Client.emissions Client.seaLevel].
  unfold Client.mapi. rewrite !length_mapi_from.
  split; [reflexivity|]. split; [reflexivity|]. split; [reflexivity|].
  split; [intros H; apply length_years_from; lia|].
  split; [apply years_after_the_end|].
  intros i s. fold (@Client.mapi Z Client.sample).
  repeat split;
    apply nth_error_mapi in H as (y & Hy & ->);
    apply nth_error_years in Hy as [-> _];
    try reflexivity;
    unfold Client.emissions_sample, Client.sea_level_sample;
    try (destruct (Client.carbon_emissions_2100 alt); reflexivity);
    try (destruct (Client.sea_level_rise_2100 alt); reflexivity).
Qed.

Lemma forecast_series_shape_witness :
  List.length (Client.years 2025) = Z.to_nat ((Client.endYear - 2025) / 10 + 1)
  /\ Client.years 2101 = [].
Proof.
  destruct (proj2 (proj2 (forecast_series_shape 2025 Examples.one_half))
              Examples.served_climate Examples.full_targets)
    as (f & _ & _ & _ & _ & Hlen & _).
  destruct (proj2 (proj2 (forecast_series_shape 2101 Examples.one_half))
              Examples.served_climate Examples.full_targets)
    as (f' & _ & _ & _ & _ & _ & Hnone & _).
  split.
  - apply Hlen. discriminate.
  - apply Hnone. reflexivity.
Defined.
Section ForecastValues.

Local Open Scope Q_scope.

Lemma progress_in_the_end_year (y : Z) : Client.progress_of y Client.endYear = None.
Proof. reflexivity. Qed.

Lemma years_of_the_end_year : Client.years Client.endYear = [Client.endYear].
Proof. reflexivity. Qed.

Lemma temp_sample_in_the_end_year (data : Client.climate) (alt : Client.targets)
    (draw : Q) (y : Z) (i : nat) :
  Client.speculative (Client.temp_sample data alt Client.endYear draw y i) = None.
Proof.
  unfold Client.temp_sample. cbn [Client.speculative].
  rewrite progress_in_the_end_year.
  unfold Client.add, Client.mul, Client.lift2.
  now destruct (Client.sub _ _).
Qed.

Lemma emissions_sample_in_the_end_year (data : Client.climate) (alt : Client.targets)
    (y : Z) (i : nat) :
  Client.speculative (Client.emissions_sample data alt Client.endYear y i) = None.
Proof.
  unfold Client.emissions_sample.
  destruct (Client.carbon_emissions_2100 alt); cbn [Client.speculative];
    rewrite progress_in_the_end_year; reflexivity.
Qed.

Lemma sea_level_sample_in_the_end_year (data : Client.climate) (alt : Client.targets)
    (draw : Q) (y : Z) (i : nat) :
  Client.speculative (Client.sea_level_sample data alt Client.endYear draw y i) = None.
Proof.
  unfold Client.sea_level_sample.
  destruct (Client.sea_level_rise_2100 alt); cbn [Client.speculative];
    rewrite progress_in_the_end_year; reflexivity.
Qed.

End ForecastValues.

(** Property X19.  Two ways in which the forecast
    yields samples that are not numbers.  A scenario without
    [global_temp_2100] has no number in its temperature series, whatever
    the other endpoints.  And in the year 2100 itself each of the three
    series is one sample for 2100 whose value is not a number, the
    progress being zero divided by zero. *)
Theorem forecast_not_a_number (random : nat -> Q) (data : Client.climate)
    (alt : Client.targets) :
  (forall currentYear f s,
      Client.global_temp_2100 alt = None ->
      Client.generateSpeculativeForecast currentYear random (Some data) (Some alt)
      = Some f ->
      In s (Client.temperature f) -> Client.speculative s = None)
  /\ exists t e l,
       Client.generateSpeculativeForecast Client.endYear random (Some data) (Some alt)
       = Some (Client.Forecast [t] [e] [l])
       /\ Client.s_year t = Client.endYear /\ Client.speculative t = None
       /\ Client.s_year e = Client.endYear /\ Client.speculative e = None
       /\ Client.s_year l = Client.endYear /\ Client.speculative l = None.
Proof.
  split.
  - intros currentYear f s Hno [= <-] Hs. cbn [Client.temperature] in Hs.
    apply in_mapi_from in Hs as (y & n & ->).
    now apply no_target_no_temperature.
  - unfold Client.generateSpeculativeForecast. rewrite years_of_the_end_year.
    cbn [Client.mapi Client.mapi_from].
    eexists. eexists. eexists. split; [reflexivity|].
    rewrite temp_sample_in_the_end_year, emissions_sample_in_the_end_year,
      sea_level_sample_in_the_end_year.
    unfold Client.temp_sample, Client.emissions_sample, Client.sea_level_sample.
    destruct (Client.carbon_emissions_2100 alt), (Client.sea_level_rise_2100 alt);
      repeat split; reflexivity.
Qed.

Lemma forecast_not_a_number_witness :
  Client.speculative
    (Client.temp_sample Examples.served_climate (Client.Targets None (Some (5 # 1)) None)
       2030 (1 # 2) 2040 1) = None.
Proof.
  apply (proj1 (forecast_not_a_number Examples.one_half Examples.served_climate
                  (Client.Targets None (Some (5 # 1)) None))
           2030%Z (Client.Forecast _ _ _) _ eq_refl eq_refl).
  right. left. reflexivity.
Defined.

Section Blends.

Local Open Scope Q_scope.



End Blends.




(** ** Completions with prose, and the records of the keyword generators *)

Section Prose.

Import JsonText.

Lemma parse_value_prose (fuel : nat) (c : ascii) (r : string) :
  Notions.no_value_start c = true -> parse_value fuel (String c r) = None.
Proof.
  unfold Notions.no_value_start. intros H. apply negb_true_iff in H.
  repeat (apply orb_false_iff in H as [H ?]).
  destruct fuel as [|f]; [reflexivity|].
  assert (Hzero : Ascii.eqb c "0" = false).
  { destruct (Ascii.eqb_spec c "0") as [-> | _]; [discriminate | reflexivity]. }
  cbn [parse_value skip_ws].
  unfold parse_number, parse_unsigned, parse_int_part.
  repeat match goal with
         | E : _ = false |- _ => rewrite E; clear E
         end.
  reflexivity.
Qed.

Lemma parse_prose (s : string) : Notions.starts_prose s = true -> parse s = None.
Proof.
  destruct s as [|c r]; [discriminate|]. cbn [Notions.starts_prose].
  intros H. unfold parse. now rewrite (parse_value_prose _ c r H).
Qed.

Lemma starts_prose_app (a b : string) :
  Notions.starts_prose a = true -> Notions.starts_prose (a ++ b) = true.
Proof. destruct a; [discriminate | intros H; exact H]. Qed.

Lemma parse_empty : parse EmptyString = None.
Proof. reflexivity. Qed.

End Prose.
Section ProseAround.

Lemma from_first_absent (c : ascii) (s : string) :
  Str.mem c s = false -> Str.from_first c s = None.
Proof.
  induction s as [|d s IH]; cbn [Str.mem Str.from_first]; [reflexivity|].
  intros H. apply orb_false_iff in H as [-> H]. now apply IH.
Qed.

Lemma match_braces_absent (s : string) :
  Str.mem "{" s = false -> Str.match_braces s = None.
Proof. intros H. unfold Str.match_braces. now rewrite (from_first_absent _ _ H). Qed.

End ProseAround.

(** Property X10.  What the parser does with prose,
    said by the look of the text.  A completion whose first character that
    is not white space cannot start a JSON value does not decode directly.
    If it then holds a well-formed record, with no opening brace in the
    text before it and no closing brace in the text after it, the parser
    returns that record: an introduction, or the fence of a code block,
    does no harm.  If it holds no opening brace at all, or is blank, the
    parser fails with the message of its last branch, which carries the
    first 200 code units of the trimmed text. *)
Theorem prose_around_the_record :
  (forall (fields : list (string * json)) (pre post : string),
      let r := JObj fields in
      Spec.canonical r = true ->
      Str.mem "{" pre = false ->
      Str.mem "}" post = false ->
      Notions.starts_prose (Str.trimStart pre) = true ->
      JsonText.parse (Str.trim (pre ++ JsonText.stringify r ++ post)) = None
      /\ Server.parse_completion (pre ++ JsonText.stringify r ++ post) = Return r)
  /\ (forall content : string,
        Str.mem "{" content = false ->
        Notions.starts_prose (Str.trim content) = true
        \/ Str.trim content = EmptyString ->
        Server.parse_completion content
        = Throw ("AI did not generate valid JSON. Response: "
                   ++ Str.prefix_of 200 (Str.trim content) ++ "...")).
Proof.
  split.
  - intros fields pre post r Hc Hpre Hpost Hprose.
    assert (Hnone : JsonText.parse (Str.trim (pre ++ JsonText.stringify r ++ post))
                    = None).
    { unfold r. cbn [JsonText.stringify].
      set (mid := JsonText.join "," _).
      replace (pre ++ ("{" ++ mid ++ "}") ++ post)
        with (pre ++ String "{" (mid ++ String "}" post))
        by (cbn [append]; now rewrite append_assoc).
      rewrite trim_around_braces.
      apply parse_prose, starts_prose_app, Hprose. }
    split; [exact Hnone|].
    exact (parse_completion_embedded pre _ post r (json_round_trip r Hc)
             Hpre Hpost (or_introl Hnone)).
  - intros content Hno Hlook. unfold Server.parse_completion.
    assert (Hnone : JsonText.parse (Str.trim content) = None).
    { destruct Hlook as [H | ->]; [now apply parse_prose | apply parse_empty]. }
    rewrite Hnone, match_braces_absent; [reflexivity|].
    unfold Str.trim. now apply mem_trimEnd, mem_trimStart.
Qed.

Lemma prose_around_the_record_witness :
  (JsonText.parse
     (Str.trim ("```json
" ++ JsonText.stringify Store.seed_alt_forecasts ++ "
```")) = None
   /\ Server.parse_completion
        ("```json
" ++ JsonText.stringify Store.seed_alt_forecasts ++ "
```") = Return Store.seed_alt_forecasts)
  /\ Server.parse_completion (Examples.blank_input ++ Examples.rambling)
     = Throw ("AI did not generate valid JSON. Response: "
                ++ Examples.rambling_200 ++ "...").
Proof.
  split.
  - apply (proj1 prose_around_the_record
             (Server.own_fields Store.seed_alt_forecasts) "```json
" "
```"); reflexivity.
  - refine (eq_trans
              (proj2 prose_around_the_record
                 (Examples.blank_input ++ Examples.rambling) eq_refl
                 (or_introl eq_refl)) _).
    vm_compute. reflexivity.
Defined.

Section KeywordRecords.

Lemma generateFallbackScenario_range (userInput : string) (record : json) :
  Fallback.generateFallbackScenario userInput = Return record ->
  In record Notions.fallback_records.
Proof.
  unfold Fallback.generateFallbackScenario, Notions.fallback_records.
  repeat match goal with
         | |- (if ?c then _ else _) = _ -> _ =>
             destruct c; [intros [= <-]; cbn [In]; tauto|]
         end.
  intros [= <-]; cbn [In]; tauto.
Qed.

Lemma createUniqueScenarioFromInput_range (userInput : string) (record : json) :
  Fallback.createUniqueScenarioFromInput userInput = Return record ->
  In record Notions.unique_records.
Proof.
  unfold Fallback.createUniqueScenarioFromInput, Notions.unique_records.
  repeat match goal with
         | |- (if ?c then _ else _) = _ -> _ =>
             destruct c; [intros [= <-]; cbn [In]; tauto|]
         end.
  discriminate.
Qed.

End KeywordRecords.

(** Property X11.  Whatever the input, a
    record that one of the two keyword generators returns is in canonical
    form, is read back by the parser of completions from its own
    serialisation, has a text as [theme] and as [narrative], and gives the
    forecast a temperature target for 2100.  The records of
    [createUniqueScenarioFromInput] give it targets for emissions and sea
    level as well; those of [generateFallbackScenario] give it neither, so
    that the forecast takes its fallback branches for them. *)
Theorem keyword_records_are_well_formed (userInput : string) (record : json) :
  (Fallback.generateFallbackScenario userInput = Return record ->
   Spec.canonical record = true
   /\ Server.parse_completion (JsonText.stringify record) = Return record
   /\ (exists theme narrative,
         get (Some record) "theme" = Return (Some (JStr theme))
         /\ get (Some record) "narrative" = Return (Some (JStr narrative)))
   /\ exists target,
        Dashboard.targets_of record
        = Return (Some (Client.Targets (Some target) None None)))
  /\ (Fallback.createUniqueScenarioFromInput userInput = Return record ->
      Spec.canonical record = true
      /\ Server.parse_completion (JsonText.stringify record) = Return record
      /\ (exists theme narrative,
            get (Some record) "theme" = Return (Some (JStr theme))
            /\ get (Some record) "narrative" = Return (Some (JStr narrative)))
      /\ exists target emissions level,
           Dashboard.targets_of record
           = Return (Some (Client.Targets (Some target) (Some emissions) (Some level)))).
Proof.
  split; intros H.
  - apply generateFallbackScenario_range in H. unfold Notions.fallback_records in H.
    cbn [In] in H.
    repeat (destruct H as [<- | H];
            [split; [vm_compute; reflexivity|];
             split; [vm_compute; reflexivity|];
             split; [eexists; eexists; split; reflexivity|];
             eexists; reflexivity|]).
    destruct H.
  - apply createUniqueScenarioFromInput_range in H. unfold Notions.unique_records in H.
    cbn [In] in H.
    repeat (destruct H as [<- | H];
            [split; [vm_compute; reflexivity|];
             split; [vm_compute; reflexivity|];
             split; [eexists; eexists; split; reflexivity|];
             eexists; eexists; eexists; reflexivity|]).
    destruct H.
Qed.

Lemma keyword_records_are_well_formed_witness :
  (Spec.canonical Fallback.fallback_energy = true
   /\ Server.parse_completion (JsonText.stringify Fallback.fallback_energy)
      = Return Fallback.fallback_energy
   /\ (exists theme narrative,
         get (Some Fallback.fallback_energy) "theme" = Return (Some (JStr theme))
         /\ get (Some Fallback.fallback_energy) "narrative"
            = Return (Some (JStr narrative)))
   /\ exists target,
        Dashboard.targets_of Fallback.fallback_energy
        = Return (Some (Client.Targets (Some target) None None)))
  /\ (Spec.canonical Fallback.unique_alien = true
      /\ Server.parse_completion (JsonText.stringify Fallback.unique_alien)
         = Return Fallback.unique_alien
      /\ (exists theme narrative,
            get (Some Fallback.unique_alien) "theme" = Return (Some (JStr theme))
            /\ get (Some Fallback.unique_alien) "narrative"
               = Return (Some (JStr narrative)))
      /\ exists target emissions level,
           Dashboard.targets_of Fallback.unique_alien
           = Return (Some (Client.Targets (Some target) (Some emissions) (Some level)))).
Proof.
  split.
  - apply (proj1 (keyword_records_are_well_formed Examples.fusion_input
                    Fallback.fallback_energy)).
    vm_compute. reflexivity.
  - apply (proj2 (keyword_records_are_well_formed "What if aliens land in Ohio?"
                    Fallback.unique_alien)).
    vm_compute. reflexivity.
Defined.
